(** * Client_API_VN: the ingestion engine, embedded and verified

    Shallow embedding of
    - [biolovision/api.py]        ([BiolovisionAPI._clean_params], [_url_get]),
    - [export_vn/download_vn.py]  ([Observations._store_search], [update]),
    - [export_vn/store_postgresql.py] ([store_1_observation], [_store_simple],
      [_store_geometry], [_store_form], [_store_uuid], [_store_observation]).

    Python objects are JSON-shaped values, exceptions are a [result] type,
    the HTTP transport, the SQL tables and the clock are explicit state. *)

From Stdlib Require Import ZArith QArith Qround Lqa String List Lia.
From stdpp Require Import base option list strings.

Set Warnings "-register-all".

Local Open Scope string_scope.
Local Open Scope list_scope.
Local Open Scope Z_scope.

(* ===================================================================== *)
(** * Python values and exceptions *)
(* ===================================================================== *)

Module Py.

(** Values decoded by [resp.json()].  A dict keeps its insertion order, so
    it is an association list whose keys are kept distinct by [dict_set].
    Numbers are the integers (ids, counts, timestamps); the engine never
    computes on fractional payload numbers. *)
Inductive json : Type :=
| JNull
| JBool (b : bool)
| JNum (n : Z)
| JStr (s : string)
| JList (l : list json)
| JDict (d : list (string * json)).

(** The exceptions the embedded code can raise or let through. *)
Inductive exn : Type :=
| TypeError
| KeyError
| IndexError
| AttributeError
| UnboundLocalError
| HTTPError (arg : json)
| MaxChunksError
| NotImplementedException
| IncorrectParameter
| IntegrityError
| OverflowError
| DataError
| StorePostgresqlException.

Inductive result (A : Type) : Type :=
| Ok (a : A)
| Raise (e : exn).
Arguments Ok {A} a.
Arguments Raise {A} e.

#[export] Instance result_ret : MRet result := fun _ a => Ok a.
#[export] Instance result_bind : MBind result := fun _ _ f m =>
  match m with
  | Ok a => f a
  | Raise e => Raise e
  end.

(** ** dict: [k in d], [d[k]], [d[k] = v], [del d[k]] *)

Fixpoint dict_get {V : Type} (k : string) (d : list (string * V)) : option V :=
  match d with
  | [] => None
  | (k', v) :: d' => if decide (k = k') then Some v else dict_get k d'
  end.

Fixpoint dict_set {V : Type} (k : string) (v : V) (d : list (string * V))
  : list (string * V) :=
  match d with
  | [] => [(k, v)]
  | (k', v') :: d' =>
      if decide (k = k') then (k, v) :: d' else (k', v') :: dict_set k v d'
  end.

Fixpoint dict_del {V : Type} (k : string) (d : list (string * V))
  : list (string * V) :=
  match d with
  | [] => []
  | (k', v') :: d' =>
      if decide (k = k') then d' else (k', v') :: dict_del k d'
  end.

Definition dict_mem {V : Type} (k : string) (d : list (string * V)) : bool :=
  bool_decide (is_Some (dict_get k d)).

(** ** The operators of the embedded code on decoded values *)

Definition is_str (k : string) (v : json) : bool :=
  match v with
  | JStr s => bool_decide (s = k)
  | _ => false
  end.

(** [k in v] for a string [k]: key test on a dict, element test on a list,
    substring test on a string, [TypeError] on the scalars. *)
Definition py_contains (k : string) (v : json) : result bool :=
  match v with
  | JDict d => Ok (dict_mem k d)
  | JList l => Ok (existsb (is_str k) l)
  | JStr s => Ok (bool_decide (is_Some (String.index 0 k s)))
  | _ => Raise TypeError
  end.

(** [v[k]] for a string [k]. *)
Definition py_getitem (v : json) (k : string) : result json :=
  match v with
  | JDict d =>
      match dict_get k d with
      | Some x => Ok x
      | None => Raise KeyError
      end
  | _ => Raise TypeError
  end.

(** [v[0]]. *)
Definition py_getitem0 (v : json) : result json :=
  match v with
  | JList (x :: _) => Ok x
  | JList [] => Raise IndexError
  | JStr (String c _) => Ok (JStr (String c EmptyString))
  | JStr EmptyString => Raise IndexError
  | JDict _ => Raise KeyError
  | _ => Raise TypeError
  end.

(** [v[k] = x] for a string [k]; the object is updated in place, which on a
    tree of values is the functional update. *)
Definition py_setitem (v : json) (k : string) (x : json) : result json :=
  match v with
  | JDict d => Ok (JDict (dict_set k x d))
  | _ => Raise TypeError
  end.

Definition py_len (v : json) : result Z :=
  match v with
  | JDict d => Ok (Z.of_nat (length d))
  | JList l => Ok (Z.of_nat (length l))
  | JStr s => Ok (Z.of_nat (String.length s))
  | _ => Raise TypeError
  end.

Fixpoint chars (s : string) : list json :=
  match s with
  | EmptyString => []
  | String c s' => JStr (String c EmptyString) :: chars s'
  end.

Definition as_int (v : json) : option Z :=
  match v with
  | JNum n => Some n
  | JBool b => Some (if b then 1 else 0)
  | _ => None
  end.

(** [a += b]: a list is extended by any iterable, strings and integers are
    added, everything else is a [TypeError]. *)
Definition py_iadd (a b : json) : result json :=
  match a with
  | JList l =>
      match b with
      | JList l' => Ok (JList (l ++ l'))
      | JStr s => Ok (JList (l ++ chars s))
      | JDict d => Ok (JList (l ++ map (fun kv => JStr kv.1) d))
      | _ => Raise TypeError
      end
  | JStr s =>
      match b with
      | JStr s' => Ok (JStr (s +:+ s'))
      | _ => Raise TypeError
      end
  | JNum _ | JBool _ =>
      match as_int a, as_int b with
      | Some x, Some y => Ok (JNum (x + y))
      | _, _ => Raise TypeError
      end
  | _ => Raise TypeError
  end.

(** Iterating a decoded value: the elements of a list, the keys of a dict,
    the characters of a string. *)
Definition py_iter (v : json) : result (list json) :=
  match v with
  | JList l => Ok l
  | JDict d => Ok (map (fun kv => JStr kv.1) d)
  | JStr s => Ok (chars s)
  | _ => Raise TypeError
  end.

End Py.
Export Py.

(* ===================================================================== *)
(** * biolovision/api.py *)
(* ===================================================================== *)

Module Api.

(** Request parameters: [dict] of [str] to [str], in insertion order. *)
Abbreviation params := (list (string * string)).

(** ** [_clean_params]

    [params] is a reference to a dict object; [copy(params)] allocates a new
    dict object with the same entries.  The heap is the list of allocated
    dict objects, a reference is an index in it. *)
Abbreviation heap := (list (list (string * string))).

Definition copy (h : heap) (r : nat) : result (heap * nat) :=
  match h !! r with
  | Some d => Ok (h ++ [d], length h)
  | None => Raise UnboundLocalError
  end.

Definition setitem (h : heap) (r : nat) (k v : string) : result heap :=
  match h !! r with
  | Some d => Ok (<[r := dict_set k v d]> h)
  | None => Raise UnboundLocalError
  end.

Definition _clean_params (h : heap) (params : nat) : result (heap * nat) :=
  '(h, c_params) ← copy h params;
  h ← setitem h c_params "user_email" "***";
  h ← setitem h c_params "user_pw" "***";
  mret (h, c_params).

(** ** [_url_get] *)

Inductive http_method : Type := GET | POST | OtherMethod (name : string).

(** What the loop reads of one [requests] response: the status code, the
    decoded body ([None] when [resp.json()] raises) and the two headers. *)
Record response : Type := Response {
  status_code : Z;
  body : option json;
  transfer_encoding : option string;
  pagination_key : option string
}.

Record limits : Type := Limits {
  max_retry : Z;
  max_chunks : Z
}.

Inductive event : Type :=
| EvRequest (p : params)
| EvSleep.

(** The client's session fields and the locals of [_url_get]. *)
Record client : Type := Client {
  transfer_errors : Z;
  http_status : Z;
  cur_params : params;
  nb_chunks : Z;
  data_rec : option json;
  trace : list event
}.

Definition fresh_client (p : params) : client :=
  Client 0 0 p 0 None [].

(** The loop either finishes ([Done]: a value or an exception) or has issued
    a request the script of responses does not answer ([Starved]). *)
Inductive outcome : Type :=
| Done (r : result json) (c : client)
| Starved (c : client).

Definition bound (data_rec : option json) : result json :=
  match data_rec with
  | Some d => Ok d
  | None => Raise UnboundLocalError
  end.

(** [data_rec["data"][key] += resp_chunk["data"][key]] when the accumulator
    has the key, [data_rec["data"][key] = resp_chunk["data"][key]] when not. *)
Definition append_under_data (key : string) (data_rec resp_chunk : json)
  : result json :=
  rec_data ← py_getitem data_rec "data";
  present ← py_contains key rec_data;
  if present : bool then
    old ← py_getitem rec_data key;
    chunk_data ← py_getitem resp_chunk "data";
    more ← py_getitem chunk_data key;
    new ← py_iadd old more;
    rec_data' ← py_setitem rec_data key new;
    py_setitem data_rec "data" rec_data'
  else
    chunk_data ← py_getitem resp_chunk "data";
    more ← py_getitem chunk_data key;
    rec_data' ← py_setitem rec_data key more;
    py_setitem data_rec "data" rec_data'.

(** One of the two blocks [if "sightings" in resp_chunk["data"]] and
    [if "forms" in resp_chunk["data"]]: returns the flag [observations] and
    the accumulator. *)
Definition merge_observations (key : string) (nb_chunks : Z)
    (resp_chunk : json) (st : bool * option json)
  : result (bool * option json) :=
  chunk_data ← py_getitem resp_chunk "data";
  present ← py_contains key chunk_data;
  if present : bool then
    items ← py_getitem chunk_data key;
    _ ← py_len items;
    if decide (nb_chunks = 0) then mret (true, Some resp_chunk)
    else
      d ← bound st.2;
      d' ← append_under_data key d resp_chunk;
      mret (true, Some d')
  else mret st.

(** "Initialize or append to response dict, depending on content". *)
Definition merge_chunk (nb_chunks : Z) (data_rec : option json)
    (resp_chunk : json) : result (option json) :=
  has_data ← py_contains "data" resp_chunk;
  if has_data : bool then
    st ← merge_observations "sightings" nb_chunks resp_chunk (false, data_rec);
    st ← merge_observations "forms" nb_chunks resp_chunk st;
    if st.1 : bool then mret st.2
    else
      _ ← py_len resp_chunk;
      if decide (nb_chunks = 0) then mret (Some resp_chunk)
      else
        d ← bound st.2;
        old ← py_getitem d "data";
        more ← py_getitem resp_chunk "data";
        new ← py_iadd old more;
        d' ← py_setitem d "data" new;
        mret (Some d')
  else
    _ ← py_len resp_chunk;
    if decide (nb_chunks = 0) then mret (Some resp_chunk)
    else
      d ← bound data_rec;
      d' ← py_iadd d resp_chunk;
      mret (Some d').

(** "Is there more data to come?" *)
Definition more_to_come (resp : response) : option string :=
  match transfer_encoding resp with
  | Some enc =>
      if decide (enc = "chunked") then pagination_key resp else None
  | None => None
  end.

(** The code after the [while] loop. *)
Definition after_loop (lim : limits) (c : client) : outcome :=
  if decide (max_chunks lim <= nb_chunks c) then Done (Raise MaxChunksError) c
  else Done (bound (data_rec c)) c.

Definition set_errors (c : client) (status errors : Z) (ev : list event)
  : client :=
  Client errors status (cur_params c) (nb_chunks c) (data_rec c)
         (trace c ++ ev).

(** The [while nb_chunks < max_chunks] loop; one iteration consumes one
    response of the script. *)
Fixpoint url_get_loop (lim : limits) (method : http_method)
    (script : list response) (c : client) : outcome :=
  if decide (nb_chunks c < max_chunks lim) then
    match method with
    | OtherMethod _ => Done (Raise NotImplementedException) c
    | _ =>
      match script with
      | [] => Starved (set_errors c (http_status c) (transfer_errors c)
                                  [EvRequest (cur_params c)])
      | resp :: script' =>
        let status := status_code resp in
        if decide (status ≠ 200) then
          let errors := transfer_errors c + 1 in
          let c' := set_errors c status errors
                               [EvRequest (cur_params c); EvSleep] in
          if decide (max_retry lim < errors)
          then Done (Raise (HTTPError (JNum status))) c'
          else url_get_loop lim method script' c'
        else
          let decoded :=
            match body resp with
            | Some j => (j, transfer_errors c)
            | None => (JDict [], transfer_errors c + 1)
            end in
          let c1 := set_errors c status decoded.2
                               [EvRequest (cur_params c)] in
          if decide (body resp = None ∧ max_retry lim < decoded.2)
          then Done (Raise (HTTPError (JStr "resp.json exception"))) c1
          else
            match merge_chunk (nb_chunks c) (data_rec c) decoded.1 with
            | Raise e => Done (Raise e) c1
            | Ok rec' =>
              match more_to_come resp with
              | Some key =>
                  url_get_loop lim method script'
                    (Client (transfer_errors c1) status
                            (dict_set "pagination_key" key (cur_params c))
                            (nb_chunks c + 1) rec' (trace c1))
              | None =>
                  after_loop lim
                    (Client (transfer_errors c1) status
                            (dict_del "pagination_key" (cur_params c))
                            (nb_chunks c) rec' (trace c1))
              end
            end
      end
    end
  else after_loop lim c.

Definition _url_get (lim : limits) (method : http_method)
    (script : list response) (c : client) : outcome :=
  url_get_loop lim method script
    (Client (transfer_errors c) (http_status c) (cur_params c) 0 None
            (trace c)).

(** ** Scripts of responses used to state the properties of [_url_get] *)

Definition supported (method : http_method) : Prop :=
  match method with
  | OtherMethod _ => False
  | _ => True
  end.

(** The client after the non-success responses [fails] were all retried:
    one more error, one request with the same parameters and one sleep for
    each; the page counter and the accumulator are untouched. *)
Definition retried (c : client) (fails : list response) : client :=
  Client (transfer_errors c + Z.of_nat (length fails))
         (List.last (map status_code fails) (http_status c))
         (cur_params c) (nb_chunks c) (data_rec c)
         (trace c ++
          concat (map (fun _ => [EvRequest (cur_params c); EvSleep]) fails)).

(** The shapes of chunk the merge distinguishes, by the name of the list
    they carry. *)
Inductive chunk_kind : Type := Sightings | Forms | Data | RawList.

Definition mk_chunk (k : chunk_kind) (items : list json) : json :=
  match k with
  | Sightings => JDict [("data", JDict [("sightings", JList items)])]
  | Forms => JDict [("data", JDict [("forms", JList items)])]
  | Data => JDict [("data", JList items)]
  | RawList => JList items
  end.

(** The items of a plain list are records, none is one of the bare strings
    the merge tests with [in]. *)
Definition plain (k : chunk_kind) (items : list json) : Prop :=
  match k with
  | Data => existsb (is_str "sightings") items = false ∧
            existsb (is_str "forms") items = false
  | RawList => existsb (is_str "data") items = false
  | _ => True
  end.

(** A successful response that signals continuation with [key]. *)
Definition continued (k : chunk_kind) (page : list json * string)
  : response :=
  Response 200 (Some (mk_chunk k page.1)) (Some "chunked") (Some page.2).

Definition count_requests (tr : list event) : Z :=
  Z.of_nat (length (List.filter
                      (fun e => match e with EvRequest _ => true | _ => false end)
                      tr)).

(** The accumulator of a loop that has merged the items [acc] of the
    chunks of kind [k] received so far. *)
Definition merged_so_far (k : chunk_kind) (c : client) (acc : list json)
  : Prop :=
  0 <= nb_chunks c ∧
  (nb_chunks c = 0 → acc = []) ∧
  (nb_chunks c ≠ 0 → data_rec c = Some (mk_chunk k acc)).

(** The client after a successful chunk that signals continuation. *)
Definition turn_page (k : chunk_kind) (c : client) (acc : list json)
    (page : list json * string) : client :=
  Client (transfer_errors c) 200
         (dict_set "pagination_key" page.2 (cur_params c))
         (nb_chunks c + 1) (Some (mk_chunk k (acc ++ page.1)))
         (trace c ++ [EvRequest (cur_params c)]).

(** ** Chunks of any shape, to state the merge *)

(** A successful response that carries the chunk [page.1] and signals
    continuation with the key [page.2]. *)
Definition continued_chunk (page : json * string) : response :=
  Response 200 (Some page.1) (Some "chunked") (Some page.2).

(** The merge of the loop, chunk after chunk; [nb_chunks] counts the
    chunks merged before. *)
Fixpoint merge_from (nb_chunks : Z) (data_rec : option json)
    (chunks : list json) : result (option json) :=
  match chunks with
  | [] => Ok data_rec
  | chunk :: rest =>
      data_rec ← merge_chunk nb_chunks data_rec chunk;
      merge_from (nb_chunks + 1) data_rec rest
  end.

(** The three families of chunks of the data model: mappings whose [data]
    is a mapping with [sightings], [forms] or both; mappings whose [data]
    is a list; bare lists. *)
Inductive family : Type := Observations | DataLists | RawLists.

(** The list a chunk carries under [data.key], under [data], or is. *)
Definition named_list (key : string) (chunk : json) : option (list json) :=
  match py_getitem chunk "data" with
  | Ok (JDict d) =>
      match dict_get key d with
      | Some (JList l) => Some l
      | _ => None
      end
  | _ => None
  end.

Definition data_list (chunk : json) : option (list json) :=
  match py_getitem chunk "data" with
  | Ok (JList l) => Some l
  | _ => None
  end.

Definition raw_list (chunk : json) : option (list json) :=
  match chunk with
  | JList l => Some l
  | _ => None
  end.

(** The key is absent from the mapping or names a list. *)
Definition list_or_absent (key : string) (d : list (string * json)) : Prop :=
  match dict_get key d with
  | None | Some (JList _) => True
  | Some _ => False
  end.

Definition shaped (fam : family) (chunk : json) : Prop :=
  match fam with
  | Observations =>
      ∃ top d,
        chunk = JDict top ∧ dict_get "data" top = Some (JDict d) ∧
        list_or_absent "sightings" d ∧ list_or_absent "forms" d ∧
        (dict_mem "sightings" d = true ∨ dict_mem "forms" d = true)
  | DataLists =>
      ∃ top l,
        chunk = JDict top ∧ dict_get "data" top = Some (JList l) ∧
        plain Data l
  | RawLists => ∃ l, chunk = JList l ∧ plain RawList l
  end.

(** The spec's words, "concatenating same-named lists in arrival order":
    the lists the chunks carry under [data.key], one after the other; no
    list when no chunk has the key. *)
Definition concat_named (key : string) (chunks : list json) : option json :=
  match omap (named_list key) chunks with
  | [] => None
  | ls => Some (JList (concat ls))
  end.

(** The spec's words, "first chunk seeds the accumulator, subsequent
    chunks append": [r] is the first chunk but for the lists, which are the
    concatenations of the same-named lists of all the chunks. *)
Definition merged (fam : family) (chunks : list json) (r : json) : Prop :=
  match fam with
  | Observations =>
      ∃ top d top0 d0,
        r = JDict top ∧ head chunks = Some (JDict top0) ∧
        dict_get "data" top = Some (JDict d) ∧
        dict_get "data" top0 = Some (JDict d0) ∧
        (∀ k, k ≠ "data" → dict_get k top = dict_get k top0) ∧
        dict_get "sightings" d = concat_named "sightings" chunks ∧
        dict_get "forms" d = concat_named "forms" chunks ∧
        (∀ k, k ≠ "sightings" → k ≠ "forms" → dict_get k d = dict_get k d0)
  | DataLists =>
      ∃ top top0,
        r = JDict top ∧ head chunks = Some (JDict top0) ∧
        dict_get "data" top =
          Some (JList (concat (omap data_list chunks))) ∧
        (∀ k, k ≠ "data" → dict_get k top = dict_get k top0)
  | RawLists => r = JList (concat (omap raw_list chunks))
  end.

(** What one chunk adds under [key] to the [data] of the accumulator. *)
Definition add_named (key : string) (chunk : json)
    (d : list (string * json)) : list (string * json) :=
  match named_list key chunk with
  | Some l =>
      dict_set key
        (JList (match dict_get key d with
                | Some (JList a) => a
                | _ => []
                end ++ l)) d
  | None => d
  end.

End Api.

(* ===================================================================== *)
(** * biolovision/api.py: the calls built on [_url_get] *)
(* ===================================================================== *)

Module ApiCalls.
Import Api.

(** [config.user_email], [config.user_pw]. *)
Record config : Type := Config {
  user_email : string;
  user_pw : string
}.

(** "Mandatory parameters." *)
Definition mandatory (cfg : config) : params :=
  [("user_email", user_email cfg); ("user_pw", user_pw cfg)].

(** [params.update(opt_params)], and
    [for key, value in kwargs.items(): params[key] = value]. *)
Definition update_with (p extra : params) : params :=
  fold_left (fun p kv => dict_set kv.1 kv.2 p) extra p.

(** [self._url_get(params, ...)] on the session the client is in. *)
Definition call (lim : limits) (method : http_method) (p : params)
    (script : list response) (c : client) : outcome :=
  _url_get lim method script
    (Client (transfer_errors c) (http_status c) p (nb_chunks c) (data_rec c)
            (trace c)).

Definition client_of (o : outcome) : client :=
  match o with
  | Done _ c => c
  | Starved c => c
  end.

(** [api_get(id_entity, **kwargs)]. *)
Definition api_get (lim : limits) (cfg : config) (kwargs : params)
    (script : list response) (c : client) : outcome :=
  call lim GET (update_with (mandatory cfg) kwargs) script c.

(** [_api_list]: [entities = self._url_get(...)["data"]], its length for
    the log, and [{"data": entities}]. *)
Definition _api_list (lim : limits) (cfg : config)
    (opt_params : option params) (script : list response) (c : client)
  : outcome :=
  let p := match opt_params with
           | Some extra => update_with (mandatory cfg) extra
           | None => mandatory cfg
           end in
  match call lim GET p script c with
  | Done (Ok v) c' =>
      Done (entities ← py_getitem v "data";
            _ ← py_len entities;
            mret (JDict [("data", entities)])) c'
  | o => o
  end.

(** [ObservationsAPI.api_list(id_taxo_group, **kwargs)], given
    [str(id_taxo_group)].  A keyword argument that carries the name of a
    parameter of the method, [id_taxo_group] or [self], is refused when
    the call is bound: [TypeError], before the body runs. *)
Definition observations_api_list (lim : limits) (cfg : config)
    (id_taxo_group : string) (kwargs : params) (script : list response)
    (c : client) : outcome :=
  if dict_mem "id_taxo_group" kwargs || dict_mem "self" kwargs
  then Done (Raise TypeError) c
  else
    _api_list lim cfg
      (Some (update_with [("id_taxo_group", id_taxo_group)] kwargs)) script c.

(** [api_diff(id_taxo_group, delta_time, modification_type)], given
    [str(id_taxo_group)]. *)
Definition api_diff (lim : limits) (cfg : config)
    (id_taxo_group delta_time modification_type : string)
    (script : list response) (c : client) : outcome :=
  call lim GET
    (dict_set "date" delta_time
       (dict_set "modification_type" modification_type
          (dict_set "id_taxo_group" id_taxo_group (mandatory cfg))))
    script c.

(** [api_search(q_params, **kwargs)]; the body is [json.dumps(q_params)]. *)
Definition api_search (lim : limits) (cfg : config) (q_params : option json)
    (kwargs : params) (script : list response) (c : client) : outcome :=
  let p := update_with (mandatory cfg) kwargs in
  match q_params with
  | Some _ => call lim POST p script c
  | None => Done (Raise IncorrectParameter) c
  end.

(** ** Vocabulary for the properties of the calls *)

(** [p'] is [p] but for its [pagination_key]. *)
Definition same_but_page (p p' : params) : Prop :=
  ∀ k, k ≠ "pagination_key" → dict_get k p' = dict_get k p.

Definition request_like (p : params) (e : event) : Prop :=
  match e with
  | EvRequest p' => same_but_page p p'
  | EvSleep => True
  end.

(** The number of responses after which the loop of [_url_get] is over,
    whatever they are. *)
Definition responses_needed (lim : limits) (c : client) : nat :=
  (Z.to_nat (max_chunks lim - nb_chunks c) +
   Z.to_nat (max_retry lim - transfer_errors c))%nat.

Definition is_done (o : outcome) : Prop :=
  match o with
  | Done _ _ => True
  | Starved _ => False
  end.

(** What one run of the loop keeps, whatever the responses are. *)
Definition kept (c : client) (o : outcome) : Prop :=
  ∃ new,
    trace (client_of o) = trace c ++ new ∧
    Forall (request_like (cur_params c)) new ∧
    same_but_page (cur_params c) (cur_params (client_of o)) ∧
    transfer_errors c <= transfer_errors (client_of o).

(** The client after the successful chunks [pages], each signalling
    continuation, were merged onto the items [acc]. *)
Fixpoint after_pages (k : chunk_kind) (c : client) (acc : list json)
    (pages : list (list json * string)) : client :=
  match pages with
  | [] => c
  | page :: rest => after_pages k (turn_page k c acc page) (acc ++ page.1) rest
  end.

(** The parameters of the requests of a fetch of [pages] and one more
    chunk: the parameters of the call, then these with the key of each page
    in turn. *)
Definition paged_requests (p : params) (pages : list (list json * string))
  : list event :=
  map EvRequest
      (p :: map (fun page => dict_set "pagination_key" page.2 p) pages).

(** The request carries the keyword arguments, and the parameters [base]
    for the keys they do not name. *)
Definition carries (kwargs base : params) (e : event) : Prop :=
  match e with
  | EvRequest p =>
      ∀ k, k ≠ "pagination_key" →
        dict_get k p = match dict_get k kwargs with
                       | Some v => Some v
                       | None => dict_get k base
                       end
  | EvSleep => True
  end.

(** The call issued requests, each carrying the keyword arguments. *)
Definition sent (kwargs base : params) (c : client) (o : outcome) : Prop :=
  ∃ new,
    trace (client_of o) = trace c ++ new ∧ Forall (carries kwargs base) new.

End ApiCalls.

(** * The log of the API calls ([biolovision/api.py])

    [logger = logging.getLogger("transfer_vn.biolovision_api")]: the logger
    of the module, whose ancestors are the logger [transfer_vn] and the root
    logger.  Each of the three has a level, [NOTSET] when none was set; no
    logger is disabled. *)

Module ApiLog.
Import Api ApiCalls.

Record levels : Type := Levels {
  module_level : Z;
  package_level : Z;
  root_level : Z
}.

Definition NOTSET : Z := 0.
Definition DEBUG : Z := 10.
Definition INFO : Z := 20.
Definition WARNING : Z := 30.

(** [Logger.getEffectiveLevel]: the first level that is set, from the logger
    of the module up to the root. *)
Definition getEffectiveLevel (l : levels) : Z :=
  if decide (module_level l ≠ NOTSET) then module_level l
  else if decide (package_level l ≠ NOTSET) then package_level l
  else root_level l.

(** [logger.isEnabledFor(level)]. *)
Definition isEnabledFor (l : levels) (level : Z) : bool :=
  bool_decide (getEffectiveLevel l <= level).

(** [logging.getLogger().setLevel(level)]. *)
Definition root_setLevel (l : levels) (level : Z) : levels :=
  Levels (module_level l) (package_level l) level.

(** An argument of a log call: a text or a dict of parameters. *)
Inductive log_arg : Type :=
  | ArgStr (s : string)
  | ArgParams (p : params).

(** A record handed to the handlers: the message and its arguments. *)
Record log_line : Type := LogLine {
  line_msg : string;
  line_args : list log_arg
}.

(** [logger.debug(msg, *args)]. *)
Definition debug (l : levels) (msg : string) (args : list log_arg)
  : list log_line :=
  if isEnabledFor l DEBUG then [LogLine msg args] else [].

(** The value of [self._clean_params(params)]: the dict the reference it
    returns points to, [params] being the only dict allocated before. *)
Definition cleaned (p : params) : result params :=
  '(h, c_params) ← _clean_params [p] 0;
  match h !! c_params with
  | Some d => Ok d
  | None => Raise UnboundLocalError
  end.

Section Payload.

(** [urllib.parse.quote]. *)
Variable quote : string → string.

(** [urllib.parse.urlencode(params, quote_via=urllib.parse.quote)]:
    [quote(k) + "=" + quote(v)] for each entry, joined by ["&"]. *)
Fixpoint urlencode (p : params) : string :=
  match p with
  | [] => ""
  | (k, v) :: rest =>
      let pair := quote k +:+ "=" +:+ quote v in
      match rest with
      | [] => pair
      | _ :: _ => pair +:+ "&" +:+ urlencode rest
      end
  end.

(** Lines 196-201 of [_url_get], in a turn of the loop whose parameters are
    [p]: the root logger is set to [INFO], then the payload is logged at
    [DEBUG]; the level of the root logger is restored after the request
    (line 222). *)
Definition payload_line (l : levels) (p : params) : list log_line :=
  debug (root_setLevel l INFO) "Params: %s" [ArgStr (urlencode p)].

(** The payload lines of a [GET] or [POST] call of [_url_get]: each turn of
    the loop logs the payload and then sends it, so there is one line per
    request, with the parameters of the request. *)
Definition payload_lines (l : levels) (requests : list event)
  : list log_line :=
  flat_map (fun e => match e with
                     | EvRequest p => payload_line l p
                     | EvSleep => []
                     end) requests.

(** The lines of [api_get(id_entity, **kwargs)] that carry parameters: its
    own, with the masked copy, then the payload lines of its [_url_get]. *)
Definition api_get_lines (l : levels) (lim : limits) (cfg : config)
    (id_entity : string) (kwargs : params) (script : list response)
    (c : client) : result (list log_line) :=
  c_params ← cleaned (update_with (mandatory cfg) kwargs);
  mret (debug l "In api_get for controler:%s, with parameters:%s"
              [ArgStr id_entity; ArgParams c_params] ++
        payload_lines l
          (drop (length (trace c))
                (trace (client_of (api_get lim cfg kwargs script c))))).

End Payload.

(** The text [t] occurs in [s]. *)
Definition occurs (t s : string) : Prop :=
  ∃ pre post, s = pre +:+ t +:+ post.

End ApiLog.

(* ===================================================================== *)
(** * export_vn/regulator.py *)
(* ===================================================================== *)

Module Regulator.

Local Open Scope Q_scope.

(** Modelled from the spec: the class [PID] of [export_vn/regulator.py],
    which [download_vn.py] imports and which is not among the sources.  The
    spec (4.3) gives its contract: fed the count of a window, it returns
    the next window size, clamped to the output bounds, from a sum of the
    errors (target - observed count).  The properties of the search loop
    are proved for every regulator whose output stays within its bounds;
    this one is the instance the examples run, and only the clamping of its
    output is relied on ([PID_call_limited]): from what value the sum
    starts and where else it saturates the sources do not settle.  The
    gains and the sum are rationals: [0.003] is [3/1000]. *)
Record PID : Type := MkPID {
  Kp : Q;
  Ki : Q;
  Kd : Q;
  setpoint : Q;
  output_limits : Q * Q;
  integral : Q;
  last_error : option Q
}.

Definition PID_new (kp ki kd setpoint : Q) (output_limits : Q * Q) : PID :=
  MkPID kp ki kd setpoint output_limits 0 None.

Definition clamp (value : Q) (limits : Q * Q) : Q :=
  if Qlt_le_dec limits.2 value then limits.2
  else if Qlt_le_dec value limits.1 then limits.1
  else value.

(** [pid(input_)]: the new controller and the output. *)
Definition PID_call (pid : PID) (input_ : Z) : PID * Q :=
  let error := setpoint pid - inject_Z input_ in
  let proportional := Kp pid * error in
  let integral := clamp (integral pid + Ki pid * error) (output_limits pid) in
  let derivative :=
    Kd pid * (error - match last_error pid with Some e => e | None => error end) in
  let output := clamp (proportional + integral + derivative) (output_limits pid) in
  (MkPID (Kp pid) (Ki pid) (Kd pid) (setpoint pid) (output_limits pid)
         integral (Some error),
   output).

End Regulator.

(* ===================================================================== *)
(** * export_vn/download_vn.py *)
(* ===================================================================== *)

Module Download.

(** ** datetime

    A naive [datetime] is its number of microseconds since 0001-01-01
    00:00; [timedelta(days=d)] is [d] days of microseconds. *)

Definition days_before_year (y : Z) : Z :=
  (y - 1) * 365 + (y - 1) / 4 - (y - 1) / 100 + (y - 1) / 400.

Definition usec_per_day : Z := 86400 * 1000000.

(** [datetime(y, 1, 1)]; the proleptic ordinal of 0001-01-01 is 1. *)
Definition datetime_jan1 (y : Z) : Z := days_before_year y * usec_per_day.

Definition datetime_max : Z := datetime_jan1 10000 - 1.

(** [t - timedelta(days=d)], with the [OverflowError] of a result outside
    the years 1 to 9999. *)
Definition minus_days (t d : Z) : result Z :=
  let r := t - d * usec_per_day in
  if decide (0 <= r <= datetime_max) then Ok r else Raise OverflowError.

(** [int(x)] of a float: truncation toward zero. *)
Definition py_int (x : Q) : Z := Z.quot (Qnum x) (Z.pos (Qden x)).

Definition min_date : Z := datetime_jan1 1901.

(** ** [Observations._store_search], for one taxo group *)

Section StoreSearch.

(** The regulator: its state and its call. *)
Context {pid : Type}.
Variable pid_call : pid → Z → pid * Q.

(** [api_search] of the window, then [backend.log] and [backend.store]:
    the number of observations stored, or the exception raised. *)
Variable search_and_store : Z → Z → Z → result Z.

(** One query window: [date_from], [date_to], [seq] and its width. *)
Record window : Type := Window {
  date_from : Z;
  date_to : Z;
  win_seq : Z;
  win_days : Z
}.

Record search_state : Type := SearchState {
  start_date : Z;
  end_date : Z;
  seq : Z;
  regulator : pid;
  delta_days : Z;
  windows : list window
}.

(** [delta_days = int(pid(nb_obs))]: the controller and the width of
    the next window. *)
Definition regulate (st : pid * Z) (nb_obs : Z) : pid * Z :=
  let out := pid_call st.1 nb_obs in
  (out.1, py_int out.2).

(** [while start_date > min_date]: [None] when the fuel runs out. *)
Fixpoint store_search_loop (fuel : nat) (s : search_state)
  : option (result unit * search_state) :=
  if decide (min_date < start_date s) then
    match fuel with
    | O => None
    | S fuel' =>
      match minus_days (end_date s) (delta_days s) with
      | Raise e => Some (Raise e, s)
      | Ok start =>
        let w := Window start (end_date s) (seq s) (delta_days s) in
        match search_and_store start (end_date s) (seq s) with
        | Raise e =>
            Some (Raise e,
                  SearchState start (end_date s) (seq s) (regulator s)
                              (delta_days s) (windows s ++ [w]))
        | Ok nb_obs =>
            let next := regulate (regulator s, delta_days s) nb_obs in
            store_search_loop fuel'
              (SearchState start start (seq s + 1) next.1 next.2
                           (windows s ++ [w]))
        end
      end
    end
  else Some (Ok (), s).

Definition store_search_init (now : Z) (pid0 : pid) : search_state :=
  SearchState now now 1 pid0 15 [].

End StoreSearch.

Definition search_pid : Regulator.PID :=
  Regulator.PID_new 0 (3 # 1000) 0 (10000 # 1) (10 # 1, 2000 # 1).

(** The loop as [_store_search] runs it: with [PID(kp=0.0, ki=0.003,
    kd=0.0, setpoint=10000, output_limits=(10, 2000))]. *)
Definition _store_search (search_and_store : Z → Z → Z → result Z)
    (now : Z) (fuel : nat) :=
  store_search_loop Regulator.PID_call search_and_store fuel
                    (store_search_init now search_pid).

(** ** [Observations.update] *)

Inductive backend_event : Type :=
| IncrementLog (taxo : json)
| ApiDiff (taxo since : json)
| ApiGet (obs : json)
| Log
| BackendStore (items_dict : json)
| DeleteObs (obs_list : list json).

(** "List by processing type". *)
Fixpoint classify (items : list json) (updated deleted : list json)
  : result (list json * list json) :=
  match items with
  | [] => Ok (updated, deleted)
  | item :: rest =>
      id ← py_getitem item "id_sighting";
      mt ← py_getitem item "modification_type";
      if is_str "updated" mt then classify rest (updated ++ [id]) deleted
      else if is_str "deleted" mt then classify rest updated (deleted ++ [id])
      else
        _ ← py_getitem item "id_universal";
        Raise NotImplementedException
  end.

Section Update.

Variable increment_get : json → option json.
Variable api_diff : json → json → result json.
Variable api_get : json → result json.

(** "Process updates". *)
Fixpoint process_updates (updated : list json) (tr : list backend_event)
  : result unit * list backend_event :=
  match updated with
  | [] => (Ok (), tr)
  | obs :: rest =>
      match api_get obs with
      | Raise e => (Raise e, tr ++ [ApiGet obs])
      | Ok items_dict =>
          process_updates rest
            (tr ++ [ApiGet obs; Log; BackendStore items_dict])
      end
  end.

(** The body of [for taxo in taxo_list]; returns the value of [since]
    for the next iteration. *)
Definition update_taxo (get_since : bool) (taxo : json)
    (since : option json) (tr : list backend_event)
  : result (option json) * list backend_event :=
  let since := if get_since then increment_get taxo else since in
  let classified :=
    match since with
    | Some date =>
        let tr := tr ++ [IncrementLog taxo; ApiDiff taxo date] in
        (items_dict ← api_diff taxo date;
         items ← py_iter items_dict;
         classify items [] [],
         tr)
    | None => (Ok ([], []), tr)
    end in
  match classified.1 with
  | Raise e => (Raise e, classified.2)
  | Ok (updated, deleted) =>
      match process_updates updated classified.2 with
      | (Raise e, tr) => (Raise e, tr)
      | (Ok _, tr) =>
          (Ok since,
           if decide (0 < length deleted)%nat
           then tr ++ [DeleteObs deleted] else tr)
      end
  end.

Fixpoint update_loop (get_since : bool) (taxo_list : list json)
    (since : option json) (tr : list backend_event)
  : result unit * list backend_event :=
  match taxo_list with
  | [] => (Ok (), tr)
  | taxo :: rest =>
      match update_taxo get_since taxo since tr with
      | (Raise e, tr) => (Raise e, tr)
      | (Ok since, tr) => update_loop get_since rest since tr
      end
  end.

(** [update(id_taxo_group, since)] on the list [_list_taxo_groups]
    returns. *)
Definition update (taxo_list : list json) (since : option json)
  : result unit * list backend_event :=
  update_loop (bool_decide (since = None)) taxo_list since [].

End Update.

(** ** Diff items, to state the properties of [update] *)






(** ** The walk of the query windows, to state the properties of
    [_store_search] *)

(** [walk t ws t']: the windows [ws] go backward from [t] to [t'], each
    one issued while the start reached so far was after [min_date], ending
    where the previous one starts and between 10 and 2000 days wide. *)
Inductive walk : Z → list window → Z → Prop :=
| walk_done t : walk t [] t
| walk_back t w ws t' :
    min_date < t →
    date_to w = t →
    date_from w = t - win_days w * usec_per_day →
    10 <= win_days w <= 2000 →
    walk (date_from w) ws t' →
    walk t (w :: ws) t'.

Definition search_fuel (now : Z) : nat :=
  Z.to_nat ((now - min_date) / (10 * usec_per_day) + 1).

End Download.

(* ===================================================================== *)
(** * export_vn/store_postgresql.py *)
(* ===================================================================== *)

Module Store.

(** ** Tables

    A row of one of the [*_json] tables: [id], [site], [item] and, for
    [observations_json], [update_ts].  A table is the list of its rows in
    insertion order; the primary key [(id, site)] is enforced by [insert],
    as the [PrimaryKeyConstraint] of the table does. *)
Record row : Type := Row {
  row_id : Z;
  row_site : string;
  row_item : json;
  row_update_ts : option json
}.

Abbreviation table := (list row).

(** A row of [uuid_xref]. *)
Record xref : Type := Xref {
  xref_id : Z;
  xref_site : string;
  xref_universal_id : json;
  xref_uuid : string;
  xref_alias : option json;
  xref_update_ts : Z
}.

Definition has_key (id : Z) (site : string) (r : row) : bool :=
  bool_decide (row_id r = id ∧ row_site r = site).

Definition xref_has_key (id : Z) (site : string) (r : xref) : bool :=
  bool_decide (xref_id r = id ∧ xref_site r = site).

(** [select ... where id == .. and site == ..] then [fetchone()]. *)
Definition select_one (t : table) (id : Z) (site : string) : option row :=
  List.find (has_key id site) t.

Definition insert (t : table) (r : row) : result table :=
  if existsb (has_key (row_id r) (row_site r)) t then Raise IntegrityError
  else Ok (t ++ [r]).

Definition insert_xref (t : list xref) (r : xref) : result (list xref) :=
  if existsb (xref_has_key (xref_id r) (xref_site r)) t
  then Raise IntegrityError
  else Ok (t ++ [r]).

(** [update().where(id == .. and site == ..).values(..)]. *)
Definition update_where (t : table) (id : Z) (site : string)
    (values : row → row) : table :=
  map (fun r => if has_key id site r then values r else r) t.

(** [delete().where(id == .. and site == ..)]: the table and [rowcount]. *)
Definition delete_where (t : table) (id : Z) (site : string) : table * Z :=
  (List.filter (fun r => negb (has_key id site r)) t,
   Z.of_nat (length (List.filter (has_key id site) t))).

(** [_table_defs[controler]['type']]. *)
Definition table_types : list (string * string) :=
  [("entities", "simple"); ("fields", "simple"); ("forms", "others");
   ("local_admin_units", "geometry"); ("uuid_xref", "others");
   ("observations", "observation"); ("observers", "simple");
   ("places", "geometry"); ("species", "simple");
   ("taxo_groups", "simple"); ("territorial_units", "simple")].

(** A write task of the worker queue. *)
Record ObservationItem : Type := MkItem {
  item_site : string;
  item_metadata : string;
  item_elem : json;
  item_in_proj : string;
  item_out_proj : string
}.

Inductive store_event : Type :=
| UuidStep (obs_id : json)
| QueuePut (elem : json)
| FormStep (forms_data : json).

(** The tables by controler, [uuid_xref], the worker queue, the number of
    uuids drawn so far and the order of the steps taken. *)
Record db : Type := Db {
  tables : string → table;
  uuid_xref : list xref;
  observations_queue : list ObservationItem;
  uuids_drawn : nat;
  history : list store_event
}.

Definition set_table (d : db) (controler : string) (t : table) : db :=
  Db (fun c => if decide (c = controler) then t else tables d c)
     (uuid_xref d) (observations_queue d) (uuids_drawn d) (history d).

Definition note (d : db) (e : store_event) : db :=
  Db (tables d) (uuid_xref d) (observations_queue d) (uuids_drawn d)
     (history d ++ [e]).

Section Backend.

(** [config.site], [config.db_out_proj]. *)
Variable site : string.
Variable db_out_proj : string.
(** The cast of a bound value to an [Integer] column; [None] when the
    database rejects it. *)
Variable as_integer : json → option Z.
(** [pyproj.transform(in_proj, out_proj, lon, lat)]. *)
Variable transform : string → string → json → json → json * json.
(** [uuid4()], by the number of uuids already drawn, and
    [datetime.now()], by the number of rows of [uuid_xref]. *)
Variable uuid4 : nat → string.
Variable now : nat → Z.

Definition bind_integer (v : json) : result Z :=
  match as_integer v with
  | Some n => Ok n
  | None => Raise DataError
  end.

(** [self._table_defs[controler]['metadata']]: the table, by its
    controler. *)
Definition metadata (controler : string) : result string :=
  match dict_get controler table_types with
  | Some _ => Ok controler
  | None => Raise KeyError
  end.

(** The block "select the row, insert it when absent, update it when
    found", which the source repeats in each of its store paths. *)
Definition upsert (t : table) (of_site : string) (id_value : json)
    (fresh : Z → row) (values : Z → row → row) : result table :=
  id ← bind_integer id_value;
  match select_one t id of_site with
  | None => insert t (fresh id)
  | Some _ => Ok (update_where t id of_site (values id))
  end.

Definition observer (elem : json) : result json :=
  observers ← py_getitem elem "observers";
  py_getitem0 observers.

(** [elem['observers'][0][key] = x]. *)
Definition set_observer (elem : json) (key : string) (x : json)
  : result json :=
  observers ← py_getitem elem "observers";
  match observers with
  | JList (o :: others) =>
      o' ← py_setitem o key x;
      py_setitem elem "observers" (JList (o' :: others))
  | _ => Raise TypeError
  end.

(** The lines of [store_1_observation] before "Store in Postgresql": the
    value bound to [id], the element with its local coordinates and the
    update timestamp. *)
Definition localized (item : ObservationItem) : result (json * json * json) :=
  let elem := item_elem item in
  o ← observer elem;
  _ ← py_getitem o "id_sighting";
  has_update ← py_contains "update_date" o;
  update_date ←
    (if has_update : bool then py_getitem o "update_date"
     else py_getitem o "insert_date");
  lon ← py_getitem o "coord_lon";
  lat ← py_getitem o "coord_lat";
  let xy := transform (item_in_proj item) (item_out_proj item) lon lat in
  elem ← set_observer elem "coord_x_local" xy.1;
  elem ← set_observer elem "coord_y_local" xy.2;
  o ← observer elem;
  id_value ← py_getitem o "id_sighting";
  mret (id_value, elem, update_date).

Definition store_1_observation (item : ObservationItem) (t : table)
  : result table :=
  '(id_value, elem, update_date) ← localized item;
  upsert t (item_site item) id_value
         (fun id => Row id (item_site item) elem (Some update_date))
         (fun _ r => Row (row_id r) (row_site r) elem (Some update_date)).

(** [observation_worker], one worker taking the tasks in queue order. *)
Fixpoint observation_worker (q : list ObservationItem) (d : db)
  : result db :=
  match q with
  | [] => Ok d
  | item :: q' =>
      t ← store_1_observation item (tables d (item_metadata item));
      observation_worker q' (set_table d (item_metadata item) t)
  end.

Definition drain (d : db) : result db :=
  observation_worker (observations_queue d)
    (Db (tables d) (uuid_xref d) [] (uuids_drawn d) (history d)).

(** The loop of [_store_simple]. *)
Fixpoint store_elems (controler : string) (elems : list json) (d : db)
  : result db :=
  match elems with
  | [] => Ok d
  | elem :: rest =>
      name ← metadata controler;
      id_value ← py_getitem elem "id";
      t ← upsert (tables d name) site id_value
                 (fun id => Row id site elem None)
                 (fun id r => Row id site elem (row_update_ts r));
      store_elems controler rest (set_table d name t)
  end.

Definition _store_simple (controler : string) (items_dict : json) (d : db)
  : result (db * Z) :=
  data ← py_getitem items_dict "data";
  n ← py_len data;
  elems ← py_iter data;
  d ← store_elems controler elems d;
  mret (d, n).

Definition add_local_coords (elem : json) : result json :=
  lon ← py_getitem elem "coord_lon";
  lat ← py_getitem elem "coord_lat";
  let xy := transform "epsg:4326" ("epsg:" +:+ db_out_proj) lon lat in
  elem ← py_setitem elem "coord_x_local" xy.1;
  py_setitem elem "coord_y_local" xy.2.

Fixpoint reproject (elems : list json) : result (list json) :=
  match elems with
  | [] => Ok []
  | elem :: rest =>
      elem' ← add_local_coords elem;
      rest' ← reproject rest;
      mret (elem' :: rest')
  end.

Definition _store_geometry (controler : string) (items_dict : json)
    (d : db) : result (db * Z) :=
  data ← py_getitem items_dict "data";
  elems ← py_iter data;
  elems' ← reproject elems;
  items_dict ←
    match data with
    | JList _ => py_setitem items_dict "data" (JList elems')
    | _ => Ok items_dict
    end;
  _store_simple controler items_dict d.

Definition _store_form (items_dict : json) (d : db) : result (db * Z) :=
  _ ← py_len items_dict;
  has_lon ← py_contains "lon" items_dict;
  has_lat ← (if has_lon : bool then py_contains "lat" items_dict
             else Ok false);
  items_dict ←
    (if has_lat : bool then
       lon ← py_getitem items_dict "lon";
       lat ← py_getitem items_dict "lat";
       let xy := transform "epsg:4326" ("epsg:" +:+ db_out_proj) lon lat in
       items_dict ← py_setitem items_dict "coord_x_local" xy.1;
       py_setitem items_dict "coord_y_local" xy.2
     else Ok items_dict);
  id_value ← py_getitem items_dict "@id";
  t ← upsert (tables d "forms") site id_value
             (fun id => Row id site items_dict None)
             (fun id r => Row id site items_dict (row_update_ts r));
  n ← py_len items_dict;
  mret (set_table d "forms" t, n).

Definition _store_uuid (obs_id universal_id : json) (d : db)
  : result (db * Z) :=
  id ← bind_integer obs_id;
  match List.find (xref_has_key id site) (uuid_xref d) with
  | None =>
      t ← insert_xref (uuid_xref d)
            (Xref id site universal_id (uuid4 (uuids_drawn d)) None
                  (now (length (uuid_xref d))));
      mret (Db (tables d) t (observations_queue d) (S (uuids_drawn d))
               (history d),
            1)
  | Some _ => mret (d, 1)
  end.

Definition queue_put (elem : json) (table_name : string) (d : db) : db :=
  note (Db (tables d) (uuid_xref d)
           (observations_queue d ++
            [MkItem site table_name elem "epsg:4326"
                    ("epsg:" +:+ db_out_proj)])
           (uuids_drawn d) (history d))
       (QueuePut elem).

(** [for i in range(0, len(v))]: the values [v[i]]. *)
Definition indexed (v : json) : result (list json) :=
  match v with
  | JList l => Ok l
  | JStr s => Ok (chars s)
  | JDict [] => Ok []
  | JDict _ => Raise KeyError
  | _ => Raise TypeError
  end.

(** The loop on [items_dict['data']['sightings']]. *)
Fixpoint store_sightings (controler : string) (elems : list json)
    (d : db) (nb_obs : Z) : result (db * Z) :=
  match elems with
  | [] => Ok (d, nb_obs)
  | elem :: rest =>
      o ← observer elem;
      obs_id ← py_getitem o "id_sighting";
      universal_id ← py_getitem o "id_universal";
      '(d, _) ← _store_uuid obs_id universal_id (note d (UuidStep obs_id));
      name ← metadata controler;
      store_sightings controler rest (queue_put elem name d) (nb_obs + 1)
  end.

(** The loop on the sightings of one form. *)
Fixpoint put_form_sightings (controler : string) (elems : list json)
    (d : db) (nb_obs : Z) : result (db * Z) :=
  match elems with
  | [] => Ok (d, nb_obs)
  | elem :: rest =>
      name ← metadata controler;
      put_form_sightings controler rest (queue_put elem name d) (nb_obs + 1)
  end.

(** [for (k, v) in items_dict['data']['forms'][f].items()]. *)
Fixpoint split_form (controler : string) (fields : list (string * json))
    (forms_data : list (string * json)) (d : db) (nb_obs : Z)
  : result (list (string * json) * db * Z) :=
  match fields with
  | [] => Ok (forms_data, d, nb_obs)
  | (k, v) :: rest =>
      if decide (k = "sightings") then
        _ ← py_len v;
        elems ← indexed v;
        '(d, nb_obs) ← put_form_sightings controler elems d nb_obs;
        split_form controler rest forms_data d nb_obs
      else
        split_form controler rest (dict_set k v forms_data) d nb_obs
  end.

Fixpoint store_forms (controler : string) (forms : list json) (d : db)
    (nb_obs : Z) : result (db * Z) :=
  match forms with
  | [] => Ok (d, nb_obs)
  | form :: rest =>
      match form with
      | JDict fields =>
          '(forms_data, d, nb_obs) ← split_form controler fields [] d nb_obs;
          '(d, _) ← _store_form (JDict forms_data)
                                (note d (FormStep (JDict forms_data)));
          store_forms controler rest d nb_obs
      | _ => Raise AttributeError
      end
  end.

Definition _store_observation (controler : string) (items_dict : json)
    (d : db) : result (db * Z) :=
  data ← py_getitem items_dict "data";
  sightings ← py_getitem data "sightings";
  _ ← py_len sightings;
  elems ← indexed sightings;
  '(d, nb_obs) ← store_sightings controler elems d 0;
  has_forms ← py_contains "forms" data;
  if has_forms : bool then
    forms ← py_getitem data "forms";
    _ ← py_len forms;
    forms ← indexed forms;
    store_forms controler forms d nb_obs
  else mret (d, nb_obs).

(** [StorePostgresql.store]; the flat-file copy kept by [StoreFile] is
    not part of the database state. *)
Definition store (controler : string) (items_dict : json) (d : db)
  : result (db * Z) :=
  match dict_get controler table_types with
  | None => Raise KeyError
  | Some type =>
      if decide (type = "simple") then _store_simple controler items_dict d
      else if decide (type = "geometry")
           then _store_geometry controler items_dict d
      else if decide (type = "observation")
           then _store_observation controler items_dict d
      else Raise StorePostgresqlException
  end.

(** [delete_obs]: the database and the count of deleted rows. *)
Fixpoint delete_obs (obs_list : list json) (d : db) (nb_delete : Z)
  : result (db * Z) :=
  match obs_list with
  | [] => Ok (d, nb_delete)
  | obs :: rest =>
      id ← bind_integer obs;
      let r := delete_where (tables d "observations") id site in
      delete_obs rest (set_table d "observations" r.1) (nb_delete + r.2)
  end.

End Backend.

(** ** Counting the rows of a key, to state the properties of the store *)

Definition count_key (id : Z) (site : string) (t : table) : nat :=
  length (List.filter (has_key id site) t).

Definition count_xref (id : Z) (site : string) (t : list xref) : nat :=
  length (List.filter (xref_has_key id site) t).

(** ** A backend to run the store paths on given responses *)

Definition plain_cast (v : json) : option Z :=
  match v with
  | JNum n => Some n
  | _ => None
  end.

Definition no_projection (_ _ : string) (lon lat : json) : json * json :=
  (lon, lat).

Definition empty_db : db := Db (fun _ => []) [] [] 0 [].

Definition sighting (id : Z) (update_date : Z) : json :=
  JDict [("observers",
          JList [JDict [("id_sighting", JNum id);
                        ("id_universal", JStr "28_1");
                        ("coord_lon", JNum 5); ("coord_lat", JNum 45);
                        ("update_date", JNum update_date)]])].

Definition place (id : Z) (name : string) : json :=
  JDict [("id", JNum id); ("name", JStr name);
         ("coord_lon", JNum 5); ("coord_lat", JNum 45)].

(** [elem] after [store_1_observation] gave it the coordinates returned by
    [no_projection]. *)
Definition no_projection_of (elem : json) : json :=
  match localized no_projection (MkItem "" "" elem "" "") with
  | Ok (_, elem, _) => elem
  | Raise _ => elem
  end.

End Store.

(* ===================================================================== *)
(** * export_vn/download_vn.py: the list of taxo groups *)
(* ===================================================================== *)

Module DownloadMore.
Import Download.

(** The loop of [_list_taxo_groups] on [taxo_groups['data']]: the ids of
    the groups whose [access_mode] is not ['none']; the debug line reads
    [taxo['id']] and [taxo['name']]. *)
Fixpoint list_active (taxos : list json) (taxo_list : list json)
  : result (list json) :=
  match taxos with
  | [] => Ok taxo_list
  | taxo :: rest =>
      mode ← py_getitem taxo "access_mode";
      if is_str "none" mode then list_active rest taxo_list
      else
        id ← py_getitem taxo "id";
        _ ← py_getitem taxo "name";
        id ← py_getitem taxo "id";
        list_active rest (taxo_list ++ [id])
  end.

(** [_list_taxo_groups(id_taxo_group)], given what
    [TaxoGroupsAPI.api_list()] returns; [None] is [JNull]. *)
Definition _list_taxo_groups (api_list : result json) (id_taxo_group : json)
  : result (list json) :=
  match id_taxo_group with
  | JNull =>
      taxo_groups ← api_list;
      data ← py_getitem taxo_groups "data";
      taxos ← py_iter data;
      list_active taxos []
  | JList l => Ok l
  | _ => Ok [id_taxo_group]
  end.

(** A taxo group with its three keys, and whether it is active. *)
Definition taxo_entry (taxo : json) : option (json * bool) :=
  match py_getitem taxo "access_mode", py_getitem taxo "id",
        py_getitem taxo "name" with
  | Ok mode, Ok id, Ok _ => Some (id, negb (is_str "none" mode))
  | _, _, _ => None
  end.

Definition active_id (taxo : json) : option json :=
  match taxo_entry taxo with
  | Some (id, true) => Some id
  | _ => None
  end.

(** The windows carry the numbers 1, 2, 3, ... in the order they were
    issued. *)
Definition numbered (ws : list window) : Prop :=
  ∀ (i : nat) w, ws !! i = Some w → win_seq w = Z.of_nat i + 1.

(** The count [backend.store] returned for the window, when the search and
    the store of the window did not raise. *)
Definition stored_count (search_and_store : Z → Z → Z → result Z)
    (w : window) : option Z :=
  match search_and_store (date_from w) (date_to w) (win_seq w) with
  | Ok nb_obs => Some nb_obs
  | Raise _ => None
  end.

(** The regulator and [delta_days] after the windows [ws]: the last line
    of the loop body, [delta_days = int(pid(nb_obs))], repeated from the
    state the loop starts in, 15 days, with the counts the stores of the
    windows returned. *)
Definition regulated {pid : Type} (pid_call : pid → Z → pid * Q)
    (search_and_store : Z → Z → Z → result Z) (pid0 : pid)
    (ws : list window) : pid * Z :=
  fold_left (regulate pid_call) (omap (stored_count search_and_store) ws)
            (pid0, 15).

(** Each window is as wide as the regulator said after the windows before
    it. *)
Definition widths_regulated {pid : Type} (pid_call : pid → Z → pid * Q)
    (search_and_store : Z → Z → Z → result Z) (pid0 : pid)
    (ws : list window) : Prop :=
  ∀ (i : nat) w, ws !! i = Some w →
    win_days w = (regulated pid_call search_and_store pid0 (take i ws)).2.

End DownloadMore.

(* ===================================================================== *)
(** * export_vn/store_postgresql.py: the logs *)
(* ===================================================================== *)

Module StoreMore.
Import Store.

(** A row of [increment_log]: [taxo_group], [site] and [last_ts]; the
    serial [id] is the place of the row in the list.  The table has no
    constraint on [(taxo_group, site)]. *)
Record increment : Type := Increment {
  inc_taxo_group : Z;
  inc_site : string;
  inc_last_ts : Z
}.

Definition inc_has (taxo_group : Z) (site : string) (r : increment) : bool :=
  bool_decide (inc_taxo_group r = taxo_group ∧ inc_site r = site).

Section Logs.

Variable as_integer : json → option Z.

(** [increment_log(site, taxo_group, last_ts)]. *)
Definition increment_log (t : list increment) (site : string)
    (taxo_group : json) (last_ts : Z) : result (list increment) :=
  taxo ← bind_integer as_integer taxo_group;
  match List.find (inc_has taxo site) t with
  | None => Ok (t ++ [Increment taxo site last_ts])
  | Some _ =>
      Ok (map (fun r => if inc_has taxo site r
                        then Increment taxo site last_ts else r) t)
  end.

(** [increment_get(site, taxo_group)]: [row[0]] of the first row, or
    [None]. *)
Definition increment_get (t : list increment) (site : string)
    (taxo_group : json) : result (option Z) :=
  taxo ← bind_integer as_integer taxo_group;
  mret (option_map inc_last_ts (List.find (inc_has taxo site) t)).

End Logs.

(** ** Vocabulary for the properties of the store *)

(** The primary key holds: no key has two rows. *)
Definition unique_keys (t : table) : Prop :=
  ∀ id site, (count_key id site t <= 1)%nat.

(** The rows of every key other than [(id, site)] are the same, in the
    same order. *)
Definition same_other_rows (id : Z) (site : string) (t t' : table) : Prop :=
  ∀ id' site', (id', site') ≠ (id, site) →
    List.filter (has_key id' site') t' = List.filter (has_key id' site') t.

(** What [_store_observation] may do to the database: append identity
    rows, put [nb' - nb] tasks on the queue, write the forms table. *)
Definition produced (d : db) (nb : Z) (d' : db) (nb' : Z) : Prop :=
  (∃ rows, uuid_xref d' = uuid_xref d ++ rows) ∧
  (∃ tasks, observations_queue d' = observations_queue d ++ tasks ∧
            Z.of_nat (length tasks) = nb' - nb) ∧
  (∀ c, c ≠ "forms" → tables d' c = tables d c).

(** The record carries an [id] the database takes as an integer. *)
Definition castable (as_integer : json → option Z) (elem : json) : Prop :=
  ∃ v id, py_getitem elem "id" = Ok v ∧ as_integer v = Some id.

(** The key [(id, site)] of the record has one row in [t]. *)
Definition stored_once (as_integer : json → option Z) (site : string)
    (t : table) (elem : json) : Prop :=
  ∀ v id, py_getitem elem "id" = Ok v → as_integer v = Some id →
          count_key id site t = 1%nat.

(** The worker can store the task: its element has the fields
    [store_1_observation] reads, with an [id_sighting] the database takes
    as an integer. *)
Definition storable (as_integer : json → option Z)
    (transform : string → string → json → json → json * json)
    (item : ObservationItem) : Prop :=
  ∃ v elem ts id,
    localized transform item = Ok (v, elem, ts) ∧ as_integer v = Some id.

(** The key of the task has one row in the table the task names. *)
Definition task_stored_once (as_integer : json → option Z)
    (transform : string → string → json → json → json * json)
    (d : db) (item : ObservationItem) : Prop :=
  ∀ v elem ts id,
    localized transform item = Ok (v, elem, ts) → as_integer v = Some id →
    count_key id (item_site item) (tables d (item_metadata item)) = 1%nat.

(** No key has two identity rows. *)
Definition unique_xrefs (t : list xref) : Prop :=
  ∀ id site, (count_xref id site t <= 1)%nat.

(** The task [_store_observation] makes of a sighting. *)
Definition task_of (site db_out_proj controler : string) (elem : json)
  : ObservationItem :=
  MkItem site controler elem "epsg:4326" ("epsg:" +:+ db_out_proj).

(** A sighting that has what the producer and the worker read:
    [observers[0]] with [id_sighting], [id_universal], a date and the
    coordinates. *)
Definition complete_sighting (site db_out_proj : string)
    (as_integer : json → option Z)
    (transform : string → string → json → json → json * json)
    (controler : string) (elem : json) : Prop :=
  storable as_integer transform (task_of site db_out_proj controler elem) ∧
  ∃ o universal_id,
    observer elem = Ok o ∧ py_getitem o "id_universal" = Ok universal_id.

(** The sighting has one observation row and one identity row. *)
Definition sighting_in_database (site : string)
    (as_integer : json → option Z) (controler : string) (d : db)
    (elem : json) : Prop :=
  ∃ o obs_id id,
    observer elem = Ok o ∧ py_getitem o "id_sighting" = Ok obs_id ∧
    as_integer obs_id = Some id ∧
    count_key id site (tables d controler) = 1%nat ∧
    count_xref id site (uuid_xref d) = 1%nat.

(** The sightings a form carries under its key [sightings]. *)
Definition form_sightings (fields : list (string * json)) : list json :=
  match dict_get "sightings" fields with
  | Some (JList obs) => obs
  | _ => []
  end.

(** The keys [_store_observation] and [_store_form] take from or add to a
    form. *)
Definition form_key_kept (k : string) : Prop :=
  k ≠ "sightings" ∧ k ≠ "coord_x_local" ∧ k ≠ "coord_y_local".

(** The [id] of a record, as the database takes it. *)
Definition record_id (as_integer : json → option Z) (elem : json)
  : option Z :=
  match py_getitem elem "id" with
  | Ok v => as_integer v
  | Raise _ => None
  end.

(** A record with an [id] and the two coordinates [_store_geometry]
    reads. *)
Definition located_record (as_integer : json → option Z) (elem : json)
  : Prop :=
  is_Some (record_id as_integer elem) ∧
  ∃ lon lat,
    py_getitem elem "coord_lon" = Ok lon ∧
    py_getitem elem "coord_lat" = Ok lat.

(** The row of the record in [t] carries the record with its local
    coordinates. *)
Definition place_stored (site db_out_proj : string)
    (as_integer : json → option Z)
    (transform : string → string → json → json → json * json)
    (t : table) (elem : json) : Prop :=
  ∃ id r lon lat,
    record_id as_integer elem = Some id ∧
    select_one t id site = Some r ∧
    py_getitem elem "coord_lon" = Ok lon ∧
    py_getitem elem "coord_lat" = Ok lat ∧
    let xy := transform "epsg:4326" ("epsg:" +:+ db_out_proj) lon lat in
    py_getitem (row_item r) "coord_x_local" = Ok xy.1 ∧
    py_getitem (row_item r) "coord_y_local" = Ok xy.2 ∧
    ∀ k, k ≠ "coord_x_local" → k ≠ "coord_y_local" →
         py_getitem (row_item r) k = py_getitem elem k.

End StoreMore.

(* ===================================================================== *)
(** * Properties *)
(* ===================================================================== *)

Section DictFacts.
Context {V : Type}.
Implicit Types (d : list (string * V)) (k : string) (v : V).

Lemma dict_get_set_eq d k v : dict_get k (dict_set k v d) = Some v.
Proof.
  induction d as [|[k' v'] d IH]; simpl.
  - by rewrite decide_True.
  - destruct (decide (k = k')); simpl.
    + by rewrite decide_True.
    + by rewrite decide_False.
Qed.

Lemma dict_get_set_ne d k k' v :
  k' ≠ k → dict_get k' (dict_set k v d) = dict_get k' d.
Proof.
  intros Hne. induction d as [|[k0 v0] d IH]; simpl.
  - by rewrite decide_False.
  - destruct (decide (k = k0)) as [->|]; simpl.
    + by rewrite !decide_False.
    + by rewrite IH.
Qed.

End DictFacts.

Module ApiFacts.
Import Api.

(** ** [_clean_params] *)

Lemma clean_params_value (h : heap) (r : nat) (p : params) :
  h !! r = Some p →
  _clean_params h r =
    Ok (h ++ [dict_set "user_pw" "***" (dict_set "user_email" "***" p)],
        length h).
Proof.
  intros Hr. unfold _clean_params, copy, setitem. rewrite Hr. simpl.
  rewrite lookup_app_r by lia. rewrite Nat.sub_diag. simpl.
  rewrite insert_app_r_alt by lia. rewrite Nat.sub_diag. simpl.
  rewrite lookup_app_r by lia. rewrite Nat.sub_diag. simpl.
  rewrite insert_app_r_alt by lia. rewrite Nat.sub_diag. simpl.
  reflexivity.
Qed.

(** [_clean_params] returns a new dict object in which [user_email] and
    [user_pw] are ["***"] and every other entry is the entry of [params];
    the dict object [params] refers to, and every other object of the heap,
    is left as it was.  What the log receives is in [ApiLogFacts]. *)
Lemma clean_params_masks_a_copy (h : heap) (r : nat) (p : params) :
  h !! r = Some p →
  ∃ h' c p',
    _clean_params h r = Ok (h', c) ∧
    c ≠ r ∧
    h' !! c = Some p' ∧
    dict_get "user_email" p' = Some "***" ∧
    dict_get "user_pw" p' = Some "***" ∧
    (∀ k, k ≠ "user_email" → k ≠ "user_pw" → dict_get k p' = dict_get k p) ∧
    h' !! r = Some p ∧
    (∀ r', (r' < length h)%nat → h' !! r' = h !! r').
Proof.
  intros Hr.
  pose proof (lookup_lt_Some _ _ _ Hr) as Hlt.
  eexists _, _, _. split; [by apply clean_params_value|].
  split; [lia|]. split.
  { rewrite lookup_app_r by lia. by rewrite Nat.sub_diag. }
  split.
  { rewrite dict_get_set_ne by done. apply dict_get_set_eq. }
  split; [apply dict_get_set_eq|].
  split.
  { intros k H1 H2. by rewrite !dict_get_set_ne. }
  split.
  - by rewrite lookup_app_l.
  - intros r' Hr'. by rewrite lookup_app_l.
Qed.

Example clean_params_masks_a_copy_example :
  ∃ h' c p',
    _clean_params [[("user_email", "a@b.c"); ("user_pw", "secret");
                    ("id_taxo_group", "1")]] 0 = Ok (h', c) ∧
    c ≠ 0%nat ∧
    h' !! c = Some p' ∧
    dict_get "user_email" p' = Some "***" ∧
    dict_get "user_pw" p' = Some "***" ∧
    (∀ k, k ≠ "user_email" → k ≠ "user_pw" →
          dict_get k p' =
          dict_get k [("user_email", "a@b.c"); ("user_pw", "secret");
                      ("id_taxo_group", "1")]) ∧
    h' !! 0%nat = Some [("user_email", "a@b.c"); ("user_pw", "secret");
                        ("id_taxo_group", "1")] ∧
    (∀ r', (r' < 1)%nat →
           h' !! r' = [[("user_email", "a@b.c"); ("user_pw", "secret");
                        ("id_taxo_group", "1")]] !! r').
Proof.
  apply (clean_params_masks_a_copy
           [[("user_email", "a@b.c"); ("user_pw", "secret");
             ("id_taxo_group", "1")]] 0).
  reflexivity.
Defined.

(** ** The error budget of [_url_get] *)

Lemma retried_nil (c : client) :
  retried c [] =
  Client (transfer_errors c + 0) (http_status c) (cur_params c) (nb_chunks c)
         (data_rec c) (trace c ++ []).
Proof. reflexivity. Qed.

Lemma last_cons_default {A} (l : list A) (x d : A) :
  List.last (x :: l) d = List.last l x.
Proof.
  revert x d. induction l as [|y l IH]; intros x d; [reflexivity|].
  change (List.last (x :: y :: l) d) with (List.last (y :: l) d).
  rewrite (IH y d), (IH y x). reflexivity.
Qed.

Lemma retried_app (c : client) (a b : list response) :
  retried (retried c a) b = retried c (a ++ b).
Proof.
  unfold retried; simpl. f_equal.
  - rewrite length_app. lia.
  - rewrite map_app. induction a as [|x a IH]; [reflexivity|].
    simpl map. rewrite <- app_comm_cons, !last_cons_default.
    clear IH. revert x. induction a as [|y a IH]; intros x; [reflexivity|].
    simpl map. rewrite <- app_comm_cons, !last_cons_default. apply IH.
  - rewrite map_app, concat_app, app_assoc. reflexivity.
Qed.

Lemma loop_retry lim method resp script c :
  supported method →
  nb_chunks c < max_chunks lim →
  status_code resp ≠ 200 →
  transfer_errors c + 1 <= max_retry lim →
  url_get_loop lim method (resp :: script) c =
  url_get_loop lim method script (retried c [resp]).
Proof.
  intros Hm Hnb Hst Herr. simpl.
  rewrite decide_True by done.
  destruct method; [| |done];
    (rewrite decide_True by done; rewrite decide_False by lia; reflexivity).
Qed.

Lemma loop_raise lim method resp script c :
  supported method →
  nb_chunks c < max_chunks lim →
  status_code resp ≠ 200 →
  max_retry lim < transfer_errors c + 1 →
  url_get_loop lim method (resp :: script) c =
  Done (Raise (HTTPError (JNum (status_code resp)))) (retried c [resp]).
Proof.
  intros Hm Hnb Hst Herr. simpl.
  rewrite decide_True by done.
  destruct method; [| |done];
    (rewrite decide_True by done; rewrite decide_True by lia; reflexivity).
Qed.

Lemma loop_retries lim method fails : ∀ script c,
  supported method →
  nb_chunks c < max_chunks lim →
  Forall (fun r => status_code r ≠ 200) fails →
  transfer_errors c + Z.of_nat (length fails) <= max_retry lim →
  url_get_loop lim method (fails ++ script) c =
  url_get_loop lim method script (retried c fails).
Proof.
  induction fails as [|resp fails IH]; intros script c Hm Hnb Hall Herr.
  - rewrite retried_nil, Z.add_0_r, app_nil_r. by destruct c.
  - apply Forall_cons in Hall as [Hst Hall].
    rewrite length_cons in Herr.
    rewrite <- app_comm_cons, loop_retry by (done || lia).
    rewrite IH, retried_app; try done.
    simpl. lia.
Qed.

(** C1: a fresh client with [max_retry = R] tolerates exactly [R] responses
    whose status is not 200.  Each of them adds one to [transfer_errors],
    sleeps once and is followed by a request with the same parameters, the
    chunk counter and the accumulator being left as they were ([retried]);
    the loop then goes on with the rest of the script.  One more such
    response raises [HTTPError] with the status code of that response. *)
Theorem error_budget_is_max_retry lim method (p : params)
    (fails : list response) (last_fail : response) :
  supported method →
  0 < max_chunks lim →
  max_retry lim = Z.of_nat (length fails) →
  Forall (fun r => status_code r ≠ 200) fails →
  status_code last_fail ≠ 200 →
  (∀ script,
     _url_get lim method (fails ++ script) (fresh_client p) =
     url_get_loop lim method script (retried (fresh_client p) fails)) ∧
  transfer_errors (retried (fresh_client p) fails) = max_retry lim ∧
  (∀ script,
     _url_get lim method (fails ++ last_fail :: script) (fresh_client p) =
     Done (Raise (HTTPError (JNum (status_code last_fail))))
          (retried (fresh_client p) (fails ++ [last_fail]))) ∧
  http_status (retried (fresh_client p) (fails ++ [last_fail])) =
    status_code last_fail.
Proof.
  intros Hm Hch HR Hall Hlast.
  assert (Hgo : ∀ script,
     _url_get lim method (fails ++ script) (fresh_client p) =
     url_get_loop lim method script (retried (fresh_client p) fails)).
  { intros script. unfold _url_get. simpl.
    apply loop_retries; simpl; try done. lia. }
  split; [exact Hgo|]. split; [simpl; lia|]. split.
  - intros script. rewrite Hgo.
    rewrite loop_raise; simpl; try done; try lia.
    change (Client (0 + Z.of_nat (length fails))
                   (List.last (map status_code fails) 0) p 0 None
                   ([] ++ concat (map (fun _ => [EvRequest p; EvSleep]) fails)))
      with (retried (fresh_client p) fails).
    f_equal. apply retried_app.
  - simpl. rewrite map_app. simpl. apply last_last.
Qed.

(** ** Merging the chunks *)

Lemma merge_seed k (items : list json) (acc : option json) :
  plain k items →
  merge_chunk 0 acc (mk_chunk k items) = Ok (Some (mk_chunk k items)).
Proof.
  destruct k; simpl; intros Hp.
  - reflexivity.
  - reflexivity.
  - destruct Hp as [Hs Hf]. unfold merge_chunk, merge_observations. simpl.
    rewrite Hs, Hf. reflexivity.
  - unfold merge_chunk. simpl. rewrite Hp. reflexivity.
Qed.

Lemma merge_append k (n : Z) (acc items : list json) :
  n ≠ 0 →
  plain k items →
  merge_chunk n (Some (mk_chunk k acc)) (mk_chunk k items) =
  Ok (Some (mk_chunk k (acc ++ items))).
Proof.
  intros Hn Hp.
  destruct k; simpl in Hp; unfold merge_chunk, merge_observations; simpl.
  - rewrite decide_False by done. reflexivity.
  - rewrite decide_False by done. reflexivity.
  - destruct Hp as [Hs Hf]. rewrite Hs, Hf. simpl.
    rewrite decide_False by done. reflexivity.
  - rewrite Hp. simpl. rewrite decide_False by done. reflexivity.
Qed.

(** ** Following the pagination *)

Lemma merge_so_far k (c : client) (acc items : list json) :
  merged_so_far k c acc →
  plain k items →
  merge_chunk (nb_chunks c) (data_rec c) (mk_chunk k items) =
  Ok (Some (mk_chunk k (acc ++ items))).
Proof.
  intros (Hge & H0 & Hn) Hp.
  destruct (decide (nb_chunks c = 0)) as [Hz|Hz].
  - rewrite Hz, (H0 Hz). by apply merge_seed.
  - rewrite (Hn Hz). by apply merge_append.
Qed.

Lemma loop_page lim method k page script c acc :
  supported method →
  nb_chunks c < max_chunks lim →
  merged_so_far k c acc →
  plain k page.1 →
  url_get_loop lim method (continued k page :: script) c =
  url_get_loop lim method script (turn_page k c acc page).
Proof.
  intros Hm Hnb Hacc Hp. simpl.
  rewrite decide_True by done.
  destruct method; [| |done];
    (rewrite (merge_so_far k c acc) by done; reflexivity).
Qed.

Lemma turn_page_merged k c acc page :
  merged_so_far k c acc →
  merged_so_far k (turn_page k c acc page) (acc ++ page.1).
Proof.
  intros (Hge & _ & _). unfold merged_so_far; simpl.
  split; [lia|]. split; [lia|]. done.
Qed.

Lemma count_requests_snoc tr p :
  count_requests (tr ++ [EvRequest p]) = count_requests tr + 1.
Proof.
  unfold count_requests. rewrite List.filter_app, length_app. simpl. lia.
Qed.

Lemma loop_pages lim method k pages : ∀ script c acc,
  supported method →
  nb_chunks c + Z.of_nat (length pages) <= max_chunks lim →
  merged_so_far k c acc →
  Forall (fun page => plain k page.1) pages →
  ∃ c',
    url_get_loop lim method (map (continued k) pages ++ script) c =
    url_get_loop lim method script c' ∧
    nb_chunks c' = nb_chunks c + Z.of_nat (length pages) ∧
    merged_so_far k c' (acc ++ concat (map fst pages)) ∧
    transfer_errors c' = transfer_errors c ∧
    count_requests (trace c') =
      count_requests (trace c) + Z.of_nat (length pages).
Proof.
  induction pages as [|page pages IH]; intros script c acc Hm Hnb Hacc Hall.
  - exists c. simpl. rewrite app_nil_r, !Z.add_0_r. done.
  - apply Forall_cons in Hall as [Hp Hall]. rewrite length_cons in Hnb.
    simpl map. rewrite <- app_comm_cons.
    rewrite (loop_page lim method k page _ c acc) by (done || lia).
    destruct (IH script (turn_page k c acc page) (acc ++ page.1))
      as (c' & Heq & Hn & Hacc' & Herr & Hreq);
      [done|simpl; lia|by apply turn_page_merged|done|].
    exists c'. split; [done|]. simpl in *.
    rewrite count_requests_snoc in Hreq.
    split; [lia|]. split; [by rewrite <- app_assoc in Hacc'|].
    split; [done|lia].
Qed.

Lemma fresh_merged k lim method script (p : params) :
  _url_get lim method script (fresh_client p) =
  url_get_loop lim method script (fresh_client p) ∧
  merged_so_far k (fresh_client p) [].
Proof. split; [reflexivity|]. unfold merged_so_far; simpl. done. Qed.

(** C2: when every response is a success that signals continuation with a
    pagination key, the loop raises [MaxChunksError] after it has requested
    and merged exactly [max_chunks] chunks; after any smaller number of
    chunks it has raised nothing and is issuing one more request. *)
Theorem max_chunks_error_at_the_ceiling lim method (p : params) k
    (pages : list (list json * string)) (rest : list response) :
  supported method →
  Z.of_nat (length pages) = max_chunks lim →
  Forall (fun page => plain k page.1) pages →
  (∃ c,
     _url_get lim method (map (continued k) pages ++ rest) (fresh_client p) =
     Done (Raise MaxChunksError) c ∧
     nb_chunks c = max_chunks lim ∧
     count_requests (trace c) = max_chunks lim) ∧
  (∀ n, (n < length pages)%nat →
     ∃ c,
       _url_get lim method (map (continued k) (take n pages)) (fresh_client p) =
       Starved c ∧
       nb_chunks c = Z.of_nat n ∧
       count_requests (trace c) = Z.of_nat n + 1).
Proof.
  intros Hm Hlen Hall. split.
  - destruct (fresh_merged k lim method (map (continued k) pages ++ rest) p)
      as [-> Hacc].
    destruct (loop_pages lim method k pages rest (fresh_client p) [])
      as (c & Heq & Hn & _ & _ & Hreq); [done|simpl; lia|done|done|].
    exists c. simpl in Hn, Hreq. rewrite Heq.
    split; [|split; [lia|unfold count_requests in *; simpl in *; lia]].
    destruct rest; simpl; rewrite decide_False by lia;
      unfold after_loop; rewrite decide_True by lia; reflexivity.
  - intros n Hn.
    destruct (fresh_merged k lim method (map (continued k) (take n pages)) p)
      as [-> Hacc].
    assert (Htake : length (take n pages) = n) by (rewrite length_take; lia).
    destruct (loop_pages lim method k (take n pages) [] (fresh_client p) [])
      as (c & Heq & Hnb & _ & _ & Hreq);
      [done|simpl; lia|done|by apply Forall_take|].
    rewrite app_nil_r in Heq. rewrite Heq, Htake in *. simpl in Hnb, Hreq.
    eexists. split.
    + simpl. rewrite decide_True by lia. destruct method; [| |done]; reflexivity.
    + simpl. rewrite count_requests_snoc.
      unfold count_requests in *; simpl in *. split; lia.
Qed.

(** At the first chunk every branch of the merge binds the accumulator to
    the decoded chunk itself. *)
Lemma merge_first_chunk (acc : option json) (resp_chunk : json)
    (r : option json) :
  merge_chunk 0 acc resp_chunk = Ok r → r = Some resp_chunk.
Proof.
  unfold merge_chunk, merge_observations.
  destruct (py_contains "data" resp_chunk) as [[|]|]; simpl; [| |done].
  - destruct (py_getitem resp_chunk "data") as [chunk_data|]; simpl; [|done].
    destruct (py_contains "sightings" chunk_data) as [[|]|]; simpl; [| |done].
    + destruct (py_getitem chunk_data "sightings") as [items|]; simpl; [|done].
      destruct (py_len items); simpl; [|done].
      destruct (py_contains "forms" chunk_data) as [[|]|]; simpl; [| |done].
      * destruct (py_getitem chunk_data "forms") as [fs|]; simpl; [|done].
        destruct (py_len fs); simpl; [|done]. by intros [= <-].
      * by intros [= <-].
    + destruct (py_contains "forms" chunk_data) as [[|]|]; simpl; [| |done].
      * destruct (py_getitem chunk_data "forms") as [fs|]; simpl; [|done].
        destruct (py_len fs); simpl; [|done]. by intros [= <-].
      * destruct (py_len resp_chunk); simpl; [|done]. by intros [= <-].
  - destruct (py_len resp_chunk); simpl; [|done]. by intros [= <-].
Qed.

(** ** Merging chunks of any shape *)

(** One turn of the loop on a successful response whose chunk the merge
    accepts. *)
Lemma loop_merges lim method (resp : response) (script : list response)
    (c : client) (chunk : json) (acc : option json) :
  supported method →
  nb_chunks c < max_chunks lim →
  status_code resp = 200 →
  body resp = Some chunk →
  merge_chunk (nb_chunks c) (data_rec c) chunk = Ok acc →
  url_get_loop lim method (resp :: script) c =
  match more_to_come resp with
  | Some key =>
      url_get_loop lim method script
        (Client (transfer_errors c) 200
                (dict_set "pagination_key" key (cur_params c))
                (nb_chunks c + 1) acc
                (trace c ++ [EvRequest (cur_params c)]))
  | None =>
      after_loop lim
        (Client (transfer_errors c) 200
                (dict_del "pagination_key" (cur_params c))
                (nb_chunks c) acc
                (trace c ++ [EvRequest (cur_params c)]))
  end.
Proof.
  intros Hm Hnb Hst Hbody Hmerge.
  destruct resp as [st bd te pk]. simpl in Hst, Hbody. subst st bd.
  simpl. rewrite decide_True by done.
  destruct method; [| |done]; (rewrite Hmerge; reflexivity).
Qed.

(** The loop on a script of chunks that signal continuation and a last
    one that does not: it returns what the merge of the chunks gives. *)
Lemma loop_chunks lim method (pages : list (json * string)) (fin : response)
    (last : json) : ∀ (c : client) (rec : option json),
  supported method →
  nb_chunks c + Z.of_nat (length pages) < max_chunks lim →
  status_code fin = 200 →
  body fin = Some last →
  more_to_come fin = None →
  merge_from (nb_chunks c) (data_rec c) (map fst pages ++ [last]) = Ok rec →
  ∃ c',
    url_get_loop lim method (map continued_chunk pages ++ [fin]) c =
      Done (bound rec) c' ∧
    transfer_errors c' = transfer_errors c.
Proof.
  induction pages as [|page pages IH];
    intros c rec Hm Hnb Hst Hbody Hmore Hrun; simpl in Hrun.
  - simpl in Hnb.
    destruct (merge_chunk (nb_chunks c) (data_rec c) last) as [acc|e]
      eqn:Hmerge; simpl in Hrun; [|done].
    injection Hrun as <-.
    change (map continued_chunk [] ++ [fin]) with [fin].
    rewrite (loop_merges lim method fin [] c last acc) by (done || lia).
    rewrite Hmore. unfold after_loop. simpl.
    rewrite decide_False by lia. by eexists.
  - rewrite length_cons in Hnb.
    destruct (merge_chunk (nb_chunks c) (data_rec c) page.1) as [acc|e]
      eqn:Hmerge; simpl in Hrun; [|done].
    change (map continued_chunk (page :: pages) ++ [fin])
      with (continued_chunk page :: (map continued_chunk pages ++ [fin])).
    rewrite (loop_merges lim method (continued_chunk page) _ c page.1 acc)
      by (done || lia).
    change (more_to_come (continued_chunk page)) with (Some page.2).
    destruct (IH (Client (transfer_errors c) 200
                         (dict_set "pagination_key" page.2 (cur_params c))
                         (nb_chunks c + 1) acc
                         (trace c ++ [EvRequest (cur_params c)])) rec)
      as (c' & Hloop & Herr); simpl; try done; try lia.
    by exists c'.
Qed.

Lemma concat_named_snoc (key : string) (chunks : list json) (chunk : json) :
  concat_named key (chunks ++ [chunk]) =
  match named_list key chunk with
  | Some l =>
      Some (JList (match concat_named key chunks with
                   | Some (JList a) => a
                   | _ => []
                   end ++ l))
  | None => concat_named key chunks
  end.
Proof.
  unfold concat_named. rewrite omap_app. simpl.
  destruct (named_list key chunk) as [l|]; simpl.
  - destruct (omap (named_list key) chunks) as [|l0 ls]; simpl.
    + by rewrite app_nil_r.
    + rewrite concat_app. simpl. by rewrite app_nil_r, app_assoc.
  - by rewrite app_nil_r.
Qed.

Lemma named_list_dict (key : string) (top d : list (string * json)) :
  dict_get "data" top = Some (JDict d) →
  named_list key (JDict top) =
  match dict_get key d with
  | Some (JList l) => Some l
  | _ => None
  end.
Proof. intros H. unfold named_list. simpl. by rewrite H. Qed.

Lemma add_named_same (key : string) (chunk : json)
    (d : list (string * json)) :
  dict_get key (add_named key chunk d) =
  match named_list key chunk with
  | Some l =>
      Some (JList (match dict_get key d with
                   | Some (JList a) => a
                   | _ => []
                   end ++ l))
  | None => dict_get key d
  end.
Proof.
  unfold add_named. destruct (named_list key chunk); [|done].
  apply dict_get_set_eq.
Qed.

Lemma add_named_other (key k : string) (chunk : json)
    (d : list (string * json)) :
  k ≠ key → dict_get k (add_named key chunk d) = dict_get k d.
Proof.
  intros Hne. unfold add_named. destruct (named_list key chunk); [|done].
  by apply dict_get_set_ne.
Qed.

Lemma add_named_keeps (key k : string) (chunk : json)
    (d : list (string * json)) :
  list_or_absent k d → list_or_absent k (add_named key chunk d).
Proof.
  unfold list_or_absent. intros H.
  destruct (decide (k = key)) as [->|Hne].
  - rewrite add_named_same. by destruct (named_list key chunk).
  - by rewrite add_named_other.
Qed.

(** One of the two blocks of the merge on a later chunk: the list of the
    chunk goes after the list of the accumulator, or is set when the
    accumulator has none. *)
Lemma merge_observations_named (key : string) (n : Z) (b : bool)
    (top d topc dc : list (string * json)) :
  n ≠ 0 →
  dict_get "data" topc = Some (JDict dc) →
  list_or_absent key dc →
  dict_get "data" top = Some (JDict d) →
  list_or_absent key d →
  ∃ top',
    merge_observations key n (JDict topc) (b, Some (JDict top)) =
      Ok (b || dict_mem key dc, Some (JDict top')) ∧
    dict_get "data" top' = Some (JDict (add_named key (JDict topc) d)) ∧
    (∀ k, k ≠ "data" → dict_get k top' = dict_get k top).
Proof.
  intros Hn Hdc Hkc Hd Hk.
  unfold merge_observations, add_named.
  rewrite (named_list_dict key topc dc Hdc).
  simpl. rewrite Hdc. simpl. unfold dict_mem, list_or_absent in *.
  destruct (dict_get key dc) as [v|] eqn:Hv; simpl.
  - destruct v as [| | | |l|]; try done. simpl.
    rewrite decide_False by done. simpl.
    unfold append_under_data. simpl. rewrite Hd. simpl. unfold dict_mem.
    destruct (dict_get key d) as [w|] eqn:Hw; simpl.
    + destruct w as [| | | |a|]; try done. simpl.
      rewrite Hdc. simpl. rewrite Hv. simpl.
      eexists. split; [by rewrite orb_true_r|].
      split; [by rewrite dict_get_set_eq|].
      intros k Hk'. by rewrite dict_get_set_ne.
    + rewrite Hdc. simpl. rewrite Hv. simpl.
      eexists. split; [by rewrite orb_true_r|].
      split; [by rewrite dict_get_set_eq|].
      intros k Hk'. by rewrite dict_get_set_ne.
  - exists top. rewrite orb_false_r. by repeat split.
Qed.

Lemma merge_first (fam : family) (chunk : json) :
  shaped fam chunk →
  merge_chunk 0 None chunk = Ok (Some chunk) ∧ merged fam [chunk] chunk.
Proof.
  destruct fam; simpl.
  - intros (top & d & -> & Hd & Hs & Hf & Hany). split.
    + unfold merge_chunk, merge_observations. simpl. unfold dict_mem.
      rewrite Hd. simpl. unfold dict_mem, list_or_absent in *.
      destruct (dict_get "sightings" d) as [[| | | |ls|]|] eqn:Es; try done;
        destruct (dict_get "forms" d) as [[| | | |lf|]|] eqn:Ef; try done;
        simpl; try reflexivity;
        destruct Hany as [H|H]; by apply bool_decide_eq_true in H as [? ?].
    + exists top, d, top, d. unfold concat_named. simpl.
      rewrite !(named_list_dict _ top d Hd).
      unfold list_or_absent in *.
      repeat split; try done.
      * by destruct (dict_get "sightings" d) as [[| | | |ls|]|];
          simpl; rewrite ?app_nil_r.
      * by destruct (dict_get "forms" d) as [[| | | |lf|]|];
          simpl; rewrite ?app_nil_r.
  - intros (top & l & -> & Hd & Hs & Hf). split.
    + unfold merge_chunk, merge_observations. simpl. unfold dict_mem.
      rewrite Hd. simpl. by rewrite Hs, Hf.
    + exists top, top. unfold data_list. simpl. rewrite Hd. simpl.
      by rewrite app_nil_r.
  - intros (l & -> & Hp). split.
    + unfold merge_chunk. simpl. by rewrite Hp.
    + simpl. by rewrite app_nil_r.
Qed.

Lemma merge_next (fam : family) (n : Z) (merged_chunks : list json)
    (acc chunk : json) :
  n ≠ 0 →
  merged_chunks ≠ [] →
  merged fam merged_chunks acc →
  shaped fam chunk →
  ∃ acc',
    merge_chunk n (Some acc) chunk = Ok (Some acc') ∧
    merged fam (merged_chunks ++ [chunk]) acc'.
Proof.
  intros Hn Hne Hacc Hshape.
  assert (Hhead : head (merged_chunks ++ [chunk]) = head merged_chunks)
    by (by destruct merged_chunks).
  destruct fam; simpl in *.
  - destruct Hacc as (top & d & top0 & d0 & -> & H0 & Hd & Hd0 & Htop &
                      Hs & Hf & Hrest).
    destruct Hshape as (topc & dc & -> & Hdc & Hsc & Hfc & Hany).
    assert (list_or_absent "sightings" d) as Hls.
    { unfold list_or_absent. rewrite Hs. unfold concat_named.
      by destruct (omap _ _). }
    assert (list_or_absent "forms" d) as Hlf.
    { unfold list_or_absent. rewrite Hf. unfold concat_named.
      by destruct (omap _ _). }
    destruct (merge_observations_named "sightings" n false top d topc dc
                Hn Hdc Hsc Hd Hls) as (top1 & Hm1 & Hd1 & Htop1).
    destruct (merge_observations_named "forms" n
                (false || dict_mem "sightings" dc) top1
                (add_named "sightings" (JDict topc) d) topc dc
                Hn Hdc Hfc Hd1)
      as (top2 & Hm2 & Hd2 & Htop2).
    { by apply add_named_keeps. }
    exists (JDict top2). split.
    + assert (py_contains "data" (JDict topc) = Ok true) as Hpc.
      { simpl. unfold dict_mem. by rewrite Hdc. }
      unfold merge_chunk. rewrite Hpc. cbn -[merge_observations].
      rewrite Hm1. cbn -[merge_observations orb].
      rewrite Hm2. cbn -[orb].
      destruct Hany as [-> | ->]; simpl; [done|by rewrite orb_true_r].
    + exists top2, (add_named "forms" (JDict topc)
                      (add_named "sightings" (JDict topc) d)), top0, d0.
      rewrite Hhead.
      split; [done|]. split; [done|]. split; [exact Hd2|].
      split; [done|].
      split; [intros k Hk; by rewrite Htop2, Htop1, Htop|].
      split.
      { rewrite add_named_other by done. rewrite add_named_same.
        rewrite concat_named_snoc, Hs. done. }
      split.
      { rewrite add_named_same, add_named_other by done.
        rewrite concat_named_snoc, Hf. done. }
      intros k Hks Hkf. rewrite !add_named_other by done. by apply Hrest.
  - destruct Hacc as (top & top0 & -> & H0 & Hd & Htop).
    destruct Hshape as (topc & l & -> & Hdc & Hps & Hpf).
    eexists. split.
    + unfold merge_chunk, merge_observations. simpl. unfold dict_mem.
      rewrite Hdc. simpl. rewrite Hps, Hpf. simpl.
      rewrite decide_False by done. simpl. rewrite Hd. simpl. reflexivity.
    + eexists _, top0. rewrite Hhead.
      split; [done|]. split; [done|].
      split.
      { rewrite dict_get_set_eq, omap_app, concat_app. simpl.
        assert (data_list (JDict topc) = Some l) as ->
          by (unfold data_list; simpl; by rewrite Hdc).
        simpl. by rewrite app_nil_r. }
      intros k Hk. by rewrite dict_get_set_ne, Htop.
  - destruct Hshape as (l & -> & Hp). subst acc.
    eexists. split.
    + unfold merge_chunk. simpl. rewrite Hp. simpl.
      rewrite decide_False by done. reflexivity.
    + rewrite omap_app, concat_app. simpl. by rewrite app_nil_r.
Qed.

Lemma merge_rest (fam : family) (todo : list json) :
  ∀ (n : Z) (merged_chunks : list json) (acc : json),
  0 < n →
  merged_chunks ≠ [] →
  merged fam merged_chunks acc →
  Forall (shaped fam) todo →
  ∃ r,
    merge_from n (Some acc) todo = Ok (Some r) ∧
    merged fam (merged_chunks ++ todo) r.
Proof.
  induction todo as [|chunk todo IH]; intros n mc acc Hn Hne Hacc Hall.
  - exists acc. simpl. by rewrite app_nil_r.
  - apply Forall_cons in Hall as [Hone Hall].
    destruct (merge_next fam n mc acc chunk) as (acc' & Hm & Hacc');
      [lia|done|done|done|].
    destruct (IH (n + 1) (mc ++ [chunk]) acc') as (r & Hrun & Hr);
      [lia|by destruct mc|done|done|].
    exists r. simpl. rewrite Hm. simpl.
    split; [exact Hrun|]. by rewrite <- app_assoc in Hr.
Qed.

Lemma merge_all (fam : family) (first : json) (later : list json) :
  Forall (shaped fam) (first :: later) →
  ∃ r,
    merge_from 0 None (first :: later) = Ok (Some r) ∧
    merged fam (first :: later) r.
Proof.
  intros Hall. apply Forall_cons in Hall as [Hone Hall].
  destruct (merge_first fam first Hone) as [Hm Hacc].
  destruct (merge_rest fam later 1 [first] first) as (r & Hrun & Hr);
    [lia|done|done|done|].
  exists r. simpl. rewrite Hm. simpl. by split.
Qed.

(** C3: the chunks of one fetch are merged in arrival order.  For chunks
    of one family (mappings whose [data] carries [sightings], [forms] or
    both, mappings whose [data] is a list, or bare lists) the first chunk
    seeds the accumulator and the list of each later chunk is appended to
    the list of the same name, or set when the accumulator has no such
    list yet: the value returned is the first chunk with, under each name,
    the concatenation of the lists of that name in arrival order.  A fetch
    that ends after one chunk returns the decoded content of that chunk,
    whatever it is, unless probing it raises. *)
Theorem chunks_merge_in_arrival_order lim method (p : params) (fam : family)
    (pages : list (json * string)) (fin : response) (last : json) :
  supported method →
  Z.of_nat (length pages) < max_chunks lim →
  Forall (shaped fam) (map fst pages ++ [last]) →
  status_code fin = 200 →
  body fin = Some last →
  more_to_come fin = None →
  (∃ r c,
     _url_get lim method (map continued_chunk pages ++ [fin])
              (fresh_client p) = Done (Ok r) c ∧
     merged fam (map fst pages ++ [last]) r ∧
     transfer_errors c = 0) ∧
  (∀ (one : response) (content : json),
     status_code one = 200 →
     body one = Some content →
     more_to_come one = None →
     ∃ c,
       _url_get lim method [one] (fresh_client p) = Done (Ok content) c ∨
       ∃ e, _url_get lim method [one] (fresh_client p) = Done (Raise e) c ∧
            merge_chunk 0 None content = Raise e).
Proof.
  intros Hm Hlen Hall Hst Hbody Hmore. split.
  - assert (∃ first later, map fst pages ++ [last] = first :: later)
      as (first & later & Heq).
    { destruct (map fst pages) as [|x l]; simpl; by eexists _, _. }
    rewrite Heq in Hall.
    destruct (merge_all fam first later Hall) as (r & Hrun & Hr).
    rewrite <- Heq in Hrun, Hr.
    destruct (loop_chunks lim method pages fin last (fresh_client p) (Some r))
      as (c & Hloop & Herr); simpl; try done; try lia.
    exists r, c. split; [exact Hloop|]. by split.
  - intros [st bd te pk] content Hst1 Hbody1 Hmore1.
    simpl in Hst1, Hbody1. subst st bd.
    assert (0 < max_chunks lim) as Hpos by lia.
    unfold _url_get. simpl. rewrite decide_True by done.
    destruct (merge_chunk 0 None content) as [r|e] eqn:Hmerge.
    + apply merge_first_chunk in Hmerge as ->.
      eexists. left.
      destruct method; [| |done];
        (rewrite Hmore1; unfold after_loop; simpl;
         rewrite decide_False by lia; reflexivity).
    + eexists. right. exists e.
      destruct method; [| |done]; (split; reflexivity).
Qed.

(** The three chunks [{sightings: [a]}], [{sightings: [b]}],
    [{sightings: [c]}] of the spec, each under its [data] key; and chunks
    that carry [sightings] and [forms] together, or a list the accumulator
    does not have yet. *)
Lemma chunks_merge_in_arrival_order_witness :
  let a := JDict [("id", JNum 1)] in
  let b := JDict [("id", JNum 2)] in
  let c := JDict [("id", JNum 3)] in
  let f := JDict [("@id", JNum 7)] in
  let g := JDict [("@id", JNum 8)] in
  (∃ r cl,
     _url_get (Limits 5 10) GET
       [continued Sightings ([a], "k1"); continued Sightings ([b], "k2");
        Response 200 (Some (mk_chunk Sightings [c])) None None]
       (fresh_client [("user_email", "e"); ("user_pw", "w")]) =
     Done (Ok r) cl ∧
     merged Observations
            [mk_chunk Sightings [a]; mk_chunk Sightings [b];
             mk_chunk Sightings [c]] r ∧
     r = mk_chunk Sightings [a; b; c]) ∧
  (∃ r cl,
     _url_get (Limits 5 10) GET
       [continued_chunk (mk_chunk Sightings [a], "k1");
        continued_chunk
          (JDict [("data", JDict [("sightings", JList [b]);
                                  ("forms", JList [f])])], "k2");
        Response 200 (Some (mk_chunk Forms [g])) None None]
       (fresh_client [("user_email", "e"); ("user_pw", "w")]) =
     Done (Ok r) cl ∧
     r = JDict [("data", JDict [("sightings", JList [a; b]);
                                ("forms", JList [f; g])])]).
Proof.
  intros a b c f g. split.
  - destruct (chunks_merge_in_arrival_order (Limits 5 10) GET
                [("user_email", "e"); ("user_pw", "w")] Observations
                [(mk_chunk Sightings [a], "k1");
                 (mk_chunk Sightings [b], "k2")]
                (Response 200 (Some (mk_chunk Sightings [c])) None None)
                (mk_chunk Sightings [c]))
      as [(r & cl & Hrun & Hr & _) _];
      [exact I|simpl; lia| |reflexivity|reflexivity|reflexivity|].
    { repeat (apply Forall_cons; split;
              [eexists _, _; repeat split; by left|]). constructor. }
    exists r, cl. split; [exact Hrun|]. split; [exact Hr|].
    vm_compute in Hrun. by injection Hrun as <- _.
  - destruct (chunks_merge_in_arrival_order (Limits 5 10) GET
                [("user_email", "e"); ("user_pw", "w")] Observations
                [(mk_chunk Sightings [a], "k1");
                 (JDict [("data", JDict [("sightings", JList [b]);
                                         ("forms", JList [f])])], "k2")]
                (Response 200 (Some (mk_chunk Forms [g])) None None)
                (mk_chunk Forms [g]))
      as [(r & cl & Hrun & _ & _) _];
      [exact I|simpl; lia| |reflexivity|reflexivity|reflexivity|].
    { apply Forall_cons; split;
        [eexists _, _; repeat split; by left|].
      apply Forall_cons; split;
        [eexists _, _; repeat split; by left|].
      apply Forall_cons; split;
        [eexists _, _; repeat split; by right|]. constructor. }
    exists r, cl. split; [exact Hrun|].
    vm_compute in Hrun. by injection Hrun as <- _.
Defined.

Lemma error_budget_is_max_retry_witness :
  _url_get (Limits 2 10) GET
    ([Response 500 None None None; Response 503 None None None] ++
     [Response 404 None None None;
      Response 200 (Some (JList [])) None None])
    (fresh_client [("user_email", "e"); ("user_pw", "w")]) =
  Done (Raise (HTTPError (JNum 404)))
       (Client 3 404 [("user_email", "e"); ("user_pw", "w")] 0 None
          [EvRequest [("user_email", "e"); ("user_pw", "w")]; EvSleep;
           EvRequest [("user_email", "e"); ("user_pw", "w")]; EvSleep;
           EvRequest [("user_email", "e"); ("user_pw", "w")]; EvSleep]).
Proof.
  destruct (error_budget_is_max_retry (Limits 2 10) GET
              [("user_email", "e"); ("user_pw", "w")]
              [Response 500 None None None; Response 503 None None None]
              (Response 404 None None None))
    as (_ & _ & H & _).
  - exact I.
  - simpl. lia.
  - reflexivity.
  - repeat constructor; simpl; lia.
  - simpl. lia.
  - exact (H [Response 200 (Some (JList [])) None None]).
Defined.

Lemma max_chunks_error_at_the_ceiling_witness :
  ∃ c,
    _url_get (Limits 5 2) GET
      (map (continued Data)
           [([JNum 1], "k1"); ([JNum 2], "k2")] ++
       [Response 200 (Some (mk_chunk Data [JNum 3])) None None])
      (fresh_client [("user_email", "e"); ("user_pw", "w")]) =
    Done (Raise MaxChunksError) c ∧
    nb_chunks c = 2 ∧
    count_requests (trace c) = 2.
Proof.
  destruct (max_chunks_error_at_the_ceiling (Limits 5 2) GET
              [("user_email", "e"); ("user_pw", "w")] Data
              [([JNum 1], "k1"); ([JNum 2], "k2")]
              [Response 200 (Some (mk_chunk Data [JNum 3])) None None])
    as [H _].
  - exact I.
  - reflexivity.
  - repeat constructor.
  - exact H.
Defined.

End ApiFacts.

Module DownloadFacts.
Import Download.

(** ** Classification of the diff items *)




(** ** The backward walk of [_store_search] *)

Lemma py_int_floor (x : Q) : (0 <= x)%Q → py_int x = Qfloor x.
Proof.
  destruct x as [n d]. unfold Qle, py_int, Qfloor. simpl. intros Hn.
  apply Z.quot_div_nonneg; lia.
Qed.

Lemma py_int_bounds (x : Q) (lo hi : Z) :
  (inject_Z lo <= x <= inject_Z hi)%Q → 0 <= lo → lo <= py_int x <= hi.
Proof.
  intros [Hlo Hhi] H0.
  rewrite py_int_floor.
  - split.
    + rewrite <- (Qfloor_Z lo). by apply Qfloor_resp_le.
    + rewrite <- (Qfloor_Z hi). by apply Qfloor_resp_le.
  - eapply Qle_trans; [|exact Hlo]. unfold Qle. simpl. lia.
Qed.

Lemma walk_snoc t ws t' w :
  walk t ws t' →
  min_date < t' →
  date_to w = t' →
  date_from w = t' - win_days w * usec_per_day →
  10 <= win_days w <= 2000 →
  walk t (ws ++ [w]) (date_from w).
Proof.
  induction 1 as [t|t w0 ws t' H1 H2 H3 H4 Hw IH]; intros Hmin Hto Hfrom Hd.
  - simpl. eapply walk_back; eauto. constructor.
  - simpl. eapply walk_back; eauto.
Qed.

Lemma min_date_value : min_date = 693960 * usec_per_day.
Proof. reflexivity. Qed.

Section SearchFacts.

Context {pid : Type}.
Variable pid_call : pid → Z → pid * Q.
Variable search_and_store : Z → Z → Z → result Z.
(** What the regulator promises: from a controller that satisfies
    [tuned], the output is within the output limits and the controller is
    [tuned] again. *)
Variable tuned : pid → Prop.
Hypothesis pid_bounds :
  ∀ s n, tuned s →
         tuned (pid_call s n).1 ∧
         (inject_Z 10 <= (pid_call s n).2 <= inject_Z 2000)%Q.

Lemma regulate_bounds st n :
  tuned st.1 →
  tuned (regulate pid_call st n).1 ∧
  10 <= (regulate pid_call st n).2 <= 2000.
Proof.
  intros Ht. destruct (pid_bounds st.1 n Ht) as [Ht' Hb].
  unfold regulate. simpl. split; [done|].
  apply py_int_bounds; [done|lia].
Qed.

Lemma store_search_loop_returns (fuel : nat) : ∀ (s : search_state) t0,
  tuned (regulator s) →
  end_date s = start_date s →
  10 <= delta_days s <= 2000 →
  start_date s <= datetime_max →
  walk t0 (windows s) (start_date s) →
  (search_fuel (start_date s) <= fuel)%nat →
  ∃ r s',
    store_search_loop pid_call search_and_store fuel s = Some (r, s') ∧
    walk t0 (windows s') (start_date s') ∧
    match r with
    | Ok _ => start_date s' <= min_date
    | Raise e =>
        ∃ w, last (windows s') = Some w ∧
             search_and_store (date_from w) (date_to w) (win_seq w) = Raise e
    end.
Proof.
  pose proof min_date_value as Hmin.
  assert (0 < usec_per_day) as HU by reflexivity.
  assert (datetime_max < 3652059 * usec_per_day) as Hmax by reflexivity.
  induction fuel as [|fuel IH]; intros s t0 Ht Hend Hd Hle Hwalk Hfuel.
  - exists (Ok ()), s. simpl.
    destruct (decide (min_date < start_date s)) as [Hgt|Hngt].
    + exfalso. unfold search_fuel in Hfuel.
      assert (0 <= (start_date s - min_date) / (10 * usec_per_day))
        by (apply Z.div_pos; lia).
      lia.
    + split; [done|]. split; [done|lia].
  - simpl. destruct (decide (min_date < start_date s)) as [Hgt|Hngt].
    2:{ exists (Ok ()), s. split; [done|]. split; [done|lia]. }
    assert (10 * usec_per_day <= delta_days s * usec_per_day)
      by (apply Z.mul_le_mono_nonneg_r; lia).
    assert (delta_days s * usec_per_day <= 2000 * usec_per_day)
      by (apply Z.mul_le_mono_nonneg_r; lia).
    unfold minus_days. rewrite Hend.
    rewrite decide_True by lia.
    set (start := start_date s - delta_days s * usec_per_day).
    set (w := Window start (start_date s) (seq s) (delta_days s)).
    assert (walk t0 (windows s ++ [w]) start) as Hwalk'.
    { change start with (date_from w).
      by apply (walk_snoc t0 (windows s) (start_date s) w). }
    destruct (search_and_store start (start_date s) (seq s)) as [nb_obs|e]
      eqn:Hstore.
    + destruct (regulate_bounds (regulator s, delta_days s) nb_obs Ht)
        as [Ht' Hd'].
      apply IH; simpl; try done.
      * subst start. lia.
      * unfold search_fuel in *.
        assert ((start - min_date) / (10 * usec_per_day) + 1 <=
                (start_date s - min_date) / (10 * usec_per_day)).
        { assert ((start_date s - min_date) / (10 * usec_per_day) =
                  (start_date s - min_date - 10 * usec_per_day)
                    / (10 * usec_per_day) + 1) as ->.
          { rewrite <- Z.div_add by lia. f_equal. lia. }
          apply Z.add_le_mono_r, Z.div_le_mono; subst start; lia. }
        lia.
    + eexists (Raise e), _. split; [reflexivity|]. simpl.
      split; [done|]. exists w. by rewrite last_snoc.
Qed.

(** C9: the search loop of a partition terminates.  With enough fuel,
    [search_fuel now], the loop returns: it has walked the windows
    backward from [now], each window starting as many days before its end
    as the regulated width says (at least 10, at most 2000) and ending
    where the previous one starts, and no window is issued once the start
    reached is on or before [min_date], 1901-01-01, which is where the
    loop stops unless the search of a window raised. *)
Theorem store_search_terminates (now : Z) (pid0 : pid) (fuel : nat) :
  tuned pid0 →
  0 <= now <= datetime_max →
  (search_fuel now <= fuel)%nat →
  ∃ r s',
    store_search_loop pid_call search_and_store fuel
                      (store_search_init now pid0) = Some (r, s') ∧
    walk now (windows s') (start_date s') ∧
    match r with
    | Ok _ => start_date s' <= min_date
    | Raise e =>
        ∃ w, last (windows s') = Some w ∧
             search_and_store (date_from w) (date_to w) (win_seq w) = Raise e
    end.
Proof.
  intros Ht Hnow Hfuel.
  apply store_search_loop_returns; simpl; try done; try lia.
  constructor.
Qed.

End SearchFacts.

(** ** The regulator *)

Section RegulatorFacts.
Import Regulator.
Local Open Scope Q_scope.

Lemma clamp_bounds (v lo hi : Q) :
  lo <= hi → lo <= clamp v (lo, hi) <= hi.
Proof.
  intros Hle. unfold clamp. simpl.
  destruct (Qlt_le_dec hi v); [lra|].
  destruct (Qlt_le_dec v lo); lra.
Qed.

(** The controller of [_store_search] honours its output limits. *)
Lemma PID_call_limited (p : PID) (n : Z) :
  output_limits p = (10 # 1, 2000 # 1) →
  output_limits (PID_call p n).1 = (10 # 1, 2000 # 1) ∧
  inject_Z 10 <= (PID_call p n).2 <= inject_Z 2000.
Proof.
  intros Hlim. unfold PID_call. simpl. split; [done|].
  rewrite Hlim. apply clamp_bounds.
  change (10 # 1 <= 2000 # 1). lra.
Qed.

End RegulatorFacts.

Section UpdateFacts.

Variable increment_get : json → option json.
Variable api_diff : json → json → result json.
Variable api_get : json → result json.



End UpdateFacts.

Lemma store_search_terminates_witness :
  ∃ r s',
    _store_search (fun _ _ _ => Ok 10000) (min_date + 40 * usec_per_day) 10 =
      Some (r, s') ∧
    walk (min_date + 40 * usec_per_day) (windows s') (start_date s') ∧
    match r with
    | Ok _ => start_date s' <= min_date
    | Raise e =>
        ∃ w, last (windows s') = Some w ∧
             (fun _ _ _ : Z => Ok 10000) (date_from w) (date_to w) (win_seq w)
             = Raise e
    end.
Proof.
  apply (store_search_terminates Regulator.PID_call
           (fun _ _ _ => Ok 10000)
           (fun p => Regulator.output_limits p = ((10 # 1)%Q, (2000 # 1)%Q))
           PID_call_limited
           (min_date + 40 * usec_per_day) search_pid 10).
  - reflexivity.
  - vm_compute. split; discriminate.
  - vm_compute. lia.
Defined.


End DownloadFacts.

Module StoreFacts.
Import Store.

(** ** Tables *)

Lemma absent_key (t : table) (id : Z) (site : string) :
  count_key id site t = 0%nat →
  select_one t id site = None ∧
  existsb (has_key id site) t = false ∧
  (∀ values, update_where t id site values = t) ∧
  (∀ more, select_one (t ++ more) id site = select_one more id site).
Proof.
  unfold count_key, select_one, update_where.
  induction t as [|r t IH]; simpl; [done|].
  destruct (has_key id site r) eqn:Hk; simpl; [lia|].
  intros H0. destruct (IH H0) as (Hf & He & Hu & Hm).
  split; [done|]. split; [done|].
  split; [intros values; by rewrite Hu|done].
Qed.

Lemma count_key_snoc (t : table) (r : row) (id : Z) (site : string) :
  count_key id site (t ++ [r]) =
  (count_key id site t + if has_key id site r then 1 else 0)%nat.
Proof.
  unfold count_key. rewrite List.filter_app, length_app. simpl.
  by destruct (has_key id site r).
Qed.

Lemma has_key_same (id : Z) (site : string) (item : json)
    (ts : option json) :
  has_key id site (Row id site item ts) = true.
Proof. unfold has_key. simpl. by rewrite bool_decide_eq_true. Qed.

Section BackendFacts.

Variable site : string.
Variable db_out_proj : string.
Variable as_integer : json → option Z.
Variable transform : string → string → json → json → json * json.
Variable uuid4 : nat → string.
Variable now : nat → Z.

(** The first store of a key inserts its row at the end of the table. *)
Lemma upsert_inserts (t : table) (of_site : string) (v : json) (id : Z)
    (fresh : Z → row) (values : Z → row → row) item ts :
  as_integer v = Some id →
  count_key id of_site t = 0%nat →
  fresh id = Row id of_site item ts →
  upsert as_integer t of_site v fresh values = Ok (t ++ [fresh id]).
Proof.
  intros Hv H0 Hfresh.
  destruct (absent_key t id of_site H0) as (Hs & He & _ & _).
  unfold upsert, bind_integer. rewrite Hv. simpl. rewrite Hs.
  unfold insert. rewrite Hfresh. simpl. by rewrite He.
Qed.

(** The next store of the key rewrites that row, where it is. *)
Lemma upsert_updates (t : table) (of_site : string) (v : json) (id : Z)
    (fresh : Z → row) (values : Z → row → row) item ts :
  as_integer v = Some id →
  count_key id of_site t = 0%nat →
  upsert as_integer (t ++ [Row id of_site item ts]) of_site v fresh values =
  Ok (t ++ [values id (Row id of_site item ts)]).
Proof.
  intros Hv H0. destruct (absent_key t id of_site H0) as (_ & _ & Hu & Hm).
  unfold upsert, bind_integer. rewrite Hv. simpl.
  rewrite Hm. unfold select_one. simpl. rewrite has_key_same. f_equal.
  unfold update_where in *. rewrite map_app, Hu. simpl.
  by rewrite has_key_same.
Qed.

Lemma known_controler (controler type : string) :
  dict_get controler table_types = Some type →
  metadata controler = Ok controler.
Proof. intros H. unfold metadata. by rewrite H. Qed.

Lemma set_table_same (d : db) (c : string) (t : table) :
  tables (set_table d c t) c = t.
Proof. simpl. by rewrite decide_True. Qed.

(** [_store_simple] of a response that carries one record. *)
Lemma store_simple_one (controler type : string) (items_dict elem v : json)
    (d : db) (t' : table) :
  dict_get controler table_types = Some type →
  py_getitem items_dict "data" = Ok (JList [elem]) →
  py_getitem elem "id" = Ok v →
  upsert as_integer (tables d controler) site v
         (fun id => Row id site elem None)
         (fun id r => Row id site elem (row_update_ts r)) = Ok t' →
  _store_simple site as_integer controler items_dict d =
  Ok (set_table d controler t', 1).
Proof.
  intros Hc Hdata Hid Hup. unfold _store_simple. rewrite Hdata. simpl.
  rewrite (known_controler _ _ Hc). simpl. rewrite Hid. simpl.
  rewrite Hup. reflexivity.
Qed.

(** [_store_geometry] of a response that carries one record: the record is
    given its local coordinates and goes through [_store_simple]. *)
Lemma store_geometry_one (controler : string) (items_dict elem elem_xy : json)
    (d : db) :
  py_getitem items_dict "data" = Ok (JList [elem]) →
  add_local_coords db_out_proj transform elem = Ok elem_xy →
  ∃ located,
    py_getitem located "data" = Ok (JList [elem_xy]) ∧
    _store_geometry site db_out_proj as_integer transform controler
                    items_dict d =
    _store_simple site as_integer controler located d.
Proof.
  intros Hdata Hxy. destruct items_dict as [| | | | |fields]; try done.
  exists (JDict (dict_set "data" (JList [elem_xy]) fields)). split.
  - simpl. by rewrite dict_get_set_eq.
  - unfold _store_geometry. rewrite Hdata. simpl. rewrite Hxy. reflexivity.
Qed.

Lemma store_twice (t : table) (of_site : string) (v v' : json) (id : Z)
    (item item' : json) (ts ts' : option json)
    (fresh fresh' : Z → row) (values values' : Z → row → row) :
  as_integer v = Some id →
  as_integer v' = Some id →
  count_key id of_site t = 0%nat →
  fresh id = Row id of_site item ts →
  values' id (Row id of_site item ts) = Row id of_site item' ts' →
  upsert as_integer t of_site v fresh values =
    Ok (t ++ [Row id of_site item ts]) ∧
  upsert as_integer (t ++ [Row id of_site item ts]) of_site v' fresh' values' =
    Ok (t ++ [Row id of_site item' ts']) ∧
  count_key id of_site (t ++ [Row id of_site item' ts']) = 1%nat.
Proof.
  intros Hv Hv' H0 Hfresh Hvalues. split; [|split].
  - rewrite <- Hfresh. by eapply upsert_inserts.
  - rewrite <- Hvalues. by apply upsert_updates.
  - rewrite count_key_snoc, H0, has_key_same. reflexivity.
Qed.

(** C5: storing a record of key [(id, site)] twice leaves one row for the
    key.  The first store, the key being absent, inserts the row at the
    end of the table; the second finds it and rewrites it where it is with
    the record (and, for an observation, the update timestamp) of the
    second store, adding no row.  This holds for the three controler types:
    simple ([_store_simple]), geometry ([_store_geometry]) and observation
    ([store_1_observation], run by the workers). *)
Theorem upsert_by_id_and_site :
  (∀ controler type items items' elem elem' v v' id (d : db),
     dict_get controler table_types = Some type →
     py_getitem items "data" = Ok (JList [elem]) →
     py_getitem elem "id" = Ok v → as_integer v = Some id →
     py_getitem items' "data" = Ok (JList [elem']) →
     py_getitem elem' "id" = Ok v' → as_integer v' = Some id →
     count_key id site (tables d controler) = 0%nat →
     ∃ d1 d2,
       _store_simple site as_integer controler items d = Ok (d1, 1) ∧
       tables d1 controler = tables d controler ++ [Row id site elem None] ∧
       _store_simple site as_integer controler items' d1 = Ok (d2, 1) ∧
       tables d2 controler = tables d controler ++ [Row id site elem' None] ∧
       count_key id site (tables d2 controler) = 1%nat) ∧
  (∀ controler type items items' elem elem' xy xy' v v' id (d : db),
     dict_get controler table_types = Some type →
     py_getitem items "data" = Ok (JList [elem]) →
     add_local_coords db_out_proj transform elem = Ok xy →
     py_getitem xy "id" = Ok v → as_integer v = Some id →
     py_getitem items' "data" = Ok (JList [elem']) →
     add_local_coords db_out_proj transform elem' = Ok xy' →
     py_getitem xy' "id" = Ok v' → as_integer v' = Some id →
     count_key id site (tables d controler) = 0%nat →
     ∃ d1 d2,
       _store_geometry site db_out_proj as_integer transform controler
                       items d = Ok (d1, 1) ∧
       tables d1 controler = tables d controler ++ [Row id site xy None] ∧
       _store_geometry site db_out_proj as_integer transform controler
                       items' d1 = Ok (d2, 1) ∧
       tables d2 controler = tables d controler ++ [Row id site xy' None] ∧
       count_key id site (tables d2 controler) = 1%nat) ∧
  (∀ item item' v v' elem elem' ts ts' id (t : table),
     localized transform item = Ok (v, elem, ts) →
     as_integer v = Some id →
     localized transform item' = Ok (v', elem', ts') →
     as_integer v' = Some id →
     item_site item' = item_site item →
     count_key id (item_site item) t = 0%nat →
     store_1_observation as_integer transform item t =
       Ok (t ++ [Row id (item_site item) elem (Some ts)]) ∧
     store_1_observation as_integer transform item'
         (t ++ [Row id (item_site item) elem (Some ts)]) =
       Ok (t ++ [Row id (item_site item) elem' (Some ts')]) ∧
     count_key id (item_site item)
               (t ++ [Row id (item_site item) elem' (Some ts')]) = 1%nat).
Proof.
  assert (Hsimple : ∀ controler type items items' elem elem' v v' id (d : db),
     dict_get controler table_types = Some type →
     py_getitem items "data" = Ok (JList [elem]) →
     py_getitem elem "id" = Ok v → as_integer v = Some id →
     py_getitem items' "data" = Ok (JList [elem']) →
     py_getitem elem' "id" = Ok v' → as_integer v' = Some id →
     count_key id site (tables d controler) = 0%nat →
     ∃ d1 d2,
       _store_simple site as_integer controler items d = Ok (d1, 1) ∧
       tables d1 controler = tables d controler ++ [Row id site elem None] ∧
       _store_simple site as_integer controler items' d1 = Ok (d2, 1) ∧
       tables d2 controler = tables d controler ++ [Row id site elem' None] ∧
       count_key id site (tables d2 controler) = 1%nat).
  { intros controler type items items' elem elem' v v' id d
           Hc Hdata Hid Hv Hdata' Hid' Hv' H0.
    destruct (store_twice (tables d controler) site v v' id elem elem'
                None None
                (fun id => Row id site elem None)
                (fun id => Row id site elem' None)
                (fun id r => Row id site elem (row_update_ts r))
                (fun id r => Row id site elem' (row_update_ts r)))
      as (H1 & H2 & H3); try done.
    eexists _, _.
    split; [by eapply store_simple_one|].
    split; [apply set_table_same|].
    split; [eapply store_simple_one; try done; by rewrite set_table_same|].
    split; [apply set_table_same|]. by rewrite set_table_same. }
  split; [exact Hsimple|]. split.
  - intros controler type items items' elem elem' xy xy' v v' id d
           Hc Hdata Hxy Hid Hv Hdata' Hxy' Hid' Hv' H0.
    destruct (store_geometry_one controler items elem xy d Hdata Hxy)
      as (located & Hloc & Hgeo).
    destruct (Hsimple controler type located
                (JDict [("data", JList [xy'])]) xy xy' v v' id d)
      as (d1 & d2 & H1 & H2 & H3 & H4 & H5); try done.
    destruct (store_geometry_one controler items' elem' xy' d1 Hdata' Hxy')
      as (located' & Hloc' & Hgeo').
    exists d1, d2. rewrite Hgeo, Hgeo'.
    split; [done|]. split; [done|]. split; [|done].
    rewrite <- H3. unfold _store_simple. rewrite Hloc'. reflexivity.
  - intros item item' v v' elem elem' ts ts' id t Hloc Hv Hloc' Hv' Hsite H0.
    unfold store_1_observation. rewrite Hloc, Hloc', Hsite. simpl.
    apply (store_twice t (item_site item) v v' id elem elem'
             (Some ts) (Some ts')); done.
Qed.

(** ** The identity rows *)

Lemma absent_xref (t : list xref) (id : Z) (of_site : string) :
  count_xref id of_site t = 0%nat →
  List.find (xref_has_key id of_site) t = None ∧
  existsb (xref_has_key id of_site) t = false ∧
  (∀ more, List.find (xref_has_key id of_site) (t ++ more) =
           List.find (xref_has_key id of_site) more).
Proof.
  unfold count_xref.
  induction t as [|r t IH]; simpl; [done|].
  destruct (xref_has_key id of_site r) eqn:Hk; simpl; [lia|].
  intros H0. destruct (IH H0) as (Hf & He & Hm). done.
Qed.

(** C6: the first call of [_store_uuid] for a key without identity row
    inserts the row, with the uuid drawn at that call, the universal id and
    the time of the call; a second call for the key, whatever universal id
    it is given, finds the row and leaves the database as it is, so there
    is one row for the key and its uuid is the one of the first call. *)
Theorem uuid_created_once (obs_id universal_id universal_id' : json) (id : Z)
    (d : db) :
  as_integer obs_id = Some id →
  count_xref id site (uuid_xref d) = 0%nat →
  ∃ d1,
    _store_uuid site as_integer uuid4 now obs_id universal_id d = Ok (d1, 1) ∧
    uuid_xref d1 =
      uuid_xref d ++
      [Xref id site universal_id (uuid4 (uuids_drawn d)) None
            (now (length (uuid_xref d)))] ∧
    _store_uuid site as_integer uuid4 now obs_id universal_id' d1 =
      Ok (d1, 1) ∧
    count_xref id site (uuid_xref d1) = 1%nat.
Proof.
  intros Hid H0. destruct (absent_xref _ _ _ H0) as (Hf & He & Hm).
  eexists. split.
  { unfold _store_uuid, bind_integer. rewrite Hid. simpl. rewrite Hf.
    unfold insert_xref. simpl. rewrite He. reflexivity. }
  simpl. split; [reflexivity|]. split.
  - unfold _store_uuid, bind_integer. rewrite Hid. simpl. rewrite Hm. simpl.
    unfold xref_has_key at 1. simpl.
    rewrite bool_decide_eq_true_2 by done. reflexivity.
  - unfold count_xref in *. rewrite List.filter_app, length_app, H0. simpl.
    unfold xref_has_key at 1. simpl.
    rewrite bool_decide_eq_true_2 by done. reflexivity.
Qed.

(** ** The order of the steps of [_store_observation] *)

Lemma store_uuid_history (obs_id universal_id : json) (d d' : db) (n : Z) :
  _store_uuid site as_integer uuid4 now obs_id universal_id d = Ok (d', n) →
  history d' = history d ∧ observations_queue d' = observations_queue d.
Proof.
  unfold _store_uuid.
  destruct (bind_integer as_integer obs_id) as [id|]; simpl; [|done].
  destruct (List.find _ _); simpl; [by intros [= <- _]|].
  destruct (insert_xref _ _); simpl; [|done]. by intros [= <- _].
Qed.

(** The loop on the top-level sightings creates the identity row of each
    record before it puts the record on the queue. *)
Lemma top_level_sightings_uuid_first (controler : string)
    (elems : list json) : ∀ (d d' : db) (nb nb' : Z),
  store_sightings site db_out_proj as_integer uuid4 now controler elems d nb =
    Ok (d', nb') →
  ∃ ids,
    length ids = length elems ∧
    history d' =
      history d ++
      concat (zip_with (fun id elem => [UuidStep id; QueuePut elem])
                       ids elems).
Proof.
  induction elems as [|elem elems IH]; intros d d' nb nb'; simpl.
  - intros [= <- _]. exists []. by rewrite app_nil_r.
  - destruct (observer elem) as [o|]; simpl; [|done].
    destruct (py_getitem o "id_sighting") as [obs_id|]; simpl; [|done].
    destruct (py_getitem o "id_universal") as [universal_id|]; simpl; [|done].
    destruct (_store_uuid _ _ _ _ _ _ _) as [[d1 n]|] eqn:Huuid; simpl;
      [|done].
    apply store_uuid_history in Huuid as [Hh _]. simpl in Hh.
    destruct (metadata controler) as [name|]; simpl; [|done].
    intros Hrest. apply IH in Hrest as (ids & Hlen & Hhist).
    exists (obs_id :: ids). simpl. split; [by rewrite Hlen|].
    rewrite Hhist. simpl. rewrite Hh, <- !app_assoc. reflexivity.
Qed.

End BackendFacts.

(** C7, at the response
    [{data: {sightings: [], forms: [{"@id": 7, sightings: [s]}]}}]: the
    sighting [s] of the form is put on the worker queue and no identity row
    is created for it, before or after; the same sighting at the top level
    of the response gets its identity row before it is put on the queue. *)
Theorem form_sighting_queued_without_uuid :
  let s := sighting 42 1 in
  let run := _store_observation "vn" "2154" plain_cast no_projection
               (fun _ => "uuid") (fun _ => 0) "observations" in
  (∃ d,
     run (JDict [("data",
                  JDict [("sightings", JList []);
                         ("forms",
                          JList [JDict [("@id", JNum 7);
                                        ("sightings", JList [s])]])])])
         empty_db = Ok (d, 1) ∧
     history d = [QueuePut s; FormStep (JDict [("@id", JNum 7)])] ∧
     uuid_xref d = [] ∧
     map item_elem (observations_queue d) = [s]) ∧
  (∃ d,
     run (JDict [("data", JDict [("sightings", JList [s])])]) empty_db =
       Ok (d, 1) ∧
     history d = [UuidStep (JNum 42); QueuePut s] ∧
     map xref_id (uuid_xref d) = [42] ∧
     map item_elem (observations_queue d) = [s]).
Proof.
  split; eexists; (split; [vm_compute; reflexivity|]); by vm_compute.
Qed.

Lemma upsert_by_id_and_site_witness :
  let items name := JDict [("data", JList [place 3 name])] in
  let item update_date :=
    MkItem "vn" "observations" (sighting 42 update_date) "epsg:4326"
           "epsg:2154" in
  (∃ d1 d2,
     _store_simple "vn" plain_cast "places" (items "a") empty_db =
       Ok (d1, 1) ∧
     tables d1 "places" = [] ++ [Row 3 "vn" (place 3 "a") None] ∧
     _store_simple "vn" plain_cast "places" (items "b") d1 = Ok (d2, 1) ∧
     tables d2 "places" = [] ++ [Row 3 "vn" (place 3 "b") None] ∧
     count_key 3 "vn" (tables d2 "places") = 1%nat) ∧
  (store_1_observation plain_cast no_projection (item 1) [] =
     Ok ([] ++ [Row 42 "vn"
                    (no_projection_of (sighting 42 1)) (Some (JNum 1))]) ∧
   store_1_observation plain_cast no_projection (item 2)
       ([] ++ [Row 42 "vn" (no_projection_of (sighting 42 1))
                   (Some (JNum 1))]) =
     Ok ([] ++ [Row 42 "vn"
                    (no_projection_of (sighting 42 2)) (Some (JNum 2))]) ∧
   count_key 42 "vn"
     ([] ++ [Row 42 "vn" (no_projection_of (sighting 42 2)) (Some (JNum 2))])
   = 1%nat).
Proof.
  intros items item.
  destruct (upsert_by_id_and_site "vn" "2154" plain_cast no_projection)
    as (Hsimple & _ & Hobs).
  split.
  - apply (Hsimple "places" "geometry" (items "a") (items "b")
             (place 3 "a") (place 3 "b") (JNum 3) (JNum 3) 3 empty_db);
      reflexivity.
  - apply (Hobs (item 1) (item 2) (JNum 42) (JNum 42)); reflexivity.
Defined.

Lemma uuid_created_once_witness :
  ∃ d1,
    _store_uuid "vn" plain_cast (fun _ => "uuid") (fun _ => 0)
                (JNum 42) (JStr "28_1") empty_db = Ok (d1, 1) ∧
    uuid_xref d1 =
      uuid_xref empty_db ++
      [Xref 42 "vn" (JStr "28_1") "uuid" None 0] ∧
    _store_uuid "vn" plain_cast (fun _ => "uuid") (fun _ => 0)
                (JNum 42) (JStr "other") d1 = Ok (d1, 1) ∧
    count_xref 42 "vn" (uuid_xref d1) = 1%nat.
Proof.
  apply (uuid_created_once "vn" plain_cast (fun _ => "uuid") (fun _ => 0)
           (JNum 42) (JStr "28_1") (JStr "other") 42 empty_db);
    reflexivity.
Defined.

End StoreFacts.

(* ===================================================================== *)
(** * Further properties of the fetch client *)
(* ===================================================================== *)

Module ApiCallsFacts.
Import Api ApiCalls.

Lemma dict_get_del_ne {V : Type} (d : list (string * V)) (k k' : string) :
  k' ≠ k → dict_get k' (dict_del k d) = dict_get k' d.
Proof.
  intros Hne. induction d as [|[k0 v0] d IH]; simpl; [done|].
  destruct (decide (k = k0)) as [->|]; simpl.
  - by rewrite decide_False.
  - by rewrite IH.
Qed.

Lemma same_but_page_refl (p : params) : same_but_page p p.
Proof. by intros k _. Qed.

Lemma same_but_page_trans (p1 p2 p3 : params) :
  same_but_page p1 p2 → same_but_page p2 p3 → same_but_page p1 p3.
Proof. intros H12 H23 k Hk. by rewrite H23, H12. Qed.

Lemma same_but_page_set (p : params) (key : string) :
  same_but_page p (dict_set "pagination_key" key p).
Proof. intros k Hk. by apply dict_get_set_ne. Qed.

Lemma same_but_page_del (p : params) :
  same_but_page p (dict_del "pagination_key" p).
Proof. intros k Hk. by apply dict_get_del_ne. Qed.

Lemma request_like_mono (p1 p2 : params) (e : event) :
  same_but_page p1 p2 → request_like p2 e → request_like p1 e.
Proof. destruct e; simpl; [|done]. apply same_but_page_trans. Qed.

Lemma kept_here (c : client) (r : result json) : kept c (Done r c).
Proof.
  exists []. simpl. rewrite app_nil_r.
  split; [done|]. split; [constructor|].
  split; [apply same_but_page_refl|lia].
Qed.

Lemma kept_after (c c2 : client) (o : outcome) (pre : list event) :
  trace c2 = trace c ++ pre →
  Forall (request_like (cur_params c)) pre →
  same_but_page (cur_params c) (cur_params c2) →
  transfer_errors c <= transfer_errors c2 →
  kept c2 o → kept c o.
Proof.
  intros Htr Hpre Hp Herr (new & Hnew & Hall & Hp' & Herr').
  exists (pre ++ new). split; [by rewrite Hnew, Htr, app_assoc|].
  split.
  - apply Forall_app. split; [done|].
    eapply Forall_impl; [exact Hall|]. intros e. by apply request_like_mono.
  - split; [by eapply same_but_page_trans|lia].
Qed.

Lemma after_loop_kept (lim : limits) (c : client) : kept c (after_loop lim c).
Proof. unfold after_loop. destruct (decide _); apply kept_here. Qed.

Lemma request_like_self (c : client) :
  Forall (request_like (cur_params c)) [EvRequest (cur_params c)].
Proof. constructor; [apply same_but_page_refl|constructor]. Qed.

Lemma request_sleep_like_self (c : client) :
  Forall (request_like (cur_params c)) [EvRequest (cur_params c); EvSleep].
Proof.
  constructor; [apply same_but_page_refl|].
  constructor; [exact I|constructor].
Qed.

Lemma url_get_loop_kept (lim : limits) (method : http_method)
    (script : list response) : ∀ c,
  kept c (url_get_loop lim method script c).
Proof.
  induction script as [|resp script IH]; intros c; simpl.
  - destruct (decide _); [|apply after_loop_kept].
    destruct method; try apply kept_here;
      (exists [EvRequest (cur_params c)]; simpl;
       split; [done|]; split; [apply request_like_self|];
       split; [apply same_but_page_refl|lia]).
  - destruct (decide _); [|apply after_loop_kept].
    assert (Hgo : kept c
      (if decide (status_code resp ≠ 200)
       then
         if decide (max_retry lim < transfer_errors c + 1)
         then Done (Raise (HTTPError (JNum (status_code resp))))
                (set_errors c (status_code resp) (transfer_errors c + 1)
                   [EvRequest (cur_params c); EvSleep])
         else url_get_loop lim method script
                (set_errors c (status_code resp) (transfer_errors c + 1)
                   [EvRequest (cur_params c); EvSleep])
       else
         let decoded :=
           match body resp with
           | Some j => (j, transfer_errors c)
           | None => (JDict [], transfer_errors c + 1)
           end in
         let c1 := set_errors c (status_code resp) decoded.2
                     [EvRequest (cur_params c)] in
         if decide (body resp = None ∧ max_retry lim < decoded.2)
         then Done (Raise (HTTPError (JStr "resp.json exception"))) c1
         else
           match merge_chunk (nb_chunks c) (data_rec c) decoded.1 with
           | Ok rec' =>
               match more_to_come resp with
               | Some key =>
                   url_get_loop lim method script
                     (Client (transfer_errors c1) (status_code resp)
                        (dict_set "pagination_key" key (cur_params c))
                        (nb_chunks c + 1) rec' (trace c1))
               | None =>
                   after_loop lim
                     (Client (transfer_errors c1) (status_code resp)
                        (dict_del "pagination_key" (cur_params c))
                        (nb_chunks c) rec' (trace c1))
               end
           | Raise e => Done (Raise e) c1
           end)).
    { destruct (decide (status_code resp ≠ 200)).
      - apply (kept_after c
                 (set_errors c (status_code resp) (transfer_errors c + 1)
                    [EvRequest (cur_params c); EvSleep])
                 _ [EvRequest (cur_params c); EvSleep]);
          [reflexivity|apply request_sleep_like_self
          |apply same_but_page_refl|simpl; lia|].
        destruct (decide _); [apply kept_here|apply IH].
      - destruct (body resp) as [j|]; cbv zeta; simpl fst; simpl snd.
        + apply (kept_after c
                   (set_errors c (status_code resp) (transfer_errors c)
                      [EvRequest (cur_params c)])
                   _ [EvRequest (cur_params c)]);
            [reflexivity|apply request_like_self
            |apply same_but_page_refl|simpl; lia|].
          destruct (decide _); [apply kept_here|].
          destruct (merge_chunk _ _ _) as [rec'|e]; [|apply kept_here].
          destruct (more_to_come resp) as [key|].
          * eapply (kept_after _ _ _ []); [| | | |apply IH]; simpl;
              [by rewrite app_nil_r|constructor|apply same_but_page_set|lia].
          * eapply (kept_after _ _ _ []); [| | | |apply after_loop_kept];
              simpl;
              [by rewrite app_nil_r|constructor|apply same_but_page_del|lia].
        + apply (kept_after c
                   (set_errors c (status_code resp) (transfer_errors c + 1)
                      [EvRequest (cur_params c)])
                   _ [EvRequest (cur_params c)]);
            [reflexivity|apply request_like_self
            |apply same_but_page_refl|simpl; lia|].
          destruct (decide _); [apply kept_here|].
          destruct (merge_chunk _ _ _) as [rec'|e]; [|apply kept_here].
          destruct (more_to_come resp) as [key|].
          * eapply (kept_after _ _ _ []); [| | | |apply IH]; simpl;
              [by rewrite app_nil_r|constructor|apply same_but_page_set|lia].
          * eapply (kept_after _ _ _ []); [| | | |apply after_loop_kept];
              simpl;
              [by rewrite app_nil_r|constructor|apply same_but_page_del|lia].
    }
    destruct method; [exact Hgo|exact Hgo|apply kept_here].
Qed.

(** X1: whatever the provider answers, every request [_url_get] issues
    carries the parameters it was called with, only [pagination_key] being
    added, changed or removed; the same holds of [params] when the call is
    over, and [transfer_errors] never decreases. *)
Theorem url_get_keeps_parameters (lim : limits) (method : http_method)
    (script : list response) (c : client) :
  ∃ new,
    trace (client_of (_url_get lim method script c)) = trace c ++ new ∧
    Forall (request_like (cur_params c)) new ∧
    same_but_page (cur_params c)
                  (cur_params (client_of (_url_get lim method script c))) ∧
    transfer_errors c <=
      transfer_errors (client_of (_url_get lim method script c)).
Proof.
  exact (url_get_loop_kept lim method script
           (Client (transfer_errors c) (http_status c) (cur_params c) 0 None
                   (trace c))).
Qed.

(** X2: every request of [api_diff], the first and the ones that follow the
    pagination, carries the credentials of the configuration, the taxo
    group, the modification type and the date it was called with. *)
Theorem api_diff_requests (lim : limits) (cfg : config)
    (id_taxo_group delta_time modification_type : string)
    (script : list response) (c : client) :
  ∃ new,
    trace (client_of (api_diff lim cfg id_taxo_group delta_time
                               modification_type script c)) =
      trace c ++ new ∧
    Forall (fun e => ∀ p, e = EvRequest p →
              dict_get "user_email" p = Some (user_email cfg) ∧
              dict_get "user_pw" p = Some (user_pw cfg) ∧
              dict_get "id_taxo_group" p = Some id_taxo_group ∧
              dict_get "modification_type" p = Some modification_type ∧
              dict_get "date" p = Some delta_time) new.
Proof.
  unfold api_diff, call, _url_get. simpl.
  destruct (url_get_loop_kept lim GET script
    (Client (transfer_errors c) (http_status c)
       (dict_set "date" delta_time
          (dict_set "modification_type" modification_type
             (dict_set "id_taxo_group" id_taxo_group (mandatory cfg))))
       0 None (trace c))) as (new & Htr & Hall & _).
  exists new. split; [exact Htr|].
  eapply Forall_impl; [exact Hall|].
  intros e He p ->. simpl in He.
  rewrite !He by done. by repeat split.
Qed.

Lemma after_loop_done (lim : limits) (c : client) : is_done (after_loop lim c).
Proof. unfold after_loop. by destruct (decide _). Qed.

Lemma url_get_loop_finishes (lim : limits) (method : http_method)
    (script : list response) : ∀ c,
  (responses_needed lim c <= length script)%nat →
  is_done (url_get_loop lim method script c).
Proof.
  unfold responses_needed.
  induction script as [|resp script IH]; intros c Hlen; simpl in *.
  - rewrite decide_False by lia. apply after_loop_done.
  - destruct (decide _) as [Hnb|]; [|apply after_loop_done].
    destruct method; [| |done].
    all: destruct (decide (status_code resp ≠ 200)).
    all: try (destruct (decide _); [done|apply IH; simpl; lia]).
    all: destruct (body resp); simpl.
    all: repeat first
           [ done | apply after_loop_done | (apply IH; simpl; lia)
           | case_decide | case_match ].
Qed.

(** X3: the loop of [_url_get] is over after at most
    [max_chunks + (max_retry - transfer_errors)] responses, whatever they
    are: it has returned or raised, and asks for no further response. *)
Theorem url_get_finishes (lim : limits) (method : http_method)
    (script : list response) (c : client) :
  (Z.to_nat (max_chunks lim) +
   Z.to_nat (max_retry lim - transfer_errors c) <= length script)%nat →
  ∃ r c', _url_get lim method script c = Done r c'.
Proof.
  intros Hlen.
  assert (is_done (_url_get lim method script c)) as Hdone.
  { apply url_get_loop_finishes. unfold responses_needed. simpl.
    rewrite Z.sub_0_r. exact Hlen. }
  destruct (_url_get lim method script c) as [r c'|]; [eauto|done].
Qed.

Lemma url_get_finishes_witness :
  ∃ r c',
    _url_get (Limits 1 2) GET
      [Response 500 None None None;
       Response 200 None (Some "chunked") (Some "k");
       Response 200 (Some (JList [])) (Some "chunked") (Some "k")]
      (fresh_client [("user_email", "e")]) = Done r c'.
Proof.
  apply (url_get_finishes (Limits 1 2) GET
           [Response 500 None None None;
            Response 200 None (Some "chunked") (Some "k");
            Response 200 (Some (JList [])) (Some "chunked") (Some "k")]
           (fresh_client [("user_email", "e")])).
  simpl. lia.
Defined.

(** X4: the error budget is shared by the calls of a client.  When the
    session has [transfer_errors = E] from earlier calls, a call tolerates
    [max_retry - E] responses whose status is not 200 and raises
    [HTTPError] at the next one. *)
Theorem error_budget_is_cumulative (lim : limits) (method : http_method)
    (c : client) (fails : list response) (last_fail : response) :
  supported method →
  0 < max_chunks lim →
  transfer_errors c + Z.of_nat (length fails) = max_retry lim →
  Forall (fun r => status_code r ≠ 200) fails →
  status_code last_fail ≠ 200 →
  ∀ script,
    _url_get lim method (fails ++ script) c =
      url_get_loop lim method script
        (retried (Client (transfer_errors c) (http_status c) (cur_params c)
                         0 None (trace c)) fails) ∧
    _url_get lim method (fails ++ last_fail :: script) c =
      Done (Raise (HTTPError (JNum (status_code last_fail))))
           (retried (Client (transfer_errors c) (http_status c)
                            (cur_params c) 0 None (trace c))
                    (fails ++ [last_fail])).
Proof.
  intros Hm Hch HE Hall Hlast script. unfold _url_get.
  rewrite !ApiFacts.loop_retries by (simpl; done || lia).
  split; [reflexivity|].
  rewrite ApiFacts.loop_raise by (simpl; done || lia).
  by rewrite ApiFacts.retried_app.
Qed.

Lemma error_budget_is_cumulative_witness :
  _url_get (Limits 3 10) GET
    ([Response 500 None None None] ++ Response 502 None None None :: [])
    (Client 2 200 [("user_email", "e")] 0 None []) =
  Done (Raise (HTTPError (JNum 502)))
       (Client 4 502 [("user_email", "e")] 0 None
          [EvRequest [("user_email", "e")]; EvSleep;
           EvRequest [("user_email", "e")]; EvSleep]).
Proof.
  apply (error_budget_is_cumulative (Limits 3 10) GET
           (Client 2 200 [("user_email", "e")] 0 None [])
           [Response 500 None None None] (Response 502 None None None)).
  - exact I.
  - simpl. lia.
  - reflexivity.
  - repeat constructor; simpl; lia.
  - simpl. lia.
Defined.

(** X5: a body that cannot be decoded counts as one error but is not
    retried.  On the first chunk of a call, with the budget not exceeded
    and no continuation signalled, [_url_get] returns the empty dict after
    that single request, without sleeping; with the budget exceeded it
    raises [HTTPError("resp.json exception")]. *)
Theorem undecodable_first_chunk (lim : limits) (method : http_method)
    (c : client) (resp : response) (script : list response) :
  supported method →
  0 < max_chunks lim →
  status_code resp = 200 →
  body resp = None →
  more_to_come resp = None →
  _url_get lim method (resp :: script) c =
  if decide (max_retry lim < transfer_errors c + 1)
  then Done (Raise (HTTPError (JStr "resp.json exception")))
            (Client (transfer_errors c + 1) 200 (cur_params c) 0 None
                    (trace c ++ [EvRequest (cur_params c)]))
  else Done (Ok (JDict []))
            (Client (transfer_errors c + 1) 200
                    (dict_del "pagination_key" (cur_params c)) 0
                    (Some (JDict []))
                    (trace c ++ [EvRequest (cur_params c)])).
Proof.
  intros Hm Hch Hst Hbody Hmore.
  destruct resp as [st bd te pk]. simpl in Hst, Hbody. subst st bd.
  unfold _url_get. simpl. rewrite decide_True by done.
  destruct method; [| |done];
    (destruct (decide (max_retry lim < transfer_errors c + 1));
     [rewrite decide_True by done; reflexivity|];
     rewrite decide_False by (intros [_ H]; done);
     rewrite Hmore; unfold after_loop; simpl;
     rewrite decide_False by lia; reflexivity).
Qed.

Lemma undecodable_first_chunk_witness :
  _url_get (Limits 5 10) GET [Response 200 None None None]
           (fresh_client [("user_email", "e")]) =
  Done (Ok (JDict []))
       (Client 1 200 [("user_email", "e")] 0 (Some (JDict []))
               [EvRequest [("user_email", "e")]]).
Proof.
  exact (undecodable_first_chunk (Limits 5 10) GET
           (fresh_client [("user_email", "e")])
           (Response 200 None None None) [] I eq_refl eq_refl eq_refl eq_refl).
Defined.

(** X6: an undecodable body on a later chunk is merged as the empty dict:
    onto an accumulator that is a bare list it adds nothing, onto one that
    is a dict ([data], [data.sightings], [data.forms]) the [+=] raises
    [TypeError]. *)
Theorem undecodable_later_chunk (lim : limits) (method : http_method)
    (c : client) (k : chunk_kind) (page : list json * string)
    (resp : response) (script : list response) :
  supported method →
  1 < max_chunks lim →
  transfer_errors c + 1 <= max_retry lim →
  plain k page.1 →
  status_code resp = 200 →
  body resp = None →
  more_to_come resp = None →
  ∃ c',
    _url_get lim method (continued k page :: resp :: script) c =
    Done (match k with
          | RawList => Ok (JList page.1)
          | _ => Raise TypeError
          end) c'.
Proof.
  intros Hm Hch Herr Hp Hst Hbody Hmore.
  destruct resp as [st bd te pk]. simpl in Hst, Hbody. subst st bd.
  unfold _url_get.
  rewrite (ApiFacts.loop_page lim method k page _ _ []);
    [|done|simpl; lia|by repeat split|done].
  unfold turn_page. simpl. rewrite decide_True by lia.
  destruct method; [| |done];
    (rewrite decide_False by (intros [_ H]; lia);
     destruct k; unfold merge_chunk; simpl; try (eexists; reflexivity);
     rewrite Hmore, app_nil_r; unfold after_loop; simpl;
     rewrite decide_False by lia; eexists; reflexivity).
Qed.

Lemma undecodable_later_chunk_witness :
  ∃ c',
    _url_get (Limits 5 10) GET
      [continued Sightings ([JNum 1], "k1"); Response 200 None None None]
      (fresh_client [("user_email", "e")]) =
    Done (Raise TypeError) c'.
Proof.
  apply (undecodable_later_chunk (Limits 5 10) GET
           (fresh_client [("user_email", "e")]) Sightings ([JNum 1], "k1")
           (Response 200 None None None) []).
  - exact I.
  - simpl. lia.
  - simpl. lia.
  - exact I.
  - reflexivity.
  - reflexivity.
  - reflexivity.
Defined.

(** X7: with [max_chunks <= 0] the loop is never entered and [_url_get]
    raises [MaxChunksError] without a request; with [max_chunks > 0] and a
    method other than GET and POST it raises [NotImplementedException]
    without a request. *)
Theorem url_get_without_request (lim : limits) (method : http_method)
    (script : list response) (c : client) :
  (max_chunks lim <= 0 →
   _url_get lim method script c =
   Done (Raise MaxChunksError)
        (Client (transfer_errors c) (http_status c) (cur_params c) 0 None
                (trace c))) ∧
  (0 < max_chunks lim → ¬ supported method →
   _url_get lim method script c =
   Done (Raise NotImplementedException)
        (Client (transfer_errors c) (http_status c) (cur_params c) 0 None
                (trace c))).
Proof.
  split.
  - intros Hle. unfold _url_get.
    destruct script; simpl; rewrite decide_False by lia;
      unfold after_loop; simpl; rewrite decide_True by lia; reflexivity.
  - intros Hlt Hm. unfold _url_get.
    destruct script; simpl; rewrite decide_True by lia;
      destruct method; simpl in Hm; try (exfalso; by apply Hm); reflexivity.
Qed.

Lemma url_get_without_request_witness :
  _url_get (Limits 5 0) GET [Response 200 (Some (JList [])) None None]
           (fresh_client []) =
  Done (Raise MaxChunksError) (Client 0 0 [] 0 None []) ∧
  _url_get (Limits 5 10) (OtherMethod "PUT")
           [Response 200 (Some (JList [])) None None] (fresh_client []) =
  Done (Raise NotImplementedException) (Client 0 0 [] 0 None []).
Proof.
  split.
  - apply (proj1 (url_get_without_request (Limits 5 0) GET
                    [Response 200 (Some (JList [])) None None]
                    (fresh_client []))).
    simpl. lia.
  - apply (proj2 (url_get_without_request (Limits 5 10) (OtherMethod "PUT")
                    [Response 200 (Some (JList [])) None None]
                    (fresh_client []))).
    + simpl. lia.
    + simpl. tauto.
Defined.

(** X8: a response whose [data] is a mapping with neither [sightings] nor
    [forms] can only come in one chunk: the second chunk of this shape
    makes [data_rec["data"] += resp_chunk["data"]] raise [TypeError]. *)
Theorem mapping_data_cannot_continue (lim : limits) (method : http_method)
    (c : client) (d1 d2 : list (string * json)) (key : string)
    (resp : response) (script : list response) :
  supported method →
  1 < max_chunks lim →
  dict_mem "sightings" d1 = false → dict_mem "forms" d1 = false →
  dict_mem "sightings" d2 = false → dict_mem "forms" d2 = false →
  status_code resp = 200 →
  body resp = Some (JDict [("data", JDict d2)]) →
  ∃ c',
    _url_get lim method
      (Response 200 (Some (JDict [("data", JDict d1)])) (Some "chunked")
                (Some key) :: resp :: script) c =
    Done (Raise TypeError) c'.
Proof.
  intros Hm Hch Hs1 Hf1 Hs2 Hf2 Hst Hbody.
  destruct resp as [st bd te pk]. simpl in Hst, Hbody. subst st bd.
  unfold _url_get. simpl. rewrite decide_True by lia.
  destruct method; [| |done];
    (unfold merge_chunk, merge_observations; simpl;
     rewrite Hs1, Hf1; simpl;
     rewrite decide_True by lia;
     rewrite Hs2, Hf2; simpl;
     eexists; reflexivity).
Qed.

Lemma mapping_data_cannot_continue_witness :
  ∃ c',
    _url_get (Limits 5 10) GET
      [Response 200 (Some (JDict [("data", JDict [("id", JNum 1)])]))
                (Some "chunked") (Some "k");
       Response 200 (Some (JDict [("data", JDict [("id", JNum 2)])]))
                None None]
      (fresh_client []) =
    Done (Raise TypeError) c'.
Proof.
  apply (mapping_data_cannot_continue (Limits 5 10) GET (fresh_client [])
           [("id", JNum 1)] [("id", JNum 2)] "k"
           (Response 200 (Some (JDict [("data", JDict [("id", JNum 2)])]))
                     None None) []);
    first [reflexivity | exact I].
Defined.

(** ** The pagination key *)

Lemma dict_set_set {V : Type} (d : list (string * V)) (k : string) (v v' : V) :
  dict_set k v' (dict_set k v d) = dict_set k v' d.
Proof.
  induction d as [|[k0 v0] d IH]; simpl.
  - by rewrite decide_True.
  - destruct (decide (k = k0)) as [->|]; simpl.
    + by rewrite decide_True.
    + by rewrite decide_False, IH.
Qed.

Lemma dict_del_set_absent {V : Type} (d : list (string * V)) (k : string)
    (v : V) :
  dict_get k d = None → dict_del k (dict_set k v d) = d.
Proof.
  induction d as [|[k0 v0] d IH]; simpl.
  - by rewrite decide_True.
  - destruct (decide (k = k0)) as [->|]; [done|]. simpl.
    intros H. by rewrite decide_False, IH.
Qed.

Lemma loop_after_pages lim method k pages : ∀ script c acc,
  supported method →
  nb_chunks c + Z.of_nat (length pages) <= max_chunks lim →
  merged_so_far k c acc →
  Forall (fun page => plain k page.1) pages →
  url_get_loop lim method (map (continued k) pages ++ script) c =
  url_get_loop lim method script (after_pages k c acc pages).
Proof.
  induction pages as [|page pages IH]; intros script c acc Hm Hnb Hacc Hall.
  - reflexivity.
  - apply Forall_cons in Hall as [Hp Hall]. rewrite length_cons in Hnb.
    simpl map. rewrite <- app_comm_cons.
    rewrite (ApiFacts.loop_page lim method k page _ c acc) by (done || lia).
    simpl after_pages. apply IH; try done.
    + simpl. lia.
    + by apply ApiFacts.turn_page_merged.
Qed.

Lemma after_pages_state k pages : ∀ c acc,
  pages ≠ [] →
  merged_so_far k c acc →
  nb_chunks (after_pages k c acc pages) =
    nb_chunks c + Z.of_nat (length pages) ∧
  merged_so_far k (after_pages k c acc pages)
                (acc ++ concat (map fst pages)) ∧
  (∃ key, cur_params (after_pages k c acc pages) =
          dict_set "pagination_key" key (cur_params c)) ∧
  trace (after_pages k c acc pages) ++
    [EvRequest (cur_params (after_pages k c acc pages))] =
  trace c ++ paged_requests (cur_params c) pages.
Proof.
  induction pages as [|page pages IH]; intros c acc Hne Hacc; [done|].
  destruct pages as [|page' pages].
  - simpl. rewrite app_nil_r. split; [lia|].
    split; [by apply ApiFacts.turn_page_merged|].
    split; [by exists page.2|]. by rewrite <- app_assoc.
  - destruct (IH (turn_page k c acc page) (acc ++ page.1))
      as (Hn & Hm & (pg & Hp) & Htr);
      [done|by apply ApiFacts.turn_page_merged|].
    change (after_pages k c acc (page :: page' :: pages))
      with (after_pages k (turn_page k c acc page) (acc ++ page.1)
                        (page' :: pages)).
    set (c2 := after_pages k (turn_page k c acc page) (acc ++ page.1)
                           (page' :: pages)) in *.
    split.
    { rewrite Hn. unfold turn_page. simpl nb_chunks.
      rewrite !length_cons. lia. }
    split.
    { rewrite <- app_assoc in Hm. exact Hm. }
    split.
    { exists pg. rewrite Hp. unfold turn_page. simpl cur_params.
      apply dict_set_set. }
    rewrite Htr. unfold turn_page, paged_requests.
    simpl trace. simpl cur_params.
    rewrite <- !app_assoc. simpl. rewrite !dict_set_set.
    do 5 f_equal. apply List.map_ext. intros pg'. apply dict_set_set.
Qed.

(** X9: in a fetch that follows the pagination and returns, the first
    request carries the parameters of the call, the request after each
    chunk carries them with the [pagination_key] of that chunk, and when
    the call returns [pagination_key] is removed again: [params] is as the
    caller passed it. *)
Theorem pagination_key_follows_and_is_removed lim method (c : client) k
    (pages : list (list json * string)) (fin : response)
    (last_items : list json) :
  supported method →
  Z.of_nat (length pages) < max_chunks lim →
  Forall (fun page => plain k page.1) pages →
  plain k last_items →
  status_code fin = 200 →
  body fin = Some (mk_chunk k last_items) →
  more_to_come fin = None →
  dict_get "pagination_key" (cur_params c) = None →
  ∃ c' r,
    _url_get lim method (map (continued k) pages ++ [fin]) c = Done (Ok r) c' ∧
    trace c' = trace c ++ paged_requests (cur_params c) pages ∧
    cur_params c' = cur_params c.
Proof.
  intros Hm Hlen Hall Hlast Hst Hbody Hmore Habsent.
  destruct fin as [st bd te pk]. simpl in Hst, Hbody. subst st bd.
  unfold _url_get.
  set (c0 := Client (transfer_errors c) (http_status c) (cur_params c) 0 None
                    (trace c)).
  assert (merged_so_far k c0 []) as Hacc0 by (by repeat split).
  rewrite (loop_after_pages lim method k pages _ c0 []);
    [|done|simpl; lia|done|done].
  destruct (decide (pages = [])) as [->|Hne].
  - simpl. rewrite decide_True by lia.
    destruct method; [| |done];
      (rewrite (ApiFacts.merge_seed k last_items None Hlast), Hmore;
       unfold after_loop; simpl; rewrite decide_False by lia;
       eexists _, _; split; [reflexivity|]; simpl;
       split; [done|];
       clear -Habsent; induction (cur_params c) as [|[k0 v0] p IH];
       simpl in *; [done|];
       destruct (decide ("pagination_key" = k0)); [done|];
       by rewrite IH).
  - destruct (after_pages_state k pages c0 [] Hne Hacc0)
      as (Hn & Hacc & (pg & Hp) & Htr).
    set (c1 := after_pages k c0 [] pages) in *.
    simpl in Hn, Hp, Htr.
    simpl. rewrite decide_True by lia.
    destruct method; [| |done];
      (rewrite (ApiFacts.merge_so_far k c1 _ last_items Hacc Hlast), Hmore;
       unfold after_loop; simpl; rewrite decide_False by lia;
       eexists _, _; split; [reflexivity|]; simpl;
       split; [exact Htr|];
       rewrite Hp; by apply dict_del_set_absent).
Qed.

Lemma pagination_key_follows_and_is_removed_witness :
  ∃ c' r,
    _url_get (Limits 5 10) GET
      (map (continued Data) [([JNum 1], "k1"); ([JNum 2], "k2")] ++
       [Response 200 (Some (mk_chunk Data [JNum 3])) None None])
      (fresh_client [("user_email", "e")]) = Done (Ok r) c' ∧
    trace c' =
      [] ++ paged_requests [("user_email", "e")]
                           [([JNum 1], "k1"); ([JNum 2], "k2")] ∧
    cur_params c' = [("user_email", "e")].
Proof.
  apply (pagination_key_follows_and_is_removed (Limits 5 10) GET
           (fresh_client [("user_email", "e")]) Data
           [([JNum 1], "k1"); ([JNum 2], "k2")]
           (Response 200 (Some (mk_chunk Data [JNum 3])) None None)
           [JNum 3]);
    first [reflexivity | exact I | idtac].
  - repeat constructor.
  - by split.
Defined.

(** ** Keyword arguments *)

Lemma dict_get_snoc (d : params) (k k1 v1 : string) :
  dict_get k (d ++ [(k1, v1)]) =
  match dict_get k d with
  | Some v => Some v
  | None => if decide (k = k1) then Some v1 else None
  end.
Proof.
  induction d as [|[k' v'] d IH]; simpl; [done|].
  by destruct (decide (k = k')).
Qed.

Lemma update_with_last (extra : params) : ∀ (p : params) (k : string),
  dict_get k (update_with p extra) =
  match dict_get k (rev extra) with
  | Some v => Some v
  | None => dict_get k p
  end.
Proof.
  unfold update_with.
  induction extra as [|[k1 v1] extra IH]; intros p k; simpl; [done|].
  rewrite IH, dict_get_snoc.
  destruct (dict_get k (rev extra)); [done|].
  destruct (decide (k = k1)) as [->|Hne].
  - by rewrite dict_get_set_eq.
  - by rewrite dict_get_set_ne.
Qed.

Lemma dict_get_absent (d : params) (k : string) :
  k ∉ d.*1 → dict_get k d = None.
Proof.
  induction d as [|[k' v'] d IH]; simpl; [done|].
  intros Hn. apply not_elem_of_cons in Hn as [Hne Hn].
  rewrite decide_False by done. by apply IH.
Qed.

Lemma dict_get_rev (d : params) (k : string) :
  NoDup d.*1 → dict_get k (rev d) = dict_get k d.
Proof.
  induction d as [|[k' v'] d IH]; simpl; [done|].
  intros Hnd. apply NoDup_cons in Hnd as [Hn Hnd].
  rewrite dict_get_snoc, (IH Hnd).
  destruct (decide (k = k')) as [->|Hne].
  - by rewrite (dict_get_absent d k' Hn).
  - by destruct (dict_get k d).
Qed.

Lemma call_sent (lim : limits) (method : http_method) (kwargs base : params)
    (script : list response) (c : client) :
  NoDup kwargs.*1 →
  sent kwargs base c (call lim method (update_with base kwargs) script c).
Proof.
  intros Hnd. unfold call, _url_get. simpl.
  destruct (url_get_loop_kept lim method script
    (Client (transfer_errors c) (http_status c) (update_with base kwargs)
            0 None (trace c))) as (new & Htr & Hall & _).
  exists new. split; [exact Htr|].
  eapply Forall_impl; [exact Hall|].
  intros [p|] He; [|done]. simpl in *. intros k Hk.
  by rewrite (He k Hk), update_with_last, dict_get_rev.
Qed.

(** X22: the keyword arguments of [api_get] and [api_search] reach every
    request of the call, the first and the ones that follow the
    pagination, and win over the credentials of the configuration when
    they carry their names; [api_search] without [q_params] raises
    [IncorrectParameter] before any request. *)
Theorem keyword_arguments_reach_requests (lim : limits) (cfg : config)
    (kwargs : params) (script : list response) (c : client) :
  NoDup kwargs.*1 →
  sent kwargs (mandatory cfg) c (api_get lim cfg kwargs script c) ∧
  (∀ q_params,
     sent kwargs (mandatory cfg) c
          (api_search lim cfg (Some q_params) kwargs script c)) ∧
  api_search lim cfg None kwargs script c = Done (Raise IncorrectParameter) c.
Proof.
  intros Hnd. split; [by apply call_sent|].
  split; [|done]. intros q_params. by apply call_sent.
Qed.

Lemma keyword_arguments_reach_requests_witness :
  let cfg := Config "e@x.org" "secret" in
  let kwargs := [("user_pw", "other"); ("id", "7")] in
  let c := fresh_client [] in
  sent kwargs (mandatory cfg) c
       (api_get (Limits 5 10) cfg kwargs
                [continued Sightings ([JNum 1], "k1");
                 Response 200 (Some (mk_chunk Sightings [JNum 2])) None None] c) ∧
  api_search (Limits 5 10) cfg None kwargs [] c =
    Done (Raise IncorrectParameter) c.
Proof.
  intros cfg kwargs c.
  destruct (keyword_arguments_reach_requests (Limits 5 10) cfg kwargs
              [continued Sightings ([JNum 1], "k1");
               Response 200 (Some (mk_chunk Sightings [JNum 2])) None None] c) as (Hget & _ & _).
  { apply (bool_decide_unpack _). vm_compute. exact I. }
  split; [exact Hget|].
  apply (keyword_arguments_reach_requests (Limits 5 10) cfg kwargs [] c).
  apply (bool_decide_unpack _). vm_compute. exact I.
Defined.

(** X23: a list call answered by a body that cannot be decoded raises
    [KeyError]: [_url_get] returns the empty dict for it, after one
    request and with one error counted, and [_api_list] reads [data] from
    that dict. *)
Theorem api_list_undecodable_body (lim : limits) (cfg : config)
    (opt_params : option params) (c : client) (resp : response)
    (script : list response) :
  0 < max_chunks lim →
  transfer_errors c + 1 <= max_retry lim →
  status_code resp = 200 →
  body resp = None →
  more_to_come resp = None →
  ∃ c' p,
    _api_list lim cfg opt_params (resp :: script) c =
      Done (Raise KeyError) c' ∧
    transfer_errors c' = transfer_errors c + 1 ∧
    trace c' = trace c ++ [EvRequest p].
Proof.
  intros Hch Herr Hst Hbody Hmore.
  destruct resp as [st bd te pk]. simpl in Hst, Hbody. subst st bd.
  unfold _api_list, call, _url_get. simpl. rewrite decide_True by done.
  rewrite decide_False by (intros [_ H]; lia).
  rewrite Hmore. unfold after_loop. simpl.
  rewrite decide_False by lia. simpl.
  eexists _, _. split; [reflexivity|]. simpl. by split.
Qed.

Lemma api_list_undecodable_body_witness :
  ∃ c' p,
    _api_list (Limits 5 10) (Config "e@x.org" "secret") None
              [Response 200 None None None] (fresh_client []) =
      Done (Raise KeyError) c' ∧
    transfer_errors c' = 1 ∧
    trace c' = [EvRequest p].
Proof.
  apply (api_list_undecodable_body (Limits 5 10) (Config "e@x.org" "secret")
           None (fresh_client []) (Response 200 None None None) []);
    simpl; first [lia | reflexivity].
Defined.

(** ** The parameters of a list call *)

Lemma dict_set_keys (p : params) (k v x : string) :
  x ∈ (dict_set k v p).*1 ↔ x = k ∨ x ∈ p.*1.
Proof.
  induction p as [|[k' v'] p IH]; simpl.
  - rewrite list_elem_of_singleton. split; [by left|].
    intros [->|H]; [done|]. by apply elem_of_nil in H.
  - destruct (decide (k = k')) as [->|Hne]; simpl.
    + rewrite !elem_of_cons. tauto.
    + rewrite !elem_of_cons, IH. tauto.
Qed.

Lemma dict_set_NoDup (p : params) (k v : string) :
  NoDup p.*1 → NoDup (dict_set k v p).*1.
Proof.
  induction p as [|[k' v'] p IH]; simpl.
  - intros _. apply NoDup_singleton.
  - intros Hnd. apply NoDup_cons in Hnd as [Hn Hnd].
    destruct (decide (k = k')) as [->|Hne]; simpl.
    + by apply NoDup_cons.
    + apply NoDup_cons. split; [|by apply IH].
      rewrite dict_set_keys. intros [->|H]; done.
Qed.

Lemma update_with_NoDup (extra p : params) :
  NoDup p.*1 → NoDup (update_with p extra).*1.
Proof.
  unfold update_with. revert p.
  induction extra as [|[k v] extra IH]; intros p Hnd; simpl; [done|].
  apply IH. by apply dict_set_NoDup.
Qed.

(** X26: a keyword argument of the list call of the observations that is
    named [id_taxo_group] or [self] makes the call raise [TypeError]
    before any request, the session left as it was.  Otherwise every
    request, the first and the ones that follow the pagination, carries
    the keyword arguments as given, the taxo group, and the credentials of
    the configuration unless a keyword argument carries their names; and
    what the call leaves in the session is what [_url_get] left. *)
Theorem observations_list_requests (lim : limits) (cfg : config)
    (id_taxo_group : string) (kwargs : params) (script : list response)
    (c : client) :
  NoDup kwargs.*1 →
  (dict_mem "id_taxo_group" kwargs = true ∨ dict_mem "self" kwargs = true →
   observations_api_list lim cfg id_taxo_group kwargs script c =
   Done (Raise TypeError) c) ∧
  (dict_mem "id_taxo_group" kwargs = false →
   dict_mem "self" kwargs = false →
   sent kwargs (("id_taxo_group", id_taxo_group) :: mandatory cfg) c
        (observations_api_list lim cfg id_taxo_group kwargs script c) ∧
   (∀ p, EvRequest p ∈ drop (length (trace c))
                            (trace (client_of
                               (observations_api_list lim cfg id_taxo_group
                                                      kwargs script c))) →
         dict_get "id_taxo_group" p = Some id_taxo_group) ∧
   client_of (observations_api_list lim cfg id_taxo_group kwargs script c) =
   client_of (call lim GET
                (update_with (mandatory cfg)
                   (update_with [("id_taxo_group", id_taxo_group)] kwargs))
                script c)).
Proof.
  intros Hnd. split.
  { unfold observations_api_list. by intros [-> | ->]; [|rewrite orb_true_r]. }
  intros Hno1 Hno2.
  assert (Hbody :
    observations_api_list lim cfg id_taxo_group kwargs script c =
    _api_list lim cfg
      (Some (update_with [("id_taxo_group", id_taxo_group)] kwargs))
      script c).
  { unfold observations_api_list. by rewrite Hno1, Hno2. }
  assert (Hsame :
    client_of (observations_api_list lim cfg id_taxo_group kwargs script c) =
    client_of (call lim GET
                 (update_with (mandatory cfg)
                    (update_with [("id_taxo_group", id_taxo_group)] kwargs))
                 script c)).
  { rewrite Hbody. unfold _api_list.
    by destruct (call _ _ _ _ _) as [[v|e] c'|c']. }
  set (opt := update_with [("id_taxo_group", id_taxo_group)] kwargs) in *.
  assert (NoDup opt.*1) as Hopt.
  { apply update_with_NoDup. simpl. apply NoDup_singleton. }
  destruct (call_sent lim GET opt (mandatory cfg) script c Hopt)
    as (new & Htr & Hall).
  assert (Hcarried : Forall (carries kwargs
             (("id_taxo_group", id_taxo_group) :: mandatory cfg)) new).
  { eapply Forall_impl; [exact Hall|].
    intros [p|] He; [|done]. simpl in *. intros k Hk.
    rewrite (He k Hk). unfold opt.
    rewrite update_with_last, (dict_get_rev kwargs k Hnd).
    destruct (dict_get k kwargs); [done|]. simpl.
    by destruct (decide (k = "id_taxo_group")). }
  split; [|split; [|exact Hsame]].
  - exists new. rewrite Hsame. by split.
  - intros p Hin. rewrite Hsame, Htr, drop_app_length in Hin.
    rewrite Forall_forall in Hcarried. specialize (Hcarried _ Hin).
    simpl in Hcarried. rewrite (Hcarried "id_taxo_group") by done.
    unfold dict_mem in Hno1. apply bool_decide_eq_false in Hno1.
    destruct (dict_get "id_taxo_group" kwargs); [|done].
    exfalso. apply Hno1. by eexists.
Qed.

Lemma observations_list_requests_witness :
  let cfg := Config "e@x.org" "secret" in
  let kwargs := [("id_species", "12"); ("short_version", "1")] in
  let c := fresh_client [] in
  let script := [continued Sightings ([JNum 1], "k1");
                 Response 200 (Some (mk_chunk Sightings [JNum 2])) None None]
  in
  sent kwargs (("id_taxo_group", "1") :: mandatory cfg) c
       (observations_api_list (Limits 5 10) cfg "1" kwargs script c) ∧
  observations_api_list (Limits 5 10) cfg "1"
                        [("id_taxo_group", "2")] script c =
  Done (Raise TypeError) c.
Proof.
  intros cfg kwargs c script. split.
  - apply (observations_list_requests (Limits 5 10) cfg "1" kwargs script c);
      [apply (bool_decide_unpack _); vm_compute; exact I|done|done].
  - apply (observations_list_requests (Limits 5 10) cfg "1"
             [("id_taxo_group", "2")] script c);
      [apply (bool_decide_unpack _); vm_compute; exact I|by left].
Defined.

End ApiCallsFacts.

(** * Properties of the log of the API calls *)

Module ApiLogFacts.
Import Py Api ApiCalls ApiLog.

Lemma append_assoc (a b c : string) : (a +:+ b) +:+ c = a +:+ b +:+ c.
Proof.
  induction a as [|x a IH]; [reflexivity|].
  change (String x ((a +:+ b) +:+ c) = String x (a +:+ b +:+ c)).
  by rewrite IH.
Qed.

Lemma occurs_here (t post : string) : occurs t (t +:+ post).
Proof. by exists "", post. Qed.

Lemma occurs_alone (t : string) : occurs t t.
Proof.
  exists "", "". change (t = t +:+ "").
  induction t as [|x t IH]; [reflexivity|].
  change (String x t = String x (t +:+ "")). by rewrite <- IH.
Qed.

Lemma occurs_later (t pre s : string) : occurs t s → occurs t (pre +:+ s).
Proof.
  intros (pre' & post & ->). exists (pre +:+ pre'), post.
  by rewrite append_assoc.
Qed.

Lemma urlencode_last (quote : string → string) (k v : string) :
  urlencode quote [(k, v)] = quote k +:+ "=" +:+ quote v.
Proof. reflexivity. Qed.

Lemma urlencode_more (quote : string → string) (k v : string)
    (kv : string * string) (rest : params) :
  urlencode quote ((k, v) :: kv :: rest) =
  (quote k +:+ "=" +:+ quote v) +:+ "&" +:+ urlencode quote (kv :: rest).
Proof. reflexivity. Qed.

(** Every entry of the parameters is in the payload, as sent. *)
Lemma urlencode_entry (quote : string → string) (k v : string) :
  ∀ p : params, dict_get k p = Some v →
    occurs (quote k +:+ "=" +:+ quote v) (urlencode quote p).
Proof.
  induction p as [|[k' v'] rest IH]; [done|].
  intros Hget. simpl in Hget.
  destruct (decide (k = k')) as [<-|Hne].
  - injection Hget as ->. destruct rest as [|kv rest].
    + rewrite urlencode_last. apply occurs_alone.
    + rewrite urlencode_more. apply occurs_here.
  - destruct rest as [|kv rest]; [done|].
    rewrite urlencode_more. apply occurs_later, occurs_later. by apply IH.
Qed.

Lemma dict_get_rev_absent (d : params) (k : string) :
  dict_get k d = None → dict_get k (rev d) = None.
Proof.
  induction d as [|[k' v'] d IH]; simpl; [done|].
  destruct (decide (k = k')) as [->|Hne]; [done|].
  intros Hget. rewrite ApiCallsFacts.dict_get_snoc, (IH Hget).
  by rewrite decide_False.
Qed.

(** A [GET] or [POST] call that enters the loop sends its parameters
    first. *)
Lemma url_get_loop_first (lim : limits) (method : http_method)
    (script : list response) (c : client) :
  supported method →
  nb_chunks c < max_chunks lim →
  ∃ more,
    trace (client_of (url_get_loop lim method script c)) =
      trace c ++ EvRequest (cur_params c) :: more.
Proof.
  intros Hm Hlt.
  destruct script as [|resp script]; simpl; rewrite decide_True by done.
  - destruct method; [| |done]; by exists [].
  - destruct method; [| |done];
      destruct (body resp); cbv zeta; simpl fst; simpl snd;
      repeat first
        [ match goal with
          | |- context [decide ?P] => destruct (decide P)
          end
        | match goal with
          | |- context [match merge_chunk ?n ?a ?b with _ => _ end] =>
              destruct (merge_chunk n a b)
          end
        | match goal with
          | |- context [match more_to_come ?r with _ => _ end] =>
              destruct (more_to_come r)
          end ];
      try match goal with
          | |- context [url_get_loop ?l ?m ?s ?c'] =>
              destruct (ApiCallsFacts.url_get_loop_kept l m s c')
                as (new & -> & _)
          | |- context [after_loop ?l ?c'] =>
              destruct (ApiCallsFacts.after_loop_kept l c') as (new & -> & _)
          end;
      simpl; rewrite <- ?app_assoc; simpl; eexists; reflexivity.
Qed.

Lemma cleaned_value (p : params) :
  cleaned p = Ok (dict_set "user_pw" "***" (dict_set "user_email" "***" p)).
Proof.
  unfold cleaned. by rewrite (ApiFacts.clean_params_value [p] 0 p).
Qed.

(** With the root logger at [INFO], the payload line is emitted exactly
    when the logger of the module, or else the logger [transfer_vn], has a
    level of its own that lets [DEBUG] through. *)
Lemma payload_logged_iff (l : levels) :
  isEnabledFor (root_setLevel l INFO) DEBUG = true ↔
  (module_level l ≠ NOTSET ∧ module_level l <= DEBUG) ∨
  (module_level l = NOTSET ∧
   package_level l ≠ NOTSET ∧ package_level l <= DEBUG).
Proof.
  unfold isEnabledFor, getEffectiveLevel, root_setLevel, NOTSET, DEBUG, INFO.
  simpl. rewrite bool_decide_eq_true.
  repeat destruct (decide _); lia.
Qed.

Section Disclosure.

Variable quote : string → string.

Lemma payload_lines_off (l : levels) (requests : list event) :
  isEnabledFor (root_setLevel l INFO) DEBUG = false →
  payload_lines quote l requests = [].
Proof.
  intros Hoff. induction requests as [|[p|] requests IH]; simpl; [done| |done].
  unfold payload_line, debug. by rewrite Hoff.
Qed.

(** C10: [api_get] logs the masked copy, in which [user_email] and
    [user_pw] are ["***"], and then hands the parameters themselves to
    [_url_get], which logs their url-encoded form at [DEBUG] before the
    first request.  The root logger is at [INFO] at that point, so the line
    is dropped when no logger below the root has a level of its own; when
    the logger of the module or the logger [transfer_vn] lets [DEBUG]
    through, the line is emitted and the e-mail and the password of the
    configuration occur in it, unmasked.  The request carries them in
    either case. *)
Theorem url_get_logs_the_credentials (l : levels) (lim : limits)
    (cfg : config) (id_entity : string) (kwargs : params)
    (script : list response) (c : client) :
  0 < max_chunks lim →
  dict_get "user_email" kwargs = None →
  dict_get "user_pw" kwargs = None →
  ∃ masked payloads,
    api_get_lines quote l lim cfg id_entity kwargs script c =
      Ok (debug l "In api_get for controler:%s, with parameters:%s"
                [ArgStr id_entity; ArgParams masked] ++ payloads) ∧
    dict_get "user_email" masked = Some "***" ∧
    dict_get "user_pw" masked = Some "***" ∧
    (∃ p more,
       drop (length (trace c))
            (trace (client_of (api_get lim cfg kwargs script c))) =
         EvRequest p :: more ∧
       dict_get "user_email" p = Some (user_email cfg) ∧
       dict_get "user_pw" p = Some (user_pw cfg)) ∧
    (isEnabledFor (root_setLevel l INFO) DEBUG = true →
     ∃ payload rest,
       payloads = LogLine "Params: %s" [ArgStr payload] :: rest ∧
       occurs (quote "user_email" +:+ "=" +:+ quote (user_email cfg))
              payload ∧
       occurs (quote "user_pw" +:+ "=" +:+ quote (user_pw cfg)) payload) ∧
    (isEnabledFor (root_setLevel l INFO) DEBUG = false → payloads = []).
Proof.
  intros Hch Hemail Hpw.
  assert (Hsent : ∀ k, dict_get k kwargs = None →
            dict_get k (update_with (mandatory cfg) kwargs) =
            dict_get k (mandatory cfg)).
  { intros k Hk.
    by rewrite ApiCallsFacts.update_with_last, dict_get_rev_absent. }
  unfold api_get_lines. rewrite cleaned_value.
  destruct (url_get_loop_first lim GET script
              (Client (transfer_errors c) (http_status c)
                      (update_with (mandatory cfg) kwargs) 0 None (trace c)))
    as (more & Hmore); [done|simpl; lia|].
  simpl in Hmore.
  unfold api_get, call, _url_get. simpl.
  rewrite Hmore, drop_app_length.
  eexists _, _. split; [reflexivity|].
  split; [rewrite dict_get_set_ne by done; apply dict_get_set_eq|].
  split; [apply dict_get_set_eq|].
  split.
  { eexists _, _. split; [reflexivity|]. by rewrite !Hsent. }
  split.
  - intros Hon. simpl. unfold payload_line at 1, debug. rewrite Hon.
    eexists _, _. split; [reflexivity|].
    split; apply urlencode_entry; by rewrite Hsent.
  - apply payload_lines_off.
Qed.

End Disclosure.

(** A configuration whose credentials are made of unreserved characters,
    which [quote] leaves as they are; the logger [transfer_vn] is at
    [DEBUG], the root logger at [WARNING]. *)
Lemma url_get_logs_the_credentials_witness :
  ∃ masked payload,
    api_get_lines (fun s => s) (Levels NOTSET DEBUG WARNING) (Limits 5 10)
                  (Config "jdoe" "secret") "1" []
                  [Response 200 (Some (JDict [("data", JList [])])) None None]
                  (fresh_client []) =
      Ok [LogLine "In api_get for controler:%s, with parameters:%s"
                  [ArgStr "1"; ArgParams masked];
          LogLine "Params: %s" [ArgStr payload]] ∧
    masked = [("user_email", "***"); ("user_pw", "***")] ∧
    payload = "user_email=jdoe&user_pw=secret" ∧
    occurs "user_pw=secret" payload.
Proof.
  destruct (url_get_logs_the_credentials (fun s => s)
              (Levels NOTSET DEBUG WARNING) (Limits 5 10)
              (Config "jdoe" "secret") "1" []
              [Response 200 (Some (JDict [("data", JList [])])) None None]
              (fresh_client []))
    as (masked & payloads & Hlines & _ & _ & _ & Hon & _);
    [simpl; lia|reflexivity|reflexivity|].
  destruct (Hon eq_refl) as (payload & rest & -> & _ & Hpw).
  vm_compute in Hlines. injection Hlines as <- <- <-.
  eexists _, _. split; [reflexivity|]. split; [reflexivity|].
  split; [reflexivity|]. exact Hpw.
Defined.

End ApiLogFacts.

(* ===================================================================== *)
(** * Further properties of the downloads *)
(* ===================================================================== *)

Module DownloadMoreFacts.
Import Download DownloadMore.

(** ** The number of query windows *)

Lemma walk_span (t t' : Z) (ws : list window) :
  walk t ws t' →
  t' <= t - 10 * usec_per_day * Z.of_nat (length ws) ∧
  t - 2000 * usec_per_day * Z.of_nat (length ws) <= t' ∧
  (ws ≠ [] → min_date < t - 10 * usec_per_day * (Z.of_nat (length ws) - 1)).
Proof.
  assert (0 < usec_per_day) as HU by reflexivity.
  induction 1 as [t|t w ws t' Hmin Hto Hfrom Hd Hw (IH1 & IH2 & IH3)].
  - simpl. split; [lia|]. split; [lia|done].
  - rewrite length_cons.
    assert (10 * usec_per_day <= win_days w * usec_per_day)
      by (apply Z.mul_le_mono_nonneg_r; lia).
    assert (win_days w * usec_per_day <= 2000 * usec_per_day)
      by (apply Z.mul_le_mono_nonneg_r; lia).
    split; [lia|]. split; [lia|]. intros _.
    destruct ws as [|w' ws]; [simpl; lia|].
    specialize (IH3 ltac:(done)). rewrite length_cons in *. lia.
Qed.

Section WindowCount.

Context {pid : Type}.
Variable pid_call : pid → Z → pid * Q.
Variable search_and_store : Z → Z → Z → result Z.
Variable tuned : pid → Prop.
Hypothesis pid_bounds :
  ∀ s n, tuned s →
         tuned (pid_call s n).1 ∧
         (inject_Z 10 <= (pid_call s n).2 <= inject_Z 2000)%Q.

(** X10: the search loop of a partition issues at most one search per 10
    days between [now] and 1901-01-01, plus one, and when it completes it
    has issued at least one search per 2000 days of that span. *)
Theorem store_search_window_count (now : Z) (pid0 : pid) (fuel : nat) :
  tuned pid0 →
  0 <= now <= datetime_max →
  (search_fuel now <= fuel)%nat →
  ∃ r s',
    store_search_loop pid_call search_and_store fuel
                      (store_search_init now pid0) = Some (r, s') ∧
    (length (windows s') <= search_fuel now)%nat ∧
    (r = Ok () →
     now - min_date <= 2000 * usec_per_day * Z.of_nat (length (windows s'))).
Proof.
  intros Ht Hnow Hfuel.
  assert (0 < usec_per_day) as HU by reflexivity.
  destruct (DownloadFacts.store_search_loop_returns pid_call search_and_store
              tuned pid_bounds fuel (store_search_init now pid0) now)
    as (r & s' & Hrun & Hwalk & Hr); simpl; try done; try lia.
  { constructor. }
  exists r, s'. split; [exact Hrun|].
  destruct (walk_span _ _ _ Hwalk) as (H1 & H2 & H3).
  split.
  - unfold search_fuel. destruct (windows s') as [|w ws] eqn:Hws; [simpl; lia|].
    specialize (H3 ltac:(done)).
    assert (Z.of_nat (length (w :: ws)) - 1 <=
            (now - min_date) / (10 * usec_per_day)).
    { apply Z.div_le_lower_bound; lia. }
    lia.
  - intros ->. lia.
Qed.

End WindowCount.

Lemma store_search_window_count_witness :
  ∃ r s',
    _store_search (fun _ _ _ => Ok 10000) (min_date + 40 * usec_per_day) 10 =
      Some (r, s') ∧
    (length (windows s') <= search_fuel (min_date + 40 * usec_per_day))%nat ∧
    (r = Ok () →
     min_date + 40 * usec_per_day - min_date <=
     2000 * usec_per_day * Z.of_nat (length (windows s'))).
Proof.
  apply (store_search_window_count Regulator.PID_call
           (fun _ _ _ => Ok 10000)
           (fun p => Regulator.output_limits p = ((10 # 1)%Q, (2000 # 1)%Q))
           DownloadFacts.PID_call_limited
           (min_date + 40 * usec_per_day) search_pid 10).
  - reflexivity.
  - vm_compute. split; discriminate.
  - vm_compute. lia.
Defined.

(** ** [update] *)

Section UpdateMore.

Variable increment_get : json → option json.
Variable api_diff : json → json → result json.
Variable api_get : json → result json.

Lemma update_loop_reads_watermark (taxo_list : list json)
    (since since' : option json) (tr : list backend_event) :
  update_loop increment_get api_diff api_get true taxo_list since tr =
  update_loop increment_get api_diff api_get true taxo_list since' tr.
Proof. by destruct taxo_list. Qed.

(** X11: called without [since], [update] skips the taxo groups for which
    [increment_get] returns no watermark.  What it does for a list of
    groups (its result and the sequence of its calls of [increment_log],
    [api_diff], [api_get], [log], [store] and [delete_obs]) is what it does
    for the groups of the list that have a watermark; when no group has
    one it makes none of these calls.  The reads of the watermarks and the
    listing of the groups are not among the calls counted. *)
Theorem update_skips_groups_without_watermark (taxo_list : list json) :
  update increment_get api_diff api_get taxo_list None =
  update increment_get api_diff api_get
         (List.filter (fun taxo => bool_decide (is_Some (increment_get taxo)))
                      taxo_list) None ∧
  (List.filter (fun taxo => bool_decide (is_Some (increment_get taxo)))
               taxo_list = [] →
   update increment_get api_diff api_get taxo_list None = (Ok (), [])).
Proof.
  assert (Hloop : ∀ since tr,
    update_loop increment_get api_diff api_get true taxo_list since tr =
    update_loop increment_get api_diff api_get true
      (List.filter (fun taxo => bool_decide (is_Some (increment_get taxo)))
                   taxo_list) since tr).
  { induction taxo_list as [|taxo rest IH]; intros since tr; [done|].
    simpl List.filter.
    destruct (increment_get taxo) as [date|] eqn:Hget.
    - rewrite bool_decide_eq_true_2 by (by eexists).
      simpl. destruct (update_taxo _ _ _ _ _ _ _) as [[since'|e] tr'];
        [apply IH|done].
    - rewrite bool_decide_eq_false_2 by (by intros [? ?]).
      simpl. unfold update_taxo. rewrite Hget. simpl.
      rewrite IH. apply update_loop_reads_watermark. }
  split; [apply Hloop|].
  intros Hnone. unfold update. simpl. by rewrite Hloop, Hnone.
Qed.

(** X12: the watermark of a group is written before its diff is fetched.
    When the fetch raises, the exception leaves [update] with the
    watermark written, nothing stored or deleted for the group, and the
    groups after it in the list not visited. *)
Theorem update_stops_at_failed_diff (get_since : bool) (taxo date : json)
    (since : option json) (after : list json) (e : exn)
    (tr : list backend_event) :
  (if get_since then increment_get taxo else since) = Some date →
  api_diff taxo date = Raise e →
  update_loop increment_get api_diff api_get get_since (taxo :: after)
              since tr =
  (Raise e, tr ++ [IncrementLog taxo; ApiDiff taxo date]).
Proof.
  intros Hsince Hdiff. simpl. unfold update_taxo.
  rewrite Hsince. simpl. rewrite Hdiff. reflexivity.
Qed.

End UpdateMore.

Lemma update_skips_groups_without_watermark_witness :
  let increment_get := fun taxo =>
    if is_str "2" taxo then Some (JStr "Mon, 01 Jan 2018") else None in
  let api_diff := fun _ _ =>
    Ok (JList [JDict [("id_sighting", JStr "7");
                      ("modification_type", JStr "deleted")]]) in
  let api_get := fun _ => Raise (HTTPError (JNum 500)) in
  update increment_get api_diff api_get [JStr "1"; JStr "2"; JStr "3"] None =
    (Ok (),
     [IncrementLog (JStr "2"); ApiDiff (JStr "2") (JStr "Mon, 01 Jan 2018");
      DeleteObs [JStr "7"]]) ∧
  update (fun _ => None) api_diff api_get [JStr "1"; JStr "2"] None =
    (Ok (), []).
Proof.
  intros increment_get api_diff api_get. split.
  - rewrite (proj1 (update_skips_groups_without_watermark increment_get
                      api_diff api_get [JStr "1"; JStr "2"; JStr "3"])).
    reflexivity.
  - apply (update_skips_groups_without_watermark (fun _ => None) api_diff
             api_get [JStr "1"; JStr "2"]).
    reflexivity.
Defined.

Lemma update_stops_at_failed_diff_witness :
  update_loop (fun _ => Some (JStr "2019-01-01"))
              (fun _ _ => Raise (HTTPError (JNum 503)))
              (fun obs => Ok obs) true [JStr "1"; JStr "2"] None [] =
  (Raise (HTTPError (JNum 503)),
   [] ++ [IncrementLog (JStr "1"); ApiDiff (JStr "1") (JStr "2019-01-01")]).
Proof.
  apply (update_stops_at_failed_diff (fun _ => Some (JStr "2019-01-01"))
           (fun _ _ => Raise (HTTPError (JNum 503))) (fun obs => Ok obs)
           true (JStr "1") (JStr "2019-01-01") None [JStr "2"]
           (HTTPError (JNum 503)) []);
    reflexivity.
Defined.

(** ** [_list_taxo_groups] *)

Lemma list_active_spec (taxos : list json) : ∀ taxo_list,
  Forall (fun taxo => is_Some (taxo_entry taxo)) taxos →
  list_active taxos taxo_list = Ok (taxo_list ++ omap active_id taxos).
Proof.
  induction taxos as [|taxo taxos IH]; intros taxo_list Hall; simpl.
  - by rewrite app_nil_r.
  - apply Forall_cons in Hall as [[entry Hentry] Hall].
    unfold active_id. rewrite Hentry. unfold taxo_entry in Hentry.
    destruct (py_getitem taxo "access_mode") as [mode|]; [|done].
    destruct (py_getitem taxo "id") as [id|]; [|done].
    destruct (py_getitem taxo "name") as [name|]; [|done].
    injection Hentry as <-. simpl.
    destruct (is_str "none" mode); simpl.
    + by apply IH.
    + rewrite IH by done. by rewrite <- app_assoc.
Qed.

(** X13: with no taxo group given, [_list_taxo_groups] returns the ids of
    the groups whose [access_mode] is not ['none'], in the order of the
    list of the API; with a list it returns the list, with one group the
    list of that group, the API not being consulted. *)
Theorem list_taxo_groups_spec (api_list : result json)
    (taxo_groups : json) (taxos l : list json) (v : json) :
  (api_list = Ok taxo_groups →
   py_getitem taxo_groups "data" = Ok (JList taxos) →
   Forall (fun taxo => is_Some (taxo_entry taxo)) taxos →
   _list_taxo_groups api_list JNull = Ok (omap active_id taxos)) ∧
  _list_taxo_groups api_list (JList l) = Ok l ∧
  (v ≠ JNull → (∀ l', v ≠ JList l') →
   _list_taxo_groups api_list v = Ok [v]).
Proof.
  split; [|split].
  - intros -> Hdata Hall. simpl. rewrite Hdata. simpl.
    by rewrite list_active_spec.
  - reflexivity.
  - intros Hnull Hlist. destruct v; try done. by destruct (Hlist l0).
Qed.

Lemma list_taxo_groups_spec_witness :
  let taxo id mode :=
    JDict [("id", JStr id); ("name", JStr "n"); ("access_mode", JStr mode)] in
  _list_taxo_groups
    (Ok (JDict [("data", JList [taxo "1" "full"; taxo "2" "none";
                                taxo "3" "restricted"])]))
    JNull = Ok [JStr "1"; JStr "3"] ∧
  _list_taxo_groups (Raise (HTTPError (JNum 500))) (JStr "18") =
    Ok [JStr "18"].
Proof.
  intros taxo. split.
  - apply (proj1 (list_taxo_groups_spec
             (Ok (JDict [("data", JList [taxo "1" "full"; taxo "2" "none";
                                         taxo "3" "restricted"])]))
             (JDict [("data", JList [taxo "1" "full"; taxo "2" "none";
                                     taxo "3" "restricted"])])
             [taxo "1" "full"; taxo "2" "none"; taxo "3" "restricted"]
             [] JNull)).
    + reflexivity.
    + reflexivity.
    + repeat (apply Forall_cons; split; [by eexists|]). constructor.
  - apply (proj2 (proj2 (list_taxo_groups_spec
             (Raise (HTTPError (JNum 500))) JNull [] [] (JStr "18")))).
    + discriminate.
    + discriminate.
Defined.

(** ** The sequence numbers of the windows *)

Lemma numbered_snoc (ws : list window) (w : window) :
  numbered ws → win_seq w = Z.of_nat (length ws) + 1 → numbered (ws ++ [w]).
Proof.
  intros Hn Hw i w' Hi.
  apply lookup_app_Some in Hi as [Hi|[Hlen Hi]]; [by apply Hn|].
  apply list_lookup_singleton_Some in Hi as [Hi <-]. rewrite Hw. lia.
Qed.

Lemma numbered_distinct (ws : list window) :
  numbered ws → NoDup (map win_seq ws).
Proof.
  intros Hn. apply NoDup_alt. intros i j x Hi Hj.
  rewrite list_lookup_fmap in Hi, Hj.
  destruct (ws !! i) as [wi|] eqn:Hwi; [|done].
  destruct (ws !! j) as [wj|] eqn:Hwj; [|done].
  simpl in Hi, Hj. apply Hn in Hwi, Hwj.
  injection Hi as <-. injection Hj as Hj. lia.
Qed.

Section WindowNumbers.

Context {pid : Type}.
Variable pid_call : pid → Z → pid * Q.
Variable search_and_store : Z → Z → Z → result Z.
Variable tuned : pid → Prop.
Hypothesis pid_bounds :
  ∀ s n, tuned s →
         tuned (pid_call s n).1 ∧
         (inject_Z 10 <= (pid_call s n).2 <= inject_Z 2000)%Q.

Lemma store_search_loop_numbers (fuel : nat) : ∀ (s : search_state) r s',
  seq s = Z.of_nat (length (windows s)) + 1 →
  numbered (windows s) →
  store_search_loop pid_call search_and_store fuel s = Some (r, s') →
  numbered (windows s').
Proof.
  induction fuel as [|fuel IH]; intros s r s' Hseq Hn; simpl.
  - destruct (decide _); [done|]. by intros [= _ <-].
  - destruct (decide _); [|by intros [= _ <-]].
    destruct (minus_days _ _) as [start|e]; [|by intros [= _ <-]].
    destruct (search_and_store _ _ _) as [nb_obs|e].
    + apply IH; simpl.
      * rewrite length_app. simpl. lia.
      * by apply numbered_snoc.
    + intros [= _ <-]. simpl. by apply numbered_snoc.
Qed.

(** X24: the searches of a partition are numbered 1, 2, 3, ... in the
    order they are issued, whether the loop completes or a search raises:
    no two windows of the partition carry the same sequence number. *)
Theorem store_search_numbers_windows (now : Z) (pid0 : pid) (fuel : nat) :
  tuned pid0 →
  0 <= now <= datetime_max →
  (search_fuel now <= fuel)%nat →
  ∃ r s',
    store_search_loop pid_call search_and_store fuel
                      (store_search_init now pid0) = Some (r, s') ∧
    numbered (windows s') ∧
    NoDup (map win_seq (windows s')).
Proof.
  intros Ht Hnow Hfuel.
  destruct (DownloadFacts.store_search_loop_returns pid_call search_and_store
              tuned pid_bounds fuel (store_search_init now pid0) now)
    as (r & s' & Hrun & _); simpl; try done; try lia.
  { constructor. }
  exists r, s'. split; [exact Hrun|].
  assert (numbered (windows s')) as Hn.
  { apply (store_search_loop_numbers fuel (store_search_init now pid0) r s');
      [done| |exact Hrun].
    intros i w Hi. done. }
  split; [exact Hn|by apply numbered_distinct].
Qed.

End WindowNumbers.

Lemma store_search_numbers_windows_witness :
  ∃ r s',
    _store_search (fun _ _ seq => if decide (seq = 3) then Raise KeyError
                                  else Ok 10000)
                  (min_date + 40 * usec_per_day) 10 = Some (r, s') ∧
    numbered (windows s') ∧
    NoDup (map win_seq (windows s')).
Proof.
  apply (store_search_numbers_windows Regulator.PID_call
           (fun _ _ seq => if decide (seq = 3) then Raise KeyError
                           else Ok 10000)
           (fun p => Regulator.output_limits p = ((10 # 1)%Q, (2000 # 1)%Q))
           DownloadFacts.PID_call_limited
           (min_date + 40 * usec_per_day) search_pid 10).
  - reflexivity.
  - vm_compute. split; discriminate.
  - vm_compute. lia.
Defined.

(** ** The counts fed to the regulator *)

Section WindowWidths.

Context {pid : Type}.
Variable pid_call : pid → Z → pid * Q.
Variable search_and_store : Z → Z → Z → result Z.
Variable tuned : pid → Prop.
Hypothesis pid_bounds :
  ∀ s n, tuned s →
         tuned (pid_call s n).1 ∧
         (inject_Z 10 <= (pid_call s n).2 <= inject_Z 2000)%Q.
Variable pid0 : pid.

Lemma widths_regulated_snoc (ws : list window) (w : window) :
  widths_regulated pid_call search_and_store pid0 ws →
  win_days w = (regulated pid_call search_and_store pid0 ws).2 →
  widths_regulated pid_call search_and_store pid0 (ws ++ [w]).
Proof.
  intros Hws Hw i w' Hi.
  apply lookup_app_Some in Hi as [Hi|[Hlen Hi]].
  - rewrite take_app_le by (apply lookup_lt_Some in Hi; lia). by apply Hws.
  - apply list_lookup_singleton_Some in Hi as [Hi <-].
    assert (i = length ws) as -> by lia.
    by rewrite take_app_length.
Qed.

Lemma regulated_snoc (ws : list window) (w : window) (nb_obs : Z) :
  stored_count search_and_store w = Some nb_obs →
  regulated pid_call search_and_store pid0 (ws ++ [w]) =
  regulate pid_call (regulated pid_call search_and_store pid0 ws) nb_obs.
Proof.
  intros Hw. unfold regulated. rewrite omap_app. simpl. rewrite Hw. simpl.
  by rewrite fold_left_app.
Qed.

Lemma store_search_loop_widths (fuel : nat) : ∀ (s : search_state) r s',
  store_search_loop pid_call search_and_store fuel s = Some (r, s') →
  (regulator s, delta_days s) =
    regulated pid_call search_and_store pid0 (windows s) →
  widths_regulated pid_call search_and_store pid0 (windows s) →
  widths_regulated pid_call search_and_store pid0 (windows s') ∧
  (r = Ok () →
   (regulator s', delta_days s') =
     regulated pid_call search_and_store pid0 (windows s')).
Proof.
  induction fuel as [|fuel IH]; intros s r s' Hrun Hst Hws; simpl in Hrun.
  - destruct (decide _); [done|]. by injection Hrun as <- <-.
  - destruct (decide _); [|by injection Hrun as <- <-].
    destruct (minus_days _ _) as [start|e] eqn:Hstart;
      [|by injection Hrun as <- <-].
    set (w := Window start (end_date s) (seq s) (delta_days s)) in *.
    assert (win_days w =
            (regulated pid_call search_and_store pid0 (windows s)).2) as Hw
      by (by rewrite <- Hst).
    destruct (search_and_store _ _ _) as [nb_obs|e] eqn:Hstore.
    + apply IH in Hrun; [done| |by apply widths_regulated_snoc].
      simpl. rewrite (regulated_snoc _ w nb_obs), <- Hst.
      * reflexivity.
      * unfold stored_count. simpl. by rewrite Hstore.
    + injection Hrun as <- <-. simpl.
      split; [by apply widths_regulated_snoc|done].
Qed.

Lemma length_omap_all {A B : Type} (f : A → option B) (l : list A) :
  Forall (fun x => is_Some (f x)) l → length (omap f l) = length l.
Proof.
  induction 1 as [|x l [y Hy] _ IH]; simpl; [done|].
  rewrite Hy. simpl. f_equal. exact IH.
Qed.

Lemma store_search_loop_all_stored (fuel : nat) : ∀ (s s' : search_state),
  store_search_loop pid_call search_and_store fuel s = Some (Ok (), s') →
  Forall (fun w => is_Some (stored_count search_and_store w)) (windows s) →
  Forall (fun w => is_Some (stored_count search_and_store w)) (windows s').
Proof.
  induction fuel as [|fuel IH]; intros s s'; simpl.
  - destruct (decide _); [done|]. by intros [= <-].
  - destruct (decide _); [|by intros [= <-]].
    destruct (minus_days _ _) as [start|e]; [|done].
    destruct (search_and_store _ _ _) as [nb_obs|e] eqn:Hstore; [|done].
    intros Hrun Hall. apply (IH _ _ Hrun). simpl.
    apply Forall_app. split; [done|].
    constructor; [|constructor]. unfold stored_count. simpl.
    rewrite Hstore. by eexists.
Qed.

(** X28: in the search loop of a taxo group the first window is 15 days
    wide and every later one is as wide as the integer part of what the
    regulator returned when it was fed, window after window and in order,
    the counts the stores of the windows before it returned; this holds of
    every regulator whose output stays between 10 and 2000.  When the loop
    completes, the regulator has been fed the count of every window,
    once. *)
Theorem window_widths_follow_the_counts (now : Z) (fuel : nat) :
  tuned pid0 →
  0 <= now <= datetime_max →
  (search_fuel now <= fuel)%nat →
  ∃ r s',
    store_search_loop pid_call search_and_store fuel
                      (store_search_init now pid0) = Some (r, s') ∧
    widths_regulated pid_call search_and_store pid0 (windows s') ∧
    (r = Ok () →
     (regulator s', delta_days s') =
       regulated pid_call search_and_store pid0 (windows s') ∧
     length (omap (stored_count search_and_store) (windows s')) =
       length (windows s')).
Proof.
  intros Ht Hnow Hfuel.
  destruct (DownloadFacts.store_search_loop_returns pid_call search_and_store
              tuned pid_bounds fuel (store_search_init now pid0) now)
    as (r & s' & Hrun & _ & Hend); simpl; try done; try lia.
  { constructor. }
  exists r, s'. split; [exact Hrun|].
  destruct (store_search_loop_widths fuel (store_search_init now pid0) r s'
              Hrun) as [Hws Hst]; [done|by intros i w Hi|].
  split; [exact Hws|]. intros ->. split; [by apply Hst|].
  apply length_omap_all.
  by apply (store_search_loop_all_stored fuel (store_search_init now pid0)).
Qed.

End WindowWidths.

Lemma window_widths_follow_the_counts_witness :
  let search_and_store := fun (_ _ : Z) seq =>
    if decide (seq = 2) then Ok 25000 else Ok 0 in
  ∃ r s',
    _store_search search_and_store (min_date + 100 * usec_per_day) 12 =
      Some (r, s') ∧
    widths_regulated Regulator.PID_call search_and_store search_pid
                     (windows s') ∧
    map win_days (windows s') =
      15 :: map (fun n => (regulated Regulator.PID_call search_and_store
                             search_pid (take n (windows s'))).2)
                (List.seq 1 (length (windows s') - 1)).
Proof.
  intros search_and_store.
  destruct (window_widths_follow_the_counts Regulator.PID_call
              search_and_store
              (fun p => Regulator.output_limits p = ((10 # 1)%Q, (2000 # 1)%Q))
              DownloadFacts.PID_call_limited search_pid
              (min_date + 100 * usec_per_day) 12)
    as (r & s' & Hrun & Hws & _).
  - reflexivity.
  - vm_compute. split; discriminate.
  - vm_compute. lia.
  - exists r, s'. split; [exact Hrun|]. split; [exact Hws|].
    unfold _store_search in *. vm_compute in Hrun.
    injection Hrun as <- <-. vm_compute. reflexivity.
Defined.

End DownloadMoreFacts.

(* ===================================================================== *)
(** * Further properties of the store *)
(* ===================================================================== *)

Module StoreMoreFacts.
Import Store StoreMore.

(** ** Keys and rows *)

Lemma has_key_true (id : Z) (site : string) (r : row) :
  has_key id site r = true ↔ row_id r = id ∧ row_site r = site.
Proof. unfold has_key. by rewrite bool_decide_eq_true. Qed.

Lemma has_key_other (id id' : Z) (site site' : string) (r : row) :
  (id', site') ≠ (id, site) →
  has_key id site r = true → has_key id' site' r = false.
Proof.
  intros Hne [Hid Hsite]%has_key_true.
  apply bool_decide_eq_false. intros [Hid' Hsite']. apply Hne. congruence.
Qed.

Lemma present_key (t : table) (id : Z) (site : string) :
  count_key id site t ≠ 0%nat →
  ∃ r, select_one t id site = Some r ∧ has_key id site r = true.
Proof.
  unfold count_key, select_one.
  induction t as [|r t IH]; simpl; [done|].
  destruct (has_key id site r) eqn:Hk; [by exists r|]. exact IH.
Qed.

(** An update that keeps the key of the rows it rewrites keeps the rows of
    every key where they are. *)
Lemma update_where_counts (t : table) (id : Z) (site : string)
    (values : row → row) :
  (∀ r, has_key id site r = true → has_key id site (values r) = true) →
  length (update_where t id site values) = length t ∧
  count_key id site (update_where t id site values) = count_key id site t ∧
  same_other_rows id site t (update_where t id site values) ∧
  ∀ r, select_one t id site = Some r →
       select_one (update_where t id site values) id site = Some (values r).
Proof.
  intros Hkeep. unfold update_where, count_key, select_one, same_other_rows.
  induction t as [|r t (IH1 & IH2 & IH3 & IH4)]; simpl.
  { repeat split; try done. }
  destruct (has_key id site r) eqn:Hk; simpl.
  - rewrite (Hkeep r Hk). simpl.
    split; [by rewrite IH1|]. split; [by rewrite IH2|].
    split; [|by intros r' [= <-]].
    intros id' site' Hne.
    rewrite (has_key_other id id' site site' r Hne Hk).
    rewrite (has_key_other id id' site site' (values r) Hne (Hkeep r Hk)).
    by apply IH3.
  - rewrite Hk. split; [by rewrite IH1|]. split; [exact IH2|].
    split; [|exact IH4].
    intros id' site' Hne. rewrite (IH3 id' site' Hne). reflexivity.
Qed.

Section UpsertFacts.

Variable as_integer : json → option Z.

(** The block "select, then insert or update" on any table that honours
    its primary key. *)
Lemma upsert_keeps_keys (t : table) (site : string) (v : json) (id : Z)
    (fresh : Z → row) (values : Z → row → row) :
  as_integer v = Some id →
  has_key id site (fresh id) = true →
  (∀ r, has_key id site r = true → has_key id site (values id r) = true) →
  unique_keys t →
  ∃ t',
    upsert as_integer t site v fresh values = Ok t' ∧
    unique_keys t' ∧
    count_key id site t' = 1%nat ∧
    same_other_rows id site t t' ∧
    select_one t' id site =
      Some (match select_one t id site with
            | Some r => values id r
            | None => fresh id
            end).
Proof.
  intros Hv Hfresh Hkeep Huniq.
  assert (Hfrom : ∀ t', count_key id site t' = 1%nat →
                        same_other_rows id site t t' → unique_keys t').
  { intros t' H1 Hsame id' site'.
    destruct (decide ((id', site') = (id, site))) as [[= -> ->]|Hne].
    - by rewrite H1.
    - unfold count_key. rewrite (Hsame id' site' Hne). apply Huniq. }
  unfold upsert, bind_integer. rewrite Hv. simpl.
  destruct (decide (count_key id site t = 0%nat)) as [H0|Hn0].
  - destruct (StoreFacts.absent_key t id site H0) as (Hs & He & _ & Hm).
    rewrite Hs. unfold insert.
    apply has_key_true in Hfresh as Hkey. destruct Hkey as [Hid Hsite].
    rewrite Hid, Hsite, He. eexists. split; [reflexivity|].
    assert (count_key id site (t ++ [fresh id]) = 1%nat) as H1.
    { rewrite StoreFacts.count_key_snoc, H0, Hfresh. reflexivity. }
    assert (same_other_rows id site t (t ++ [fresh id])) as Hsame.
    { intros id' site' Hne. rewrite List.filter_app. simpl.
      rewrite (has_key_other _ _ _ _ _ Hne Hfresh). by rewrite app_nil_r. }
    split; [by apply Hfrom|]. split; [done|]. split; [done|].
    rewrite Hm. unfold select_one. simpl. by rewrite Hfresh.
  - destruct (present_key t id site Hn0) as (r & Hsel & Hk).
    rewrite Hsel.
    destruct (update_where_counts t id site (values id) Hkeep)
      as (_ & Hc & Hsame & Hfind).
    pose proof (Huniq id site) as Hle.
    eexists. split; [reflexivity|].
    assert (count_key id site (update_where t id site (values id)) = 1%nat)
      as H1 by lia.
    split; [by apply Hfrom|]. split; [done|]. split; [done|].
    by apply Hfind.
Qed.

End UpsertFacts.

Lemma upsert_keeps_rows (t t' : table) (id : Z) (site : string) :
  count_key id site t' = 1%nat →
  same_other_rows id site t t' →
  ∀ id' site', count_key id' site' t = 1%nat → count_key id' site' t' = 1%nat.
Proof.
  intros H1 Hsame id' site' Hc.
  destruct (decide ((id', site') = (id, site))) as [[= -> ->]|Hne]; [done|].
  unfold count_key in *. by rewrite (Hsame id' site' Hne).
Qed.

Section StorePaths.

Variable site : string.
Variable as_integer : json → option Z.
Variable transform : string → string → json → json → json * json.

(** X14: on any table that honours its primary key, storing an observation
    succeeds (the insert cannot violate the key), leaves one row for its
    key and the key honoured, leaves the rows of every other key as they
    were, and a select of the key then returns the stored record with its
    update timestamp. *)
Theorem observation_store_then_select (item : ObservationItem) (t : table)
    (v elem ts : json) (id : Z) :
  localized transform item = Ok (v, elem, ts) →
  as_integer v = Some id →
  unique_keys t →
  ∃ t' r,
    store_1_observation as_integer transform item t = Ok t' ∧
    unique_keys t' ∧
    count_key id (item_site item) t' = 1%nat ∧
    same_other_rows id (item_site item) t t' ∧
    select_one t' id (item_site item) = Some r ∧
    row_item r = elem ∧ row_update_ts r = Some ts.
Proof.
  intros Hloc Hv Huniq. unfold store_1_observation. rewrite Hloc. simpl.
  assert (Hkeep : ∀ r, has_key id (item_site item) r = true →
            has_key id (item_site item)
                    (Row (row_id r) (row_site r) elem (Some ts)) = true).
  { intros r Hk. apply has_key_true in Hk as [Hid Hsite].
    apply has_key_true. by simpl. }
  destruct (upsert_keeps_keys as_integer t (item_site item) v id
              (fun id => Row id (item_site item) elem (Some ts))
              (fun _ r => Row (row_id r) (row_site r) elem (Some ts))
              Hv (StoreFacts.has_key_same _ _ _ _) Hkeep Huniq)
    as (t' & Hup & Hu & H1 & Hsame & Hsel).
  eexists t', _. split; [exact Hup|]. split; [done|]. split; [done|].
  split; [done|]. split; [exact Hsel|].
  by destruct (select_one t id (item_site item)).
Qed.

Lemma store_elems_keeps_keys (controler type : string) (elems : list json) :
  ∀ d : db,
  dict_get controler table_types = Some type →
  Forall (castable as_integer) elems →
  unique_keys (tables d controler) →
  ∃ d',
    store_elems site as_integer controler elems d = Ok d' ∧
    unique_keys (tables d' controler) ∧
    (∀ c, c ≠ controler → tables d' c = tables d c) ∧
    uuid_xref d' = uuid_xref d ∧
    observations_queue d' = observations_queue d ∧
    (∀ id, count_key id site (tables d controler) = 1%nat →
           count_key id site (tables d' controler) = 1%nat) ∧
    Forall (stored_once as_integer site (tables d' controler)) elems.
Proof.
  induction elems as [|elem elems IH]; intros d Hc Hall Huniq.
  - exists d. simpl. by repeat split.
  - apply Forall_cons in Hall as [(v & id & Hid & Hv) Hall].
    simpl. rewrite (StoreFacts.known_controler _ _ Hc). simpl.
    rewrite Hid. simpl.
    destruct (upsert_keeps_keys as_integer (tables d controler) site v id
                (fun id => Row id site elem None)
                (fun id r => Row id site elem (row_update_ts r))
                Hv (StoreFacts.has_key_same _ _ _ _)
                (fun r _ => StoreFacts.has_key_same _ _ _ _) Huniq)
      as (t' & Hup & Hu & H1 & Hsame & _).
    rewrite Hup. simpl.
    destruct (IH (set_table d controler t') Hc Hall)
      as (d' & Hrun & Hu' & Hother & Hx & Hq & Hkeep & Hstored).
    { by rewrite StoreFacts.set_table_same. }
    rewrite StoreFacts.set_table_same in Hkeep.
    exists d'. split; [exact Hrun|]. split; [done|].
    split.
    { intros c Hne. rewrite (Hother c Hne). simpl. by rewrite decide_False. }
    split; [done|]. split; [done|].
    split.
    { intros id' Hc1. apply Hkeep.
      by apply (upsert_keeps_rows (tables d controler) t' id site). }
    constructor; [|done].
    intros v' id' Hid' Hv'. rewrite Hid in Hid'. injection Hid' as <-.
    rewrite Hv in Hv'. injection Hv' as <-. by apply Hkeep.
Qed.

(** X15: [_store_simple] of any list of records with ids, on a table that
    honours its primary key: it returns the number of records, the key is
    still honoured, each record's key has one row even when the list
    repeats an id, and no other table, the identity rows and the queue are
    not touched. *)
Theorem store_simple_keeps_primary_key (controler type : string)
    (items_dict : json) (elems : list json) (d : db) :
  dict_get controler table_types = Some type →
  py_getitem items_dict "data" = Ok (JList elems) →
  Forall (castable as_integer) elems →
  unique_keys (tables d controler) →
  ∃ d',
    _store_simple site as_integer controler items_dict d =
      Ok (d', Z.of_nat (length elems)) ∧
    unique_keys (tables d' controler) ∧
    Forall (stored_once as_integer site (tables d' controler)) elems ∧
    (∀ c, c ≠ controler → tables d' c = tables d c) ∧
    uuid_xref d' = uuid_xref d ∧
    observations_queue d' = observations_queue d.
Proof.
  intros Hc Hdata Hall Huniq.
  destruct (store_elems_keeps_keys controler type elems d Hc Hall Huniq)
    as (d' & Hrun & Hu & Hother & Hx & Hq & _ & Hstored).
  exists d'. unfold _store_simple. rewrite Hdata. simpl. rewrite Hrun.
  by repeat split.
Qed.

End StorePaths.

Lemma observation_store_then_select_witness :
  ∃ t' r,
    store_1_observation plain_cast no_projection
      (MkItem "vn" "observations" (sighting 42 2) "epsg:4326" "epsg:2154")
      [Row 42 "vn" (sighting 42 1) (Some (JNum 1));
       Row 42 "other" (sighting 42 1) (Some (JNum 1))] = Ok t' ∧
    unique_keys t' ∧
    count_key 42 "vn" t' = 1%nat ∧
    same_other_rows 42 "vn"
      [Row 42 "vn" (sighting 42 1) (Some (JNum 1));
       Row 42 "other" (sighting 42 1) (Some (JNum 1))] t' ∧
    select_one t' 42 "vn" = Some r ∧
    row_item r = no_projection_of (sighting 42 2) ∧
    row_update_ts r = Some (JNum 2).
Proof.
  apply (observation_store_then_select plain_cast no_projection
           (MkItem "vn" "observations" (sighting 42 2) "epsg:4326"
                   "epsg:2154")
           [Row 42 "vn" (sighting 42 1) (Some (JNum 1));
            Row 42 "other" (sighting 42 1) (Some (JNum 1))]
           (JNum 42) (no_projection_of (sighting 42 2)) (JNum 2) 42).
  - reflexivity.
  - reflexivity.
  - intros id site. unfold count_key, has_key. simpl.
    repeat case_bool_decide; simpl; try lia.
    destruct_and!. congruence.
Defined.

Lemma store_simple_keeps_primary_key_witness :
  ∃ d',
    _store_simple "vn" plain_cast "places"
      (JDict [("data", JList [place 3 "a"; place 4 "b"; place 3 "c"])])
      empty_db = Ok (d', Z.of_nat 3) ∧
    unique_keys (tables d' "places") ∧
    Forall (stored_once plain_cast "vn" (tables d' "places"))
           [place 3 "a"; place 4 "b"; place 3 "c"] ∧
    (∀ c, c ≠ "places" → tables d' c = tables empty_db c) ∧
    uuid_xref d' = uuid_xref empty_db ∧
    observations_queue d' = observations_queue empty_db.
Proof.
  apply (store_simple_keeps_primary_key "vn" plain_cast "places" "geometry"
           (JDict [("data", JList [place 3 "a"; place 4 "b"; place 3 "c"])])
           [place 3 "a"; place 4 "b"; place 3 "c"] empty_db).
  - reflexivity.
  - reflexivity.
  - repeat (apply Forall_cons; split; [by eexists _, _|]). constructor.
  - intros id site. unfold count_key. simpl. lia.
Defined.

(** ** [delete_obs] *)

Lemma delete_where_spec (t : table) (id : Z) (site : string) :
  count_key id site (delete_where t id site).1 = 0%nat ∧
  same_other_rows id site t (delete_where t id site).1 ∧
  (delete_where t id site).2 =
    Z.of_nat (length t) - Z.of_nat (length (delete_where t id site).1) ∧
  ∀ id' site', (count_key id' site' (delete_where t id site).1 <=
                count_key id' site' t)%nat.
Proof.
  unfold delete_where, count_key, same_other_rows. simpl.
  induction t as [|r t (IH1 & IH2 & IH3 & IH4)]; simpl.
  { repeat split; try done. }
  destruct (has_key id site r) eqn:Hk; simpl.
  - split; [done|]. split.
    { intros id' site' Hne. rewrite (has_key_other _ _ _ _ _ Hne Hk).
      by apply IH2. }
    split; [lia|]. intros id' site'. specialize (IH4 id' site').
    destruct (has_key id' site' r); simpl; lia.
  - rewrite Hk. split; [done|]. split.
    { intros id' site' Hne. by rewrite (IH2 id' site' Hne). }
    split; [lia|]. intros id' site'. specialize (IH4 id' site').
    destruct (has_key id' site' r); simpl; lia.
Qed.

Section DeleteFacts.

Variable site : string.
Variable as_integer : json → option Z.

Lemma delete_obs_step (obs : json) (rest : list json) (d : db) (nb id : Z) :
  as_integer obs = Some id →
  delete_obs site as_integer (obs :: rest) d nb =
  delete_obs site as_integer rest
    (set_table d "observations"
       (delete_where (tables d "observations") id site).1)
    (nb + (delete_where (tables d "observations") id site).2).
Proof. intros Hid. simpl. unfold bind_integer. by rewrite Hid. Qed.

Lemma delete_obs_spec (obs_list : list json) : ∀ (d : db) (nb : Z),
  Forall (fun obs => is_Some (as_integer obs)) obs_list →
  ∃ d',
    delete_obs site as_integer obs_list d nb =
      Ok (d', nb + (Z.of_nat (length (tables d "observations")) -
                    Z.of_nat (length (tables d' "observations")))) ∧
    Forall (fun obs => ∀ id, as_integer obs = Some id →
              count_key id site (tables d' "observations") = 0%nat)
           obs_list ∧
    (∀ id' site',
       site' ≠ site ∨ Forall (fun obs => as_integer obs ≠ Some id') obs_list →
       List.filter (has_key id' site') (tables d' "observations") =
       List.filter (has_key id' site') (tables d "observations")) ∧
    (∀ id' site', (count_key id' site' (tables d' "observations") <=
                   count_key id' site' (tables d "observations"))%nat) ∧
    (∀ c, c ≠ "observations" → tables d' c = tables d c) ∧
    uuid_xref d' = uuid_xref d.
Proof.
  induction obs_list as [|obs rest IH]; intros d nb Hall.
  - exists d. simpl. split; [f_equal; f_equal; lia|]. by repeat split.
  - apply Forall_cons in Hall as [[id Hid] Hall].
    rewrite (delete_obs_step obs rest d nb id Hid).
    destruct (delete_where_spec (tables d "observations") id site)
      as (H0 & Hsame & Hcount & Hle).
    set (t1 := (delete_where (tables d "observations") id site).1) in *.
    destruct (IH (set_table d "observations" t1)
                 (nb + (delete_where (tables d "observations") id site).2)
                 Hall)
      as (d' & Hrun & Hgone & Hkept & Hle' & Hother & Hx).
    rewrite StoreFacts.set_table_same in *.
    exists d'. split.
    { rewrite Hrun. f_equal. f_equal. lia. }
    split.
    { constructor; [|done]. intros id' Hid'.
      rewrite Hid in Hid'. injection Hid' as <-.
      specialize (Hle' id site). lia. }
    split.
    { intros id' site' Hcond. rewrite Hkept.
      - apply Hsame. intros [= -> ->].
        destruct Hcond as [Hs|Hf]; [done|].
        apply Forall_cons in Hf as [Hf _]. done.
      - destruct Hcond as [Hs|Hf]; [by left|right].
        by apply Forall_cons in Hf as [_ Hf]. }
    split.
    { intros id' site'. specialize (Hle' id' site').
      specialize (Hle id' site'). lia. }
    split.
    { intros c Hne. rewrite (Hother c Hne). simpl. by rewrite decide_False. }
    done.
Qed.

(** X16: [delete_obs] of a list of ids removes, from the observations of
    the site, every row of these ids and no other row: rows of other ids
    and rows of other sites stay where they are, the count returned is the
    number of rows removed, and no other table changes. *)
Theorem delete_obs_removes_only_the_ids (obs_list : list json) (d : db) :
  Forall (fun obs => is_Some (as_integer obs)) obs_list →
  ∃ d',
    delete_obs site as_integer obs_list d 0 =
      Ok (d', Z.of_nat (length (tables d "observations")) -
              Z.of_nat (length (tables d' "observations"))) ∧
    Forall (fun obs => ∀ id, as_integer obs = Some id →
              count_key id site (tables d' "observations") = 0%nat)
           obs_list ∧
    (∀ id' site',
       site' ≠ site ∨ Forall (fun obs => as_integer obs ≠ Some id') obs_list →
       List.filter (has_key id' site') (tables d' "observations") =
       List.filter (has_key id' site') (tables d "observations")) ∧
    (∀ c, c ≠ "observations" → tables d' c = tables d c) ∧
    uuid_xref d' = uuid_xref d.
Proof.
  intros Hall.
  destruct (delete_obs_spec obs_list d 0 Hall)
    as (d' & Hrun & Hgone & Hkept & _ & Hother & Hx).
  exists d'. rewrite Hrun. by repeat split.
Qed.

End DeleteFacts.

Lemma delete_obs_removes_only_the_ids_witness :
  ∃ d',
    delete_obs "vn" plain_cast [JNum 42; JNum 7]
      (set_table empty_db "observations"
         [Row 42 "vn" JNull None; Row 42 "other" JNull None;
          Row 43 "vn" JNull None]) 0 =
      Ok (d', Z.of_nat 3 - Z.of_nat (length (tables d' "observations"))) ∧
    tables d' "observations" =
      [Row 42 "other" JNull None; Row 43 "vn" JNull None].
Proof.
  destruct (delete_obs_removes_only_the_ids "vn" plain_cast
              [JNum 42; JNum 7]
              (set_table empty_db "observations"
                 [Row 42 "vn" JNull None; Row 42 "other" JNull None;
                  Row 43 "vn" JNull None]))
    as (d' & Hrun & _).
  - repeat (apply Forall_cons; split; [by eexists|]). constructor.
  - exists d'. split; [exact Hrun|].
    vm_compute in Hrun. injection Hrun as <- _. reflexivity.
Defined.

(** ** What [_store_observation] does to the database *)

Lemma produced_refl (d : db) (nb : Z) : produced d nb d nb.
Proof.
  split; [exists []; by rewrite app_nil_r|].
  split; [|done]. exists []. rewrite app_nil_r. simpl. split; [done|lia].
Qed.

Lemma produced_trans (d1 d2 d3 : db) (n1 n2 n3 : Z) :
  produced d1 n1 d2 n2 → produced d2 n2 d3 n3 → produced d1 n1 d3 n3.
Proof.
  intros ((r1 & Hr1) & (q1 & Hq1 & Hl1) & Ht1)
         ((r2 & Hr2) & (q2 & Hq2 & Hl2) & Ht2).
  split; [exists (r1 ++ r2); by rewrite Hr2, Hr1, app_assoc|].
  split.
  - exists (q1 ++ q2). rewrite Hq2, Hq1, app_assoc, length_app.
    split; [done|lia].
  - intros c Hc. by rewrite Ht2, Ht1.
Qed.

Lemma note_produced (d : db) (nb : Z) (e : store_event) :
  produced d nb (note d e) nb.
Proof.
  split; [exists []; simpl; by rewrite app_nil_r|].
  split; [|done]. exists []. simpl. rewrite app_nil_r. split; [done|lia].
Qed.

Section ProducerFacts.

Variable site : string.
Variable db_out_proj : string.
Variable as_integer : json → option Z.
Variable transform : string → string → json → json → json * json.
Variable uuid4 : nat → string.
Variable now : nat → Z.

Lemma queue_put_produced (elem : json) (name : string) (d : db) (nb : Z) :
  produced d nb (queue_put site db_out_proj elem name d) (nb + 1).
Proof.
  split; [exists []; by rewrite app_nil_r|].
  split; [|done]. eexists. split; [reflexivity|]. simpl. lia.
Qed.

Lemma store_uuid_produced (obs_id universal_id : json) (d d' : db)
    (n nb : Z) :
  _store_uuid site as_integer uuid4 now obs_id universal_id d = Ok (d', n) →
  produced d nb d' nb.
Proof.
  unfold _store_uuid.
  destruct (bind_integer as_integer obs_id) as [id|]; simpl; [|done].
  destruct (List.find _ _); simpl.
  { intros [= <- _]. apply produced_refl. }
  unfold insert_xref. destruct (existsb _ _); simpl; [done|].
  intros [= <- _].
  split; [by eexists|]. split; [|done].
  exists []. rewrite app_nil_r. simpl. split; [done|lia].
Qed.

Lemma store_sightings_produced (controler : string) (elems : list json) :
  ∀ (d d' : db) (nb nb' : Z),
  store_sightings site db_out_proj as_integer uuid4 now controler elems d nb =
    Ok (d', nb') →
  produced d nb d' nb'.
Proof.
  induction elems as [|elem elems IH]; intros d d' nb nb'; simpl.
  - intros [= <- <-]. apply produced_refl.
  - destruct (observer elem) as [o|]; simpl; [|done].
    destruct (py_getitem o "id_sighting") as [obs_id|]; simpl; [|done].
    destruct (py_getitem o "id_universal") as [universal_id|]; simpl; [|done].
    destruct (_store_uuid _ _ _ _ _ _ _) as [[d1 n]|] eqn:Huuid; simpl;
      [|done].
    destruct (metadata controler) as [name|]; simpl; [|done].
    intros Hrest. apply IH in Hrest.
    eapply produced_trans; [apply note_produced|].
    eapply produced_trans; [by eapply store_uuid_produced|].
    eapply produced_trans; [apply queue_put_produced|exact Hrest].
Qed.

Lemma put_form_sightings_produced (controler : string) (elems : list json) :
  ∀ (d d' : db) (nb nb' : Z),
  put_form_sightings site db_out_proj controler elems d nb = Ok (d', nb') →
  produced d nb d' nb'.
Proof.
  induction elems as [|elem elems IH]; intros d d' nb nb'; simpl.
  - intros [= <- <-]. apply produced_refl.
  - destruct (metadata controler) as [name|]; simpl; [|done].
    intros Hrest. apply IH in Hrest.
    eapply produced_trans; [apply queue_put_produced|exact Hrest].
Qed.

Lemma split_form_produced (controler : string)
    (fields : list (string * json)) :
  ∀ (forms_data forms_data' : list (string * json)) (d d' : db) (nb nb' : Z),
  split_form site db_out_proj controler fields forms_data d nb =
    Ok (forms_data', d', nb') →
  produced d nb d' nb'.
Proof.
  induction fields as [|[k v] fields IH];
    intros forms_data forms_data' d d' nb nb'; simpl.
  - intros [= _ <- <-]. apply produced_refl.
  - destruct (decide (k = "sightings")); [|apply IH].
    destruct (py_len v); simpl; [|done].
    destruct (indexed v) as [elems|]; simpl; [|done].
    destruct (put_form_sightings _ _ _ _ _ _) as [[d1 nb1]|] eqn:Hput;
      simpl; [|done].
    intros Hrest. apply IH in Hrest.
    eapply produced_trans; [|exact Hrest].
    by eapply put_form_sightings_produced.
Qed.

Lemma store_form_produced (items_dict : json) (d d' : db) (n nb : Z) :
  _store_form site db_out_proj as_integer transform items_dict d =
    Ok (d', n) →
  produced d nb d' nb.
Proof.
  unfold _store_form.
  destruct (py_len items_dict); simpl; [|done].
  destruct (py_contains "lon" items_dict) as [has_lon|]; simpl; [|done].
  destruct (if has_lon then py_contains "lat" items_dict else Ok false)
    as [has_lat|]; simpl; [|done].
  destruct (if has_lat then _ else _) as [located|]; simpl; [|done].
  destruct (py_getitem located "@id") as [id_value|]; simpl; [|done].
  destruct (upsert _ _ _ _ _ _) as [t|]; simpl; [|done].
  destruct (py_len located); simpl; [|done].
  intros [= <- _].
  split; [exists []; by rewrite app_nil_r|].
  split.
  - exists []. rewrite app_nil_r. simpl. split; [done|lia].
  - intros c Hc. simpl. by rewrite decide_False.
Qed.

Lemma store_forms_produced (controler : string) (forms : list json) :
  ∀ (d d' : db) (nb nb' : Z),
  store_forms site db_out_proj as_integer transform controler forms d nb =
    Ok (d', nb') →
  produced d nb d' nb'.
Proof.
  induction forms as [|form forms IH]; intros d d' nb nb'; simpl.
  - intros [= <- <-]. apply produced_refl.
  - destruct form as [| | | | |fields]; try done.
    destruct (split_form _ _ _ _ _ _ _) as [[[forms_data d1] nb1]|] eqn:Hsplit;
      simpl; [|done].
    destruct (_store_form _ _ _ _ _ _) as [[d2 n]|] eqn:Hform; simpl; [|done].
    intros Hrest. apply IH in Hrest.
    eapply produced_trans; [by eapply split_form_produced|].
    eapply produced_trans; [apply note_produced|].
    eapply produced_trans; [by eapply store_form_produced|exact Hrest].
Qed.

(** X17: whenever [_store_observation] returns, the identity rows that
    were there are still there, unchanged and in place, new ones coming
    after them; the count returned is the number of write tasks it put on
    the queue; and of the tables only [forms] is written: the observation
    rows are left to the workers. *)
Theorem store_observation_produces (controler : string) (items_dict : json)
    (d d' : db) (nb_obs : Z) :
  _store_observation site db_out_proj as_integer transform uuid4 now
                     controler items_dict d = Ok (d', nb_obs) →
  (∃ rows, uuid_xref d' = uuid_xref d ++ rows) ∧
  (∃ tasks, observations_queue d' = observations_queue d ++ tasks ∧
            Z.of_nat (length tasks) = nb_obs) ∧
  (∀ c, c ≠ "forms" → tables d' c = tables d c).
Proof.
  unfold _store_observation.
  destruct (py_getitem items_dict "data") as [data|]; simpl; [|done].
  destruct (py_getitem data "sightings") as [sightings|]; simpl; [|done].
  destruct (py_len sightings); simpl; [|done].
  destruct (indexed sightings) as [elems|]; simpl; [|done].
  destruct (store_sightings _ _ _ _ _ _ _ _ _) as [[d1 nb1]|] eqn:Hs;
    simpl; [|done].
  apply store_sightings_produced in Hs.
  destruct (py_contains "forms" data) as [[|]|]; simpl; [| |done].
  - destruct (py_getitem data "forms") as [forms|]; simpl; [|done].
    destruct (py_len forms); simpl; [|done].
    destruct (indexed forms) as [fs|]; simpl; [|done].
    intros Hf. apply store_forms_produced in Hf.
    destruct (produced_trans _ _ _ _ _ _ Hs Hf) as (Hx & (q & Hq & Hl) & Ht).
    split; [done|]. split; [|done]. exists q. split; [done|lia].
  - intros [= <- <-]. destruct Hs as (Hx & (q & Hq & Hl) & Ht).
    split; [done|]. split; [|done]. exists q. split; [done|lia].
Qed.

(** X18: a response whose [data] has no [sightings] key, forms or not,
    makes [_store_observation] raise [KeyError]: the length of
    [items_dict['data']['sightings']] is read before the forms are looked
    for. *)
Theorem store_observation_needs_sightings (controler : string)
    (items_dict : json) (data : list (string * json)) (d : db) :
  py_getitem items_dict "data" = Ok (JDict data) →
  dict_get "sightings" data = None →
  _store_observation site db_out_proj as_integer transform uuid4 now
                     controler items_dict d = Raise KeyError.
Proof.
  intros Hdata Hnone. unfold _store_observation. rewrite Hdata. simpl.
  by rewrite Hnone.
Qed.

End ProducerFacts.

Lemma store_observation_produces_witness :
  ∃ d',
    (∃ rows, uuid_xref d' = uuid_xref empty_db ++ rows) ∧
    (∃ tasks, observations_queue d' = observations_queue empty_db ++ tasks ∧
              Z.of_nat (length tasks) = 2) ∧
    (∀ c, c ≠ "forms" → tables d' c = tables empty_db c).
Proof.
  assert (∃ d',
    _store_observation "vn" "2154" plain_cast no_projection
      (fun _ => "uuid") (fun _ => 0) "observations"
      (JDict [("data",
               JDict [("sightings", JList [sighting 42 1]);
                      ("forms",
                       JList [JDict [("@id", JNum 7);
                                     ("sightings",
                                      JList [sighting 43 1])]])])])
      empty_db = Ok (d', 2)) as [d' Hrun].
  { eexists. vm_compute. reflexivity. }
  exists d'.
  exact (store_observation_produces "vn" "2154" plain_cast no_projection
           (fun _ => "uuid") (fun _ => 0) "observations" _ empty_db d' 2 Hrun).
Defined.

Lemma store_observation_needs_sightings_witness :
  _store_observation "vn" "2154" plain_cast no_projection
    (fun _ => "uuid") (fun _ => 0) "observations"
    (JDict [("data",
             JDict [("forms",
                     JList [JDict [("@id", JNum 7);
                                   ("sightings", JList [sighting 43 1])]])])])
    empty_db = Raise KeyError.
Proof.
  apply (store_observation_needs_sightings "vn" "2154" plain_cast
           no_projection (fun _ => "uuid") (fun _ => 0) "observations" _
           [("forms",
             JList [JDict [("@id", JNum 7);
                           ("sightings", JList [sighting 43 1])]])]);
    reflexivity.
Defined.

(** ** The increment log *)

Lemma find_inc_other (taxo taxo' : Z) (site site' : string) (ts : Z)
    (t : list increment) :
  (taxo', site') ≠ (taxo, site) →
  List.find (inc_has taxo' site')
    (map (fun r => if inc_has taxo site r
                   then Increment taxo site ts else r) t) =
  List.find (inc_has taxo' site') t.
Proof.
  intros Hne. induction t as [|r t IH]; simpl; [done|].
  rewrite IH.
  destruct (inc_has taxo site r) eqn:Hr; [|done].
  unfold inc_has in Hr. apply bool_decide_eq_true in Hr as [Ht Hs].
  replace (inc_has taxo' site' (Increment taxo site ts)) with false.
  - replace (inc_has taxo' site' r) with false; [done|].
    symmetry. apply bool_decide_eq_false_2.
    intros [? ?]; apply Hne; congruence.
  - symmetry. apply bool_decide_eq_false_2. simpl.
    intros [? ?]; apply Hne; congruence.
Qed.

Lemma find_inc_snoc (taxo taxo' : Z) (site site' : string) (ts : Z)
    (t : list increment) :
  (taxo', site') ≠ (taxo, site) →
  List.find (inc_has taxo' site') (t ++ [Increment taxo site ts]) =
  List.find (inc_has taxo' site') t.
Proof.
  intros Hne. induction t as [|r t IH]; simpl.
  - unfold inc_has. simpl. rewrite bool_decide_eq_false_2; [done|].
    intros [? ?]; apply Hne; congruence.
  - by rewrite IH.
Qed.

Lemma find_inc_updated (taxo : Z) (site : string) (ts : Z)
    (t : list increment) (r : increment) :
  List.find (inc_has taxo site) t = Some r →
  List.find (inc_has taxo site)
    (map (fun r => if inc_has taxo site r
                   then Increment taxo site ts else r) t) =
  Some (Increment taxo site ts).
Proof.
  induction t as [|r' t IH]; simpl; [done|].
  destruct (inc_has taxo site r') eqn:Hr.
  - intros _. unfold inc_has at 1. simpl.
    by rewrite bool_decide_eq_true_2.
  - intros Hfind. rewrite Hr. by apply IH.
Qed.

Lemma find_inc_appended (taxo : Z) (site : string) (ts : Z)
    (t : list increment) :
  List.find (inc_has taxo site) t = None →
  List.find (inc_has taxo site) (t ++ [Increment taxo site ts]) =
  Some (Increment taxo site ts).
Proof.
  induction t as [|r' t IH]; simpl.
  - intros _. unfold inc_has. simpl. by rewrite bool_decide_eq_true_2.
  - destruct (inc_has taxo site r'); [done|]. apply IH.
Qed.

(** X19: the timestamp that [increment_log] writes for a site and
    taxonomic group is the one [increment_get] reads back; the timestamp
    of every other pair is what it was; and the table gets a row only
    when the pair had none. *)
Theorem increment_log_then_get (as_integer : json → option Z)
    (t : list increment) (site : string) (taxo_group : json) (last_ts : Z) :
  is_Some (as_integer taxo_group) →
  ∃ t',
    increment_log as_integer t site taxo_group last_ts = Ok t' ∧
    increment_get as_integer t' site taxo_group = Ok (Some last_ts) ∧
    (∀ site' taxo_group',
       (as_integer taxo_group', site') ≠ (as_integer taxo_group, site) →
       increment_get as_integer t' site' taxo_group' =
       increment_get as_integer t site' taxo_group') ∧
    length t' =
      match increment_get as_integer t site taxo_group with
      | Ok (Some _) => length t
      | _ => S (length t)
      end.
Proof.
  intros [taxo Htaxo].
  unfold increment_log, increment_get, bind_integer. rewrite Htaxo. simpl.
  destruct (List.find (inc_has taxo site) t) as [r|] eqn:Hfind; simpl;
    eexists; (split; [reflexivity|]).
  - rewrite (find_inc_updated _ _ _ _ _ Hfind). simpl.
    split; [done|]. split; [|by rewrite length_map].
    intros site' tg' Hne. destruct (as_integer tg') as [taxo'|]; simpl;
      [|done].
    rewrite find_inc_other; [done|]. intros [= -> ->]. by apply Hne.
  - rewrite (find_inc_appended _ _ _ _ Hfind). simpl.
    split; [done|]. split; [|rewrite length_app; simpl; lia].
    intros site' tg' Hne. destruct (as_integer tg') as [taxo'|]; simpl;
      [|done].
    rewrite find_inc_snoc; [done|]. intros [= -> ->]. by apply Hne.
Qed.

Lemma increment_log_then_get_witness :
  ∃ t',
    increment_log plain_cast [Increment 1 "vn" 10; Increment 2 "vn" 20]
                  "vn" (JNum 2) 30 = Ok t' ∧
    increment_get plain_cast t' "vn" (JNum 2) = Ok (Some 30) ∧
    increment_get plain_cast t' "vn" (JNum 1) = Ok (Some 10) ∧
    length t' = 2%nat.
Proof.
  destruct (increment_log_then_get plain_cast
              [Increment 1 "vn" 10; Increment 2 "vn" 20] "vn" (JNum 2) 30)
    as (t' & Hlog & Hget & Hother & Hlen).
  { vm_compute. eauto. }
  exists t'. split; [done|]. split; [done|]. split; [|exact Hlen].
  rewrite Hother; [reflexivity|]. vm_compute. congruence.
Defined.

(** ** The worker *)

Lemma localized_id (transform : string → string → json → json → json * json)
    (item : ObservationItem) (v elem ts : json) :
  localized transform item = Ok (v, elem, ts) →
  ∃ o, observer (item_elem item) = Ok o ∧ py_getitem o "id_sighting" = Ok v.
Proof.
  unfold localized, observer, set_observer.
  destruct (item_elem item) as [| | | | |efields]; simpl; try done.
  destruct (dict_get "observers" efields) as [obs|] eqn:Hobs; simpl; [|done].
  destruct obs as [| | |[|ch rest]|[|o others]|]; simpl; try done.
  destruct o as [| | | | |fields]; simpl; try done.
  destruct (dict_get "id_sighting" fields) as [id_value|] eqn:Hid; simpl;
    [|done].
  destruct (if dict_mem "update_date" fields then _ else _) as [date|];
    simpl; [|done].
  destruct (dict_get "coord_lon" fields) as [lon|]; simpl; [|done].
  destruct (dict_get "coord_lat" fields) as [lat|]; simpl; [|done].
  rewrite !dict_get_set_eq. simpl.
  rewrite !dict_get_set_eq. simpl.
  rewrite !dict_get_set_ne by done. rewrite Hid. simpl.
  intros [= <- _ _]. eexists. split; [done|]. simpl. by rewrite Hid.
Qed.

Section WorkerFacts.

Variable as_integer : json → option Z.
Variable transform : string → string → json → json → json * json.

Lemma worker_keeps_keys (q : list ObservationItem) :
  ∀ d : db,
  Forall (storable as_integer transform) q →
  (∀ c, unique_keys (tables d c)) →
  ∃ d',
    observation_worker as_integer transform q d = Ok d' ∧
    (∀ c, unique_keys (tables d' c)) ∧
    (∀ c id site, count_key id site (tables d c) = 1%nat →
                  count_key id site (tables d' c) = 1%nat) ∧
    Forall (task_stored_once as_integer transform d') q ∧
    (∀ c, Forall (fun item => item_metadata item ≠ c) q →
          tables d' c = tables d c) ∧
    uuid_xref d' = uuid_xref d ∧
    observations_queue d' = observations_queue d.
Proof.
  induction q as [|item q IH]; intros d Hall Huniq.
  - exists d. simpl. by repeat split.
  - apply Forall_cons in Hall as [(v & elem & ts & id & Hloc & Hv) Hall].
    simpl. unfold store_1_observation. rewrite Hloc. simpl.
    set (name := item_metadata item).
    destruct (upsert_keeps_keys as_integer (tables d name) (item_site item)
                v id
                (fun id => Row id (item_site item) elem (Some ts))
                (fun _ r => Row (row_id r) (row_site r) elem (Some ts))
                Hv (StoreFacts.has_key_same _ _ _ _))
      as (t' & Hup & Hu & H1 & Hsame & _); [|apply Huniq|].
    { intros r Hk. apply has_key_true in Hk as [Hid Hsite].
      apply has_key_true. by simpl. }
    rewrite Hup. simpl.
    destruct (IH (set_table d name t') Hall)
      as (d' & Hrun & Hu' & Hkeep & Hstored & Hother & Hx & Hq).
    { intros c. simpl. case_decide; [done|apply Huniq]. }
    exists d'. split; [exact Hrun|]. split; [done|].
    split.
    { intros c id' site' Hc1. apply Hkeep. simpl. case_decide; [|done].
      subst c. by apply (upsert_keeps_rows (tables d name) t' id
                                            (item_site item)). }
    split.
    { constructor; [|done].
      intros v' elem' ts' id' Hloc' Hv'. rewrite Hloc in Hloc'.
      injection Hloc' as <- <- <-. rewrite Hv in Hv'. injection Hv' as <-.
      apply Hkeep. by rewrite StoreFacts.set_table_same. }
    split; [|done].
    intros c Hc. apply Forall_cons in Hc as [Hne Hc].
    rewrite (Hother c Hc). simpl. by rewrite decide_False.
Qed.

(** X20: a worker that takes a queue of tasks it can store, on tables that
    honour their primary key, stores every one of them: it does not raise,
    the queue is empty afterwards, the keys are still honoured, each task's
    key has one row in the table the task names even when two tasks carry
    the same sighting, rows that were alone for their key still are, and
    the identity rows and the tables no task names are not touched. *)
Theorem worker_stores_every_task (d : db) :
  Forall (storable as_integer transform) (observations_queue d) →
  (∀ c, unique_keys (tables d c)) →
  ∃ d',
    drain as_integer transform d = Ok d' ∧
    observations_queue d' = [] ∧
    (∀ c, unique_keys (tables d' c)) ∧
    Forall (task_stored_once as_integer transform d')
           (observations_queue d) ∧
    (∀ c id site, count_key id site (tables d c) = 1%nat →
                  count_key id site (tables d' c) = 1%nat) ∧
    (∀ c, Forall (fun item => item_metadata item ≠ c) (observations_queue d) →
          tables d' c = tables d c) ∧
    uuid_xref d' = uuid_xref d.
Proof.
  intros Hall Huniq. unfold drain.
  destruct (worker_keeps_keys (observations_queue d)
              (Db (tables d) (uuid_xref d) [] (uuids_drawn d) (history d))
              Hall Huniq)
    as (d' & Hrun & Hu & Hkeep & Hstored & Hother & Hx & Hq).
  exists d'. by repeat split.
Qed.

End WorkerFacts.

Lemma worker_stores_every_task_witness :
  let d := Db (fun _ => [Row 42 "vn" (sighting 42 1) (Some (JNum 1))]) []
              [MkItem "vn" "observations" (sighting 42 2) "epsg:4326"
                      "epsg:2154";
               MkItem "vn" "observations" (sighting 43 1) "epsg:4326"
                      "epsg:2154";
               MkItem "vn" "observations" (sighting 43 3) "epsg:4326"
                      "epsg:2154"]
              0 [] in
  ∃ d',
    drain plain_cast no_projection d = Ok d' ∧
    observations_queue d' = [] ∧
    count_key 42 "vn" (tables d' "observations") = 1%nat ∧
    count_key 43 "vn" (tables d' "observations") = 1%nat ∧
    tables d' "places" = tables d "places".
Proof.
  intros d.
  destruct (worker_stores_every_task plain_cast no_projection d)
    as (d' & Hrun & Hq & Hu & Hstored & Hkeep & Hother & Hx).
  { repeat (apply Forall_cons; split;
            [eexists _, _, _, _; split; vm_compute; reflexivity|]).
    constructor. }
  { intros c id site. unfold count_key, has_key. simpl.
    case_bool_decide; simpl; lia. }
  exists d'. split; [exact Hrun|]. split; [exact Hq|].
  apply Forall_cons in Hstored as [H42 Hstored].
  apply Forall_cons in Hstored as [H43 _].
  split; [eapply H42; vm_compute; reflexivity|].
  split; [eapply H43; vm_compute; reflexivity|].
  apply Hother.
  repeat (apply Forall_cons; split; [simpl; congruence|]). constructor.
Defined.

(** ** From the response to the rows *)

Lemma xref_find_count (t : list xref) (id : Z) (site : string) :
  match List.find (xref_has_key id site) t with
  | Some _ => count_xref id site t ≠ 0%nat
  | None => count_xref id site t = 0%nat ∧
            existsb (xref_has_key id site) t = false
  end.
Proof.
  unfold count_xref. induction t as [|r t IH]; simpl; [done|].
  destruct (xref_has_key id site r); simpl; [lia|exact IH].
Qed.

Lemma count_xref_snoc (t : list xref) (r : xref) (id : Z) (site : string) :
  count_xref id site (t ++ [r]) =
  (count_xref id site t + if xref_has_key id site r then 1 else 0)%nat.
Proof.
  unfold count_xref. rewrite List.filter_app, length_app. simpl.
  by destruct (xref_has_key id site r).
Qed.

Section ResponseToRows.

Variable site : string.
Variable db_out_proj : string.
Variable as_integer : json → option Z.
Variable transform : string → string → json → json → json * json.
Variable uuid4 : nat → string.
Variable now : nat → Z.

Lemma store_uuid_keeps_keys (obs_id universal_id : json) (id : Z) (d : db) :
  as_integer obs_id = Some id →
  unique_xrefs (uuid_xref d) →
  ∃ d',
    _store_uuid site as_integer uuid4 now obs_id universal_id d =
      Ok (d', 1) ∧
    unique_xrefs (uuid_xref d') ∧
    count_xref id site (uuid_xref d') = 1%nat ∧
    (∀ id' site', count_xref id' site' (uuid_xref d) = 1%nat →
                  count_xref id' site' (uuid_xref d') = 1%nat) ∧
    tables d' = tables d ∧
    observations_queue d' = observations_queue d.
Proof.
  intros Hid Huniq. unfold _store_uuid, bind_integer. rewrite Hid. simpl.
  pose proof (xref_find_count (uuid_xref d) id site) as Hfind.
  pose proof (Huniq id site) as Hle.
  destruct (List.find _ _); simpl.
  - exists d. split; [done|]. split; [done|]. split; [lia|]. done.
  - destruct Hfind as [H0 He]. unfold insert_xref. simpl. rewrite He. simpl.
    eexists. split; [reflexivity|]. simpl.
    set (r := Xref id site universal_id _ None _).
    assert (Hr : xref_has_key id site r = true).
    { unfold xref_has_key. simpl. by rewrite bool_decide_eq_true. }
    assert (Hother : ∀ id' site', (id', site') ≠ (id, site) →
              xref_has_key id' site' r = false).
    { intros id' site' Hne. unfold xref_has_key. simpl.
      apply bool_decide_eq_false. intros [? ?]. apply Hne. congruence. }
    split.
    { intros id' site'. rewrite count_xref_snoc.
      destruct (decide ((id', site') = (id, site))) as [[= -> ->]|Hne].
      - rewrite H0, Hr. lia.
      - rewrite (Hother _ _ Hne). pose proof (Huniq id' site'). lia. }
    split; [rewrite count_xref_snoc, H0, Hr; lia|].
    split; [|done].
    intros id' site' H1. rewrite count_xref_snoc.
    destruct (decide ((id', site') = (id, site))) as [[= -> ->]|Hne];
      [lia|].
    rewrite (Hother _ _ Hne). lia.
Qed.

Lemma store_sightings_all (controler type : string) (elems : list json) :
  ∀ (d : db) (nb : Z),
  dict_get controler table_types = Some type →
  Forall (complete_sighting site db_out_proj as_integer transform controler)
         elems →
  unique_xrefs (uuid_xref d) →
  ∃ d',
    store_sightings site db_out_proj as_integer uuid4 now controler elems
                    d nb = Ok (d', nb + Z.of_nat (length elems)) ∧
    observations_queue d' =
      observations_queue d ++ map (task_of site db_out_proj controler) elems ∧
    tables d' = tables d ∧
    unique_xrefs (uuid_xref d') ∧
    (∀ id' site', count_xref id' site' (uuid_xref d) = 1%nat →
                  count_xref id' site' (uuid_xref d') = 1%nat) ∧
    Forall (fun elem => ∀ o obs_id id,
              observer elem = Ok o → py_getitem o "id_sighting" = Ok obs_id →
              as_integer obs_id = Some id →
              count_xref id site (uuid_xref d') = 1%nat) elems.
Proof.
  induction elems as [|elem elems IH]; intros d nb Hc Hall Huniq.
  - exists d. simpl. rewrite app_nil_r, Z.add_0_r. by repeat split.
  - apply Forall_cons in Hall as [Hone Hall].
    destruct Hone as ((v & elem' & ts & id & Hloc & Hv) &
                      o & universal_id & Hobs & Huid).
    apply localized_id in Hloc as (o' & Hobs' & Hsid). simpl in Hobs'.
    rewrite Hobs in Hobs'. injection Hobs' as <-.
    simpl. rewrite Hobs. simpl. rewrite Hsid. simpl. rewrite Huid. simpl.
    destruct (store_uuid_keeps_keys v universal_id id (note d (UuidStep v))
                Hv Huniq)
      as (d1 & Hrun & Hu1 & H1 & Hkeep1 & Ht1 & Hq1).
    rewrite Hrun. simpl. rewrite (StoreFacts.known_controler _ _ Hc). simpl.
    destruct (IH (queue_put site db_out_proj elem controler d1) (nb + 1)
                 Hc Hall Hu1)
      as (d' & Hrest & Hq & Ht & Hu & Hkeep & Hin).
    exists d'. split.
    { rewrite Hrest. do 2 f_equal. lia. }
    split.
    { rewrite Hq. simpl. rewrite Hq1. simpl. by rewrite <- app_assoc. }
    split; [by rewrite Ht; simpl; rewrite Ht1|].
    split; [done|].
    split.
    { intros id' site' Hc1. apply Hkeep. simpl. by apply Hkeep1. }
    constructor; [|done].
    intros o2 obs_id2 id2 Hobs2 Hsid2 Hid2.
    rewrite Hobs in Hobs2. injection Hobs2 as <-.
    rewrite Hsid in Hsid2. injection Hsid2 as <-.
    rewrite Hv in Hid2. injection Hid2 as <-.
    apply Hkeep. simpl. exact H1.
Qed.

(** X21: a response of sightings that are complete ([observers[0]] with
    [id_sighting], [id_universal], a date and the coordinates), stored by
    [_store_observation] and then written by the worker, on a database
    that honours its keys: neither step raises, the count returned is the
    number of sightings, the queue is empty again, and every sighting has
    one observation row and one identity row, even when the response
    repeats a sighting or the database already had it.  The keys are
    still honoured and no other table is written. *)
Theorem sightings_reach_the_database (controler type : string)
    (items_dict : json) (data : list (string * json)) (elems : list json)
    (d : db) :
  dict_get controler table_types = Some type →
  py_getitem items_dict "data" = Ok (JDict data) →
  dict_get "sightings" data = Some (JList elems) →
  dict_mem "forms" data = false →
  Forall (complete_sighting site db_out_proj as_integer transform controler)
         elems →
  observations_queue d = [] →
  (∀ c, unique_keys (tables d c)) →
  unique_xrefs (uuid_xref d) →
  ∃ d1 d2,
    _store_observation site db_out_proj as_integer transform uuid4 now
                       controler items_dict d =
      Ok (d1, Z.of_nat (length elems)) ∧
    drain as_integer transform d1 = Ok d2 ∧
    observations_queue d2 = [] ∧
    Forall (sighting_in_database site as_integer controler d2) elems ∧
    (∀ c, unique_keys (tables d2 c)) ∧
    unique_xrefs (uuid_xref d2) ∧
    (∀ c, c ≠ controler → tables d2 c = tables d c).
Proof.
  intros Hc Hdata Hs Hforms Hall Hq0 Hkeys Hxrefs.
  destruct (store_sightings_all controler type elems d 0 Hc Hall Hxrefs)
    as (d1 & Hrun & Hq & Ht & Hu & Hkeep & Hin).
  rewrite Hq0 in Hq. simpl in Hq.
  assert (Hstorable : Forall (storable as_integer transform)
                             (observations_queue d1)).
  { rewrite Hq. clear -Hall. induction Hall as [|elem elems [H _] _ IH];
      simpl; by constructor. }
  assert (Hkeys1 : ∀ c, unique_keys (tables d1 c)) by (by rewrite Ht).
  destruct (worker_keeps_keys as_integer transform (observations_queue d1)
              (Db (tables d1) (uuid_xref d1) [] (uuids_drawn d1)
                  (history d1)) Hstorable Hkeys1)
    as (d2 & Hdrain & Hkeys2 & _ & Hstored & Hother & Hx & Hq2).
  simpl in Hother, Hx, Hq2.
  exists d1, d2. split.
  { unfold _store_observation. rewrite Hdata. simpl. rewrite Hs. simpl.
    rewrite Hrun. simpl. by rewrite Hforms. }
  split; [exact Hdrain|]. split; [exact Hq2|].
  split.
  { rewrite Hq in Hstored. clear -Hall Hstored Hin Hx.
    induction Hall as [|elem elems Hone _ IH]; [constructor|].
    simpl in Hstored. apply Forall_cons in Hstored as [Hrow Hstored].
    apply Forall_cons in Hin as [Hid Hin].
    constructor; [|by apply IH].
    destruct Hone as ((v & elem' & ts & id & Hloc & Hv) & _).
    destruct (localized_id _ _ _ _ _ Hloc) as (o & Hobs & Hsid).
    simpl in Hobs.
    exists o, v, id. split; [done|]. split; [done|]. split; [done|].
    split; [exact (Hrow v elem' ts id Hloc Hv)|].
    rewrite Hx. by apply (Hid o v id). }
  split; [done|]. split; [by rewrite Hx|].
  intros c Hne. rewrite Hother, Ht; [done|].
  rewrite Hq. clear -Hne. induction elems; simpl; constructor; [|done].
  simpl. congruence.
Qed.

End ResponseToRows.

Lemma sightings_reach_the_database_witness :
  let d := Db (fun c => if decide (c = "observations")
                        then [Row 42 "vn" (sighting 42 1) (Some (JNum 1))]
                        else [])
              [Xref 42 "vn" (JStr "28_1") "uuid" None 0] [] 1 [] in
  ∃ d1 d2,
    _store_observation "vn" "2154" plain_cast no_projection
      (fun _ => "uuid") (fun _ => 0) "observations"
      (JDict [("data",
               JDict [("sightings",
                       JList [sighting 42 2; sighting 43 1;
                              sighting 43 3])])])
      d = Ok (d1, 3) ∧
    drain plain_cast no_projection d1 = Ok d2 ∧
    observations_queue d2 = [] ∧
    Forall (sighting_in_database "vn" plain_cast "observations" d2)
           [sighting 42 2; sighting 43 1; sighting 43 3] ∧
    tables d2 "places" = [].
Proof.
  intros d.
  destruct (sightings_reach_the_database "vn" "2154" plain_cast
              no_projection (fun _ => "uuid") (fun _ => 0)
              "observations" "observation"
              (JDict [("data",
                       JDict [("sightings",
                               JList [sighting 42 2; sighting 43 1;
                                      sighting 43 3])])])
              [("sightings",
                JList [sighting 42 2; sighting 43 1; sighting 43 3])]
              [sighting 42 2; sighting 43 1; sighting 43 3] d)
    as (d1 & d2 & Hrun & Hdrain & Hq & Hin & _ & _ & Hother).
  - reflexivity.
  - reflexivity.
  - reflexivity.
  - reflexivity.
  - repeat (apply Forall_cons; split;
            [split; [eexists _, _, _, _; split; vm_compute; reflexivity
                    |eexists _, _; split; vm_compute; reflexivity]|]).
    constructor.
  - reflexivity.
  - intros c id site. unfold count_key, has_key. simpl.
    case_decide; simpl; [case_bool_decide; simpl; lia|lia].
  - intros id site. unfold count_xref, xref_has_key. simpl.
    case_bool_decide; simpl; lia.
  - exists d1, d2. split; [exact Hrun|]. split; [exact Hdrain|].
    split; [exact Hq|]. split; [exact Hin|].
    rewrite Hother by done. reflexivity.
Defined.

(** ** The forms *)

Lemma dict_get_fresh {V : Type} (d : list (string * V)) (k : string) :
  k ∉ d.*1 → dict_get k d = None.
Proof.
  induction d as [|[k' v'] d IH]; simpl; [done|].
  intros Hn. apply not_elem_of_cons in Hn as [Hne Hn].
  rewrite decide_False by done. by apply IH.
Qed.

Section FormFacts.

Variable site : string.
Variable db_out_proj : string.
Variable as_integer : json → option Z.
Variable transform : string → string → json → json → json * json.
Variable uuid4 : nat → string.
Variable now : nat → Z.

Lemma put_form_sightings_all (controler type : string) (elems : list json) :
  ∀ (d : db) (nb : Z),
  dict_get controler table_types = Some type →
  ∃ d',
    put_form_sightings site db_out_proj controler elems d nb =
      Ok (d', nb + Z.of_nat (length elems)) ∧
    observations_queue d' =
      observations_queue d ++ map (task_of site db_out_proj controler) elems ∧
    tables d' = tables d ∧
    uuid_xref d' = uuid_xref d.
Proof.
  induction elems as [|elem elems IH]; intros d nb Hc.
  - exists d. simpl. rewrite app_nil_r, Z.add_0_r. by repeat split.
  - simpl. rewrite (StoreFacts.known_controler _ _ Hc). simpl.
    destruct (IH (queue_put site db_out_proj elem controler d) (nb + 1) Hc)
      as (d' & Hrun & Hq & Ht & Hx).
    exists d'. split; [rewrite Hrun; do 2 f_equal; lia|].
    split; [rewrite Hq; simpl; by rewrite <- app_assoc|].
    by split; [rewrite Ht|rewrite Hx].
Qed.

Lemma split_form_fields (controler type : string)
    (fields : list (string * json)) :
  ∀ (acc : list (string * json)) (d : db) (nb : Z),
  dict_get controler table_types = Some type →
  NoDup fields.*1 →
  (∀ v, dict_get "sightings" fields = Some v → ∃ obs, v = JList obs) →
  ∃ forms_data d',
    split_form site db_out_proj controler fields acc d nb =
      Ok (forms_data, d',
          nb + Z.of_nat (length (form_sightings fields))) ∧
    (∀ k, k ≠ "sightings" →
          dict_get k forms_data = match dict_get k fields with
                                  | Some v => Some v
                                  | None => dict_get k acc
                                  end) ∧
    dict_get "sightings" forms_data = dict_get "sightings" acc ∧
    observations_queue d' =
      observations_queue d ++
      map (task_of site db_out_proj controler) (form_sightings fields) ∧
    tables d' = tables d ∧
    uuid_xref d' = uuid_xref d.
Proof.
  induction fields as [|[k v] fields IH]; intros acc d nb Hc Hnd Hs.
  - exists acc, d. simpl. rewrite app_nil_r, Z.add_0_r. by repeat split.
  - simpl in Hnd. apply NoDup_cons in Hnd as [Hk Hnd].
    simpl. destruct (decide (k = "sightings")) as [->|Hne].
    + destruct (Hs v) as [obs ->]; [done|].
      simpl.
      destruct (put_form_sightings_all controler type obs d nb Hc)
        as (d1 & Hput & Hq1 & Ht1 & Hx1).
      rewrite Hput. simpl.
      pose proof (dict_get_fresh fields "sightings" Hk) as Hnone.
      destruct (IH acc d1 (nb + Z.of_nat (length obs)) Hc Hnd)
        as (fd & d' & Hrun & Hget & Hsg & Hq & Ht & Hx).
      { intros v'. by rewrite Hnone. }
      unfold form_sightings in *. simpl. rewrite Hnone in *. simpl in *.
      exists fd, d'. split; [rewrite Hrun; do 2 f_equal; lia|].
      split.
      { intros k' Hk'. rewrite decide_False by done. by apply Hget. }
      split; [done|].
      split; [by rewrite Hq, Hq1, app_nil_r|].
      by split; [rewrite Ht|rewrite Hx].
    + destruct (IH (dict_set k v acc) d nb Hc Hnd)
        as (fd & d' & Hrun & Hget & Hsg & Hq & Ht & Hx).
      { intros v' Hv'. apply Hs. simpl. by rewrite decide_False. }
      assert (form_sightings ((k, v) :: fields) = form_sightings fields)
        as Heq.
      { unfold form_sightings. simpl. by rewrite decide_False. }
      rewrite Heq.
      exists fd, d'. split; [exact Hrun|].
      split.
      { intros k' Hk'. rewrite (Hget k' Hk').
        destruct (decide (k' = k)) as [->|Hne'].
        - by rewrite (dict_get_fresh fields k Hk), dict_get_set_eq.
        - by rewrite dict_get_set_ne. }
      split; [rewrite Hsg; by rewrite dict_get_set_ne|].
      done.
Qed.

Lemma store_form_item (forms_data : list (string * json)) (v : json)
    (id : Z) (d : db) :
  dict_get "@id" forms_data = Some v →
  as_integer v = Some id →
  unique_keys (tables d "forms") →
  ∃ d' r item,
    _store_form site db_out_proj as_integer transform (JDict forms_data) d =
      Ok (d', Z.of_nat (length item)) ∧
    select_one (tables d' "forms") id site = Some r ∧
    row_item r = JDict item ∧
    count_key id site (tables d' "forms") = 1%nat ∧
    (∀ k, k ≠ "coord_x_local" → k ≠ "coord_y_local" →
          dict_get k item = dict_get k forms_data) ∧
    (∀ lon lat,
       dict_get "lon" forms_data = Some lon →
       dict_get "lat" forms_data = Some lat →
       let xy := transform "epsg:4326" ("epsg:" +:+ db_out_proj) lon lat in
       dict_get "coord_x_local" item = Some xy.1 ∧
       dict_get "coord_y_local" item = Some xy.2) ∧
    observations_queue d' = observations_queue d ∧
    uuid_xref d' = uuid_xref d.
Proof.
  intros Hid Hv Huniq.
  assert (Hstore : ∀ item,
    dict_get "@id" item = Some v →
    ∃ d' r,
      (id_value ← py_getitem (JDict item) "@id";
       t ← upsert as_integer (tables d "forms") site id_value
                  (fun id => Row id site (JDict item) None)
                  (fun id r => Row id site (JDict item) (row_update_ts r));
       n ← py_len (JDict item);
       mret (set_table d "forms" t, n)) =
        Ok (d', Z.of_nat (length item)) ∧
      select_one (tables d' "forms") id site = Some r ∧
      row_item r = JDict item ∧
      count_key id site (tables d' "forms") = 1%nat ∧
      observations_queue d' = observations_queue d ∧
      uuid_xref d' = uuid_xref d).
  { intros item Hitem. simpl. rewrite Hitem. simpl.
    destruct (upsert_keeps_keys as_integer (tables d "forms") site v id
                (fun id => Row id site (JDict item) None)
                (fun id r => Row id site (JDict item) (row_update_ts r))
                Hv (StoreFacts.has_key_same _ _ _ _)
                (fun r _ => StoreFacts.has_key_same _ _ _ _) Huniq)
      as (t' & Hup & _ & H1 & _ & Hsel).
    rewrite Hup. simpl. eexists _, _. split; [reflexivity|]. simpl.
    split; [exact Hsel|].
    split; [by destruct (select_one (tables d "forms") id site)|].
    by repeat split. }
  unfold _store_form. simpl. unfold dict_mem.
  destruct (dict_get "lon" forms_data) as [lon|] eqn:Hlon; simpl.
  - destruct (dict_get "lat" forms_data) as [lat|] eqn:Hlat; simpl.
    + set (xy := transform "epsg:4326" ("epsg:" +:+ db_out_proj) lon lat).
      destruct (Hstore (dict_set "coord_y_local" xy.2
                          (dict_set "coord_x_local" xy.1 forms_data)))
        as (d' & r & Hrun & Hsel & Hitem & H1 & Hq & Hx).
      { by rewrite !dict_get_set_ne. }
      simpl in Hrun.
      exists d', r, (dict_set "coord_y_local" xy.2
                       (dict_set "coord_x_local" xy.1 forms_data)).
      split; [exact Hrun|]. split; [exact Hsel|]. split; [exact Hitem|].
      split; [exact H1|].
      split; [intros k Hkx Hky; by rewrite !dict_get_set_ne|].
      split; [|done].
      intros lon' lat' [= <-] [= <-]. simpl.
      rewrite dict_get_set_ne by done. by rewrite !dict_get_set_eq.
    + destruct (Hstore forms_data Hid)
        as (d' & r & Hrun & Hsel & Hitem & H1 & Hq & Hx).
      simpl in Hrun. exists d', r, forms_data.
      split; [exact Hrun|]. by repeat split.
  - destruct (Hstore forms_data Hid)
      as (d' & r & Hrun & Hsel & Hitem & H1 & Hq & Hx).
    simpl in Hrun. exists d', r, forms_data.
    split; [exact Hrun|]. by repeat split.
Qed.

(** X25: a form of a response is stored without its sightings.  For a
    response of complete sightings and one form, [_store_observation] puts
    the sightings of the response and then those of the form on the
    queue, returns their number (the form is not counted), and leaves one
    row for the form in [forms] whose record has no [sightings] key and
    every other field of the form as it came, with [coord_x_local] and
    [coord_y_local] added when the form has [lon] and [lat]. *)
Theorem form_stored_without_its_sightings (controler type : string)
    (items_dict v : json) (data fields : list (string * json))
    (elems obs : list json) (id : Z) (d : db) :
  dict_get controler table_types = Some type →
  py_getitem items_dict "data" = Ok (JDict data) →
  dict_get "sightings" data = Some (JList elems) →
  dict_get "forms" data = Some (JList [JDict fields]) →
  Forall (complete_sighting site db_out_proj as_integer transform controler)
         elems →
  unique_xrefs (uuid_xref d) →
  NoDup fields.*1 →
  dict_get "sightings" fields = Some (JList obs) →
  dict_get "@id" fields = Some v →
  as_integer v = Some id →
  unique_keys (tables d "forms") →
  ∃ d' r item,
    _store_observation site db_out_proj as_integer transform uuid4 now
                       controler items_dict d =
      Ok (d', Z.of_nat (length elems) + Z.of_nat (length obs)) ∧
    observations_queue d' =
      observations_queue d ++
      map (task_of site db_out_proj controler) (elems ++ obs) ∧
    select_one (tables d' "forms") id site = Some r ∧
    count_key id site (tables d' "forms") = 1%nat ∧
    row_item r = JDict item ∧
    dict_get "sightings" item = None ∧
    (∀ k, form_key_kept k → dict_get k item = dict_get k fields) ∧
    (∀ lon lat,
       dict_get "lon" fields = Some lon → dict_get "lat" fields = Some lat →
       let xy := transform "epsg:4326" ("epsg:" +:+ db_out_proj) lon lat in
       dict_get "coord_x_local" item = Some xy.1 ∧
       dict_get "coord_y_local" item = Some xy.2).
Proof.
  intros Hc Hdata Hs Hf Hall Hxrefs Hnd Hobs Hid Hv Huniq.
  destruct (store_sightings_all site db_out_proj as_integer transform uuid4
              now controler type elems d 0 Hc Hall Hxrefs)
    as (d1 & Hrun & Hq1 & Ht1 & _).
  destruct (split_form_fields controler type fields [] d1
              (0 + Z.of_nat (length elems)) Hc Hnd)
    as (fd & d2 & Hsplit & Hget & Hsg & Hq2 & Ht2 & Hx2).
  { intros v'. rewrite Hobs. intros [= <-]. by eexists. }
  assert (form_sightings fields = obs) as Hfs
    by (unfold form_sightings; by rewrite Hobs).
  rewrite Hfs in Hsplit, Hq2.
  assert (dict_get "@id" fd = Some v) as Hid'
    by (by rewrite (Hget "@id"), Hid).
  destruct (store_form_item fd v id (note d2 (FormStep (JDict fd)))
              Hid' Hv)
    as (d' & r & item & Hform & Hsel & Hitem & H1 & Hkept & Hxy & Hq & Hx).
  { simpl. by rewrite Ht2, Ht1. }
  exists d', r, item. split.
  { unfold _store_observation. rewrite Hdata. simpl. rewrite Hs. simpl.
    rewrite Hrun. simpl. unfold dict_mem. rewrite Hf. simpl.
    rewrite Hsplit. simpl. rewrite Hform. simpl. do 2 f_equal; lia. }
  split.
  { rewrite Hq. simpl. rewrite Hq2, Hq1, map_app. by rewrite <- app_assoc. }
  split; [exact Hsel|]. split; [exact H1|]. split; [exact Hitem|].
  split; [by rewrite (Hkept "sightings"), Hsg|].
  split.
  { intros k (Hk1 & Hk2 & Hk3). rewrite (Hkept k Hk2 Hk3), (Hget k Hk1).
    by destruct (dict_get k fields). }
  intros lon lat Hlon Hlat. apply Hxy.
  - by rewrite (Hget "lon"), Hlon.
  - by rewrite (Hget "lat"), Hlat.
Qed.

End FormFacts.

Lemma form_stored_without_its_sightings_witness :
  let fields := [("@id", JNum 7); ("lon", JNum 5); ("lat", JNum 45);
                 ("sightings", JList [sighting 43 1; sighting 44 1]);
                 ("time_start", JStr "08:00")] in
  ∃ d' r item,
    _store_observation "vn" "2154" plain_cast no_projection
      (fun _ => "uuid") (fun _ => 0) "observations"
      (JDict [("data",
               JDict [("sightings", JList [sighting 42 1]);
                      ("forms", JList [JDict fields])])])
      empty_db = Ok (d', 3) ∧
    length (observations_queue d') = 3%nat ∧
    select_one (tables d' "forms") 7 "vn" = Some r ∧
    row_item r = JDict item ∧
    dict_get "sightings" item = None ∧
    dict_get "time_start" item = Some (JStr "08:00").
Proof.
  intros fields.
  destruct (form_stored_without_its_sightings "vn" "2154" plain_cast
              no_projection (fun _ => "uuid") (fun _ => 0)
              "observations" "observation"
              (JDict [("data",
                       JDict [("sightings", JList [sighting 42 1]);
                              ("forms", JList [JDict fields])])])
              (JNum 7)
              [("sightings", JList [sighting 42 1]);
               ("forms", JList [JDict fields])]
              fields [sighting 42 1] [sighting 43 1; sighting 44 1] 7
              empty_db)
    as (d' & r & item & Hrun & Hq & Hsel & _ & Hitem & Hnone & Hkept & _).
  - reflexivity.
  - reflexivity.
  - reflexivity.
  - reflexivity.
  - repeat (apply Forall_cons; split;
            [split; [eexists _, _, _, _; split; vm_compute; reflexivity
                    |eexists _, _; split; vm_compute; reflexivity]|]).
    constructor.
  - intros id site. unfold count_xref. simpl. lia.
  - apply (bool_decide_unpack _). vm_compute. exact I.
  - reflexivity.
  - reflexivity.
  - reflexivity.
  - intros id site. unfold count_key. simpl. lia.
  - exists d', r, item. split; [exact Hrun|].
    split; [by rewrite Hq|]. split; [exact Hsel|]. split; [exact Hitem|].
    split; [exact Hnone|].
    rewrite Hkept; [reflexivity|]. by repeat split.
Defined.

(** ** Records with coordinates *)

Lemma select_one_filter (t : table) (id : Z) (site : string) :
  select_one t id site = head (List.filter (has_key id site) t).
Proof.
  unfold select_one. induction t as [|r t IH]; simpl; [done|].
  by destruct (has_key id site r).
Qed.

Lemma select_one_other (t t' : table) (id id' : Z) (site : string) :
  same_other_rows id site t t' → id' ≠ id →
  select_one t' id' site = select_one t id' site.
Proof.
  intros Hsame Hne. rewrite !select_one_filter, Hsame; [done|].
  intros [= ?]. done.
Qed.

Section GeometryFacts.

Variable site : string.
Variable db_out_proj : string.
Variable as_integer : json → option Z.
Variable transform : string → string → json → json → json * json.

Lemma store_elems_selects (controler type : string) (elems : list json) :
  ∀ d : db,
  dict_get controler table_types = Some type →
  Forall (fun elem => is_Some (record_id as_integer elem)) elems →
  NoDup (map (record_id as_integer) elems) →
  unique_keys (tables d controler) →
  ∃ d',
    store_elems site as_integer controler elems d = Ok d' ∧
    unique_keys (tables d' controler) ∧
    (∀ c, c ≠ controler → tables d' c = tables d c) ∧
    uuid_xref d' = uuid_xref d ∧
    observations_queue d' = observations_queue d ∧
    (∀ id, Some id ∉ map (record_id as_integer) elems →
           select_one (tables d' controler) id site =
           select_one (tables d controler) id site) ∧
    Forall (fun elem => ∃ id r,
              record_id as_integer elem = Some id ∧
              select_one (tables d' controler) id site = Some r ∧
              row_item r = elem) elems.
Proof.
  induction elems as [|elem elems IH]; intros d Hc Hall Hnd Huniq.
  - exists d. simpl. by repeat split.
  - apply Forall_cons in Hall as [[id Hid] Hall].
    simpl in Hnd. apply NoDup_cons in Hnd as [Hfresh Hnd].
    unfold record_id in Hid.
    destruct (py_getitem elem "id") as [v|] eqn:Hv; [|done].
    simpl. rewrite (StoreFacts.known_controler _ _ Hc). simpl.
    rewrite Hv. simpl.
    destruct (upsert_keeps_keys as_integer (tables d controler) site v id
                (fun id => Row id site elem None)
                (fun id r => Row id site elem (row_update_ts r))
                Hid (StoreFacts.has_key_same _ _ _ _)
                (fun r _ => StoreFacts.has_key_same _ _ _ _) Huniq)
      as (t' & Hup & Hu & _ & Hsame & Hsel).
    rewrite Hup. simpl.
    destruct (IH (set_table d controler t') Hc Hall Hnd)
      as (d' & Hrun & Hu' & Hother & Hx & Hq & Hframe & Hin).
    { by rewrite StoreFacts.set_table_same. }
    rewrite StoreFacts.set_table_same in Hframe.
    exists d'. split; [exact Hrun|]. split; [done|].
    split.
    { intros c Hne. rewrite (Hother c Hne). simpl. by rewrite decide_False. }
    split; [done|]. split; [done|].
    split.
    { intros id' Hnot. apply not_elem_of_cons in Hnot as [Hne Hnot].
      rewrite (Hframe id' Hnot).
      apply (select_one_other (tables d controler) t' id id' site Hsame).
      intros ->. apply Hne. unfold record_id. by rewrite Hv. }
    constructor; [|done].
    exists id. eexists. split; [unfold record_id; by rewrite Hv|].
    assert (Some id ∉ map (record_id as_integer) elems) as Hnot.
    { unfold record_id in Hfresh at 1. by rewrite Hv, Hid in Hfresh. }
    rewrite (Hframe id Hnot), Hsel.
    split; [reflexivity|].
    by destruct (select_one (tables d controler) id site).
Qed.

Lemma add_local_coords_located (elem : json) :
  located_record as_integer elem →
  ∃ elem' lon lat,
    add_local_coords db_out_proj transform elem = Ok elem' ∧
    py_getitem elem "coord_lon" = Ok lon ∧
    py_getitem elem "coord_lat" = Ok lat ∧
    record_id as_integer elem' = record_id as_integer elem ∧
    let xy := transform "epsg:4326" ("epsg:" +:+ db_out_proj) lon lat in
    py_getitem elem' "coord_x_local" = Ok xy.1 ∧
    py_getitem elem' "coord_y_local" = Ok xy.2 ∧
    ∀ k, k ≠ "coord_x_local" → k ≠ "coord_y_local" →
         py_getitem elem' k = py_getitem elem k.
Proof.
  intros (_ & lon & lat & Hlon & Hlat).
  destruct elem as [| | | | |fields]; try done.
  simpl in Hlon, Hlat.
  destruct (dict_get "coord_lon" fields) as [lon'|] eqn:Elon; [|done].
  injection Hlon as ->.
  destruct (dict_get "coord_lat" fields) as [lat'|] eqn:Elat; [|done].
  injection Hlat as ->.
  unfold add_local_coords. simpl. rewrite Elon. simpl. rewrite Elat. simpl.
  eexists _, lon, lat. split; [reflexivity|].
  split; [done|]. split; [done|].
  split; [unfold record_id; simpl; by rewrite !dict_get_set_ne|].
  simpl. rewrite dict_get_set_eq.
  rewrite dict_get_set_ne by done. rewrite dict_get_set_eq.
  split; [done|]. split; [done|].
  intros k Hx Hy. by rewrite !dict_get_set_ne.
Qed.

Lemma reproject_all (elems : list json) :
  Forall (located_record as_integer) elems →
  ∃ elems',
    reproject db_out_proj transform elems = Ok elems' ∧
    length elems' = length elems ∧
    map (record_id as_integer) elems' = map (record_id as_integer) elems ∧
    Forall2 (fun elem elem' =>
               add_local_coords db_out_proj transform elem = Ok elem')
            elems elems'.
Proof.
  induction elems as [|elem elems IH]; intros Hall.
  - exists []. simpl. by repeat split.
  - apply Forall_cons in Hall as [Hone Hall].
    destruct (add_local_coords_located elem Hone)
      as (elem' & lon & lat & Hadd & _ & _ & Hid & _).
    destruct (IH Hall) as (elems' & Hrun & Hlen & Hids & Hin).
    exists (elem' :: elems'). simpl. rewrite Hadd. simpl. rewrite Hrun.
    simpl. split; [done|]. split; [by rewrite Hlen|].
    split; [by rewrite Hid, Hids|]. by constructor.
Qed.

(** X27: [_store_geometry] of records that carry distinct integer ids
    and the coordinates [coord_lon] and [coord_lat], on a table where no
    key has two rows: it returns the number of records, and a select of
    the key of each record then returns the record with [coord_x_local]
    and [coord_y_local] computed from its coordinates and every other
    field as it came.  The keys are still unique and no other table, the
    identity rows and the queue are not touched. *)
Theorem geometry_store_then_select (controler type : string)
    (items_dict : json) (elems : list json) (d : db) :
  dict_get controler table_types = Some type →
  py_getitem items_dict "data" = Ok (JList elems) →
  Forall (located_record as_integer) elems →
  NoDup (map (record_id as_integer) elems) →
  unique_keys (tables d controler) →
  ∃ d',
    _store_geometry site db_out_proj as_integer transform controler
                    items_dict d = Ok (d', Z.of_nat (length elems)) ∧
    Forall (place_stored site db_out_proj as_integer transform
                         (tables d' controler)) elems ∧
    unique_keys (tables d' controler) ∧
    (∀ c, c ≠ controler → tables d' c = tables d c) ∧
    uuid_xref d' = uuid_xref d ∧
    observations_queue d' = observations_queue d.
Proof.
  intros Hc Hdata Hall Hnd Huniq.
  destruct (reproject_all elems Hall) as (elems' & Hrep & Hlen & Hids & Hin).
  destruct (store_elems_selects controler type elems' d Hc)
    as (d' & Hrun & Hu & Hother & Hx & Hq & _ & Hsel); [| |done|].
  { apply (proj1 (List.Forall_map (record_id as_integer) is_Some elems')).
    rewrite Hids. apply List.Forall_map.
    eapply Forall_impl; [exact Hall|]. by intros elem [H _]. }
  { by rewrite Hids. }
  exists d'. split.
  { destruct items_dict as [| | | | |fields]; try done.
    unfold _store_geometry. rewrite Hdata. simpl. rewrite Hrep. simpl.
    unfold _store_simple. simpl. rewrite dict_get_set_eq. simpl.
    rewrite Hrun. simpl. by rewrite Hlen. }
  split; [|done].
  clear -Hall Hin Hsel. revert elems' Hin Hsel.
  induction Hall as [|elem elems Hone _ IH]; intros elems' Hin Hsel;
    [constructor|].
  destruct elems' as [|elem' elems']; [by apply Forall2_cons_nil_inv in Hin|].
  apply Forall2_cons in Hin as [Hadd Hin].
  apply Forall_cons in Hsel as [(id & r & Hid & Hrow & Hitem) Hsel].
  constructor; [|by apply (IH elems')].
  destruct (add_local_coords_located elem Hone)
    as (elem2 & lon & lat & Hadd2 & Hlon & Hlat & Hid2 & Hxy).
  rewrite Hadd in Hadd2. injection Hadd2 as <-.
  simpl in Hxy. destruct Hxy as (Hx & Hy & Hkept).
  exists id, r, lon, lat. rewrite <- Hid2, Hitem. simpl.
  split; [exact Hid|]. split; [exact Hrow|]. split; [exact Hlon|].
  split; [exact Hlat|]. split; [exact Hx|]. split; [exact Hy|exact Hkept].
Qed.

End GeometryFacts.

Lemma geometry_store_then_select_witness :
  let d := Db (fun c => if decide (c = "places")
                        then [Row 2 "vn" (place 2 "old") None;
                              Row 2 "other" (place 2 "far") None]
                        else []) [] [] 0 [] in
  ∃ d',
    _store_geometry "vn" "2154" plain_cast no_projection "places"
      (JDict [("data", JList [place 1 "a"; place 2 "b"])])
      d = Ok (d', 2) ∧
    Forall (place_stored "vn" "2154" plain_cast no_projection
                         (tables d' "places"))
           [place 1 "a"; place 2 "b"] ∧
    tables d' "species" = [].
Proof.
  intros d.
  destruct (geometry_store_then_select "vn" "2154" plain_cast no_projection
              "places" "geometry"
              (JDict [("data", JList [place 1 "a"; place 2 "b"])])
              [place 1 "a"; place 2 "b"] d)
    as (d' & Hrun & Hin & _ & Hother & _).
  - reflexivity.
  - reflexivity.
  - repeat (apply Forall_cons; split;
            [split; [vm_compute; eauto
                    |eexists _, _; split; vm_compute; reflexivity]|]).
    constructor.
  - apply (bool_decide_unpack _). vm_compute. exact I.
  - intros id site. unfold count_key, has_key. simpl.
    repeat case_bool_decide; simpl; try lia. destruct_and!. congruence.
  - exists d'. split; [exact Hrun|]. split; [exact Hin|].
    rewrite Hother by done. reflexivity.
Defined.

End StoreMoreFacts.
